(** * MarkerClusterer (hulab/js-marker-clusterer): a shallow embedding

    The development follows [src/markerclusterer.js].  JavaScript objects
    that are shared and mutated (markers) live in a store indexed by their
    reference; clusters carry an allocation number standing for their
    identity; the map surface is a record read by the engine.

    Numbers are exact rationals ([Q]) where the source has doubles: every
    arithmetic expression below is the one the source writes, evaluated
    without rounding.  A centre is therefore stated as the expression the
    source computes, or as the position of a marker; nothing below says what
    a mean of positions amounts to once the additions and the division are
    rounded. *)

From Stdlib Require Import String.
From Stdlib Require Import List Bool Arith ZArith QArith Qminmax Lia.
Import ListNotations.

(** ** JavaScript values, as far as the constructor's [||] needs them *)

Module JS.

Inductive value : Type :=
| VUndefined
| VNull
| VBool (b : bool)
| VNumber (q : Q)
| VNaN
| VString (s : string)
| VFunction (f : nat)
| VObject (o : nat).

(** ToBoolean: the falsy values are [undefined], [null], [false], zero,
    [NaN] and the empty string. *)
Definition truthy (v : value) : bool :=
  match v with
  | VUndefined | VNull | VNaN => false
  | VBool b => b
  | VNumber q => negb (Qeq_bool q 0)
  | VString s => negb (String.eqb s EmptyString)
  | VFunction _ | VObject _ => true
  end.

Definition falsy (v : value) : bool := negb (truthy v).

(** [a || b] *)
Definition or (a b : value) : value := if truthy a then a else b.

End JS.

(** ** The constructor's treatment of its options (lines 57-68) *)

Module Constructor.
Import JS.

(** The [options] object; an absent property reads as [VUndefined]. *)
Record Options : Type := mkOptions {
  o_gridSize : value;
  o_minimumClusterSize : value;
  o_maxZoom : value;
  o_zoomOnClick : value;
  o_averageCenter : value;
  o_isClusterable : value;
  o_iconGenerator : value;
  o_width : value;
  o_height : value;
  o_anchor : value
}.

(** The properties the constructor stores on [this] from [options]. *)
Record Settings : Type := mkSettings {
  gridSize : value;
  minClusterSize : value;
  maxZoom : value;
  zoomOnClick : value;
  averageCenter : value;
  isClusterable : value;
  iconGenerator : value;
  clusterWidth : value;
  clusterHeight : value;
  anchor : value
}.

(** The two function literals the constructor falls back on. *)
Definition default_isClusterable : value := VFunction 0.
Definition default_iconGenerator : value := VFunction 1.

Definition MarkerClusterer (options : Options) : Settings :=
  {| gridSize := JS.or (o_gridSize options) (VNumber 60);
     minClusterSize := JS.or (o_minimumClusterSize options) (VNumber 2);
     maxZoom := JS.or (o_maxZoom options) VNull;
     zoomOnClick := JS.or (o_zoomOnClick options) (VBool true);
     averageCenter := JS.or (o_averageCenter options) (VBool false);
     isClusterable := JS.or (o_isClusterable options) default_isClusterable;
     iconGenerator := JS.or (o_iconGenerator options) default_iconGenerator;
     clusterWidth := o_width options;
     clusterHeight := o_height options;
     anchor := o_anchor options |}.

(** [{}] *)
Definition no_options : Options :=
  mkOptions VUndefined VUndefined VUndefined VUndefined VUndefined
            VUndefined VUndefined VUndefined VUndefined VUndefined.

End Constructor.

(** ** Geometry of the map API *)

Record LatLng : Type := mkLatLng { lat : Q; lng : Q }.

Record Point : Type := mkPoint { pt_x : Q; pt_y : Q }.

(** Modelled from the spec: [google.maps.LatLngBounds] belongs to the map
    API, which is not part of the repository.  A bounds object is the closed
    rectangle between its south-west and north-east corners; [extend] returns
    the union with a point (section 4.2); wrap-around at the antimeridian is
    left out. *)
Record LatLngBounds : Type := mkLatLngBounds {
  getSouthWest : LatLng;
  getNorthEast : LatLng
}.

Definition LatLngBounds_extend (b : LatLngBounds) (p : LatLng) : LatLngBounds :=
  {| getSouthWest :=
       mkLatLng (Qmin (lat (getSouthWest b)) (lat p))
                (Qmin (lng (getSouthWest b)) (lng p));
     getNorthEast :=
       mkLatLng (Qmax (lat (getNorthEast b)) (lat p))
                (Qmax (lng (getNorthEast b)) (lng p)) |}.

Definition LatLngBounds_contains (b : LatLngBounds) (p : LatLng) : bool :=
  Qle_bool (lat (getSouthWest b)) (lat p) && Qle_bool (lat p) (lat (getNorthEast b))
  && Qle_bool (lng (getSouthWest b)) (lng p) && Qle_bool (lng p) (lng (getNorthEast b)).

(** ** Markers: references into a store of marker objects *)

Definition marker : Type := nat.
Definition map_ref : Type := nat.

Record MarkerObj : Type := mkMarkerObj {
  getPosition : LatLng;
  isAdded : bool;
  getMap : option map_ref;
  draggable : bool
}.

Definition Store : Type := marker -> MarkerObj.

(** [marker.isAdded = b] *)
Definition set_isAdded (h : Store) (m : marker) (b : bool) : Store :=
  fun k =>
    if Nat.eqb k m
    then mkMarkerObj (getPosition (h k)) b (getMap (h k)) (draggable (h k))
    else h k.

(** [marker.setMap(r)] *)
Definition setMap (h : Store) (m : marker) (r : option map_ref) : Store :=
  fun k =>
    if Nat.eqb k m
    then mkMarkerObj (getPosition (h k)) (isAdded (h k)) r (draggable (h k))
    else h k.

(** [a != b] on map references, [None] standing for [null]. *)
Definition map_neq (a b : option map_ref) : bool :=
  match a, b with
  | Some p, Some q => negb (Nat.eqb p q)
  | None, None => false
  | _, _ => true
  end.

(** ** The spatial index *)

Module RBush.

(** [getMarkerNode]'s triple [[lat, lng, marker]]. *)
Record Node : Type := mkNode { n_lat : Q; n_lng : Q; n_marker : marker }.

Definition node_eqb (a b : Node) : bool :=
  Qeq_bool (n_lat a) (n_lat b) && Qeq_bool (n_lng a) (n_lng b)
  && Nat.eqb (n_marker a) (n_marker b).

(** Modelled from the spec: rbush is a dependency, not part of the
    repository.  Section 4.1 gives its contract: a collection of records
    with bulk load, single insert, removal of one record matching by
    structural equality (nothing happens when none matches), search of a
    closed rectangle, [all] and [clear].  The records are kept as a list;
    its order stands for the order in which the index enumerates them. *)
Definition t : Type := list Node.

Definition empty : t := [].
Definition insert (n : Node) (tr : t) : t := tr ++ [n].
Definition load (ns : list Node) (tr : t) : t := tr ++ ns.
Definition all (tr : t) : list Node := tr.
Definition clear (tr : t) : t := [].

Fixpoint remove (n : Node) (tr : t) : t :=
  match tr with
  | [] => []
  | k :: rest => if node_eqb n k then rest else k :: remove n rest
  end.

(** The query rectangle [[minLat, minLng, maxLat, maxLng]]. *)
Record BBox : Type := mkBBox { minX : Q; minY : Q; maxX : Q; maxY : Q }.

Definition inside (b : BBox) (n : Node) : bool :=
  Qle_bool (minX b) (n_lat n) && Qle_bool (n_lat n) (maxX b)
  && Qle_bool (minY b) (n_lng n) && Qle_bool (n_lng n) (maxY b).

Definition search (b : BBox) (tr : t) : list Node := filter (inside b) tr.

End RBush.

(** ** The map surface, clusters and the engine *)

(** What the engine reads from [this.map_] and from its own projection:
    [getBounds()] is [None] while the map has no bounds yet. *)
Record MapView : Type := mkMapView {
  getBounds : option LatLngBounds;
  getZoom : Z;
  fromLatLngToDivPixel : LatLng -> Point;
  fromDivPixelToLatLng : Point -> LatLng
}.

Record ClusterIcon : Type := mkClusterIcon {
  center : option LatLng;
  visible_ : bool;
  icon_map_ : option map_ref
}.

Record Cluster : Type := mkCluster {
  cid : nat;                      (* the object's identity *)
  c_map_ : map_ref;
  c_gridSize : Q;
  c_minClusterSize : Z;
  c_averageCenter : bool;
  center_ : option LatLng;
  c_markers_ : list marker;
  bounds_ : option LatLngBounds;
  clusterIcon_ : ClusterIcon
}.

Record Clusterer : Type := mkClusterer {
  map_ : map_ref;
  markers_ : list marker;
  clusters_ : list Cluster;
  ready_ : bool;
  tree_ : RBush.t;
  gridSize : Q;
  minClusterSize : Z;
  maxZoom : option Z;
  zoomOnClick : bool;
  averageCenter : bool;
  isClusterable : marker -> bool
}.

(** The engine together with the objects it shares with its caller. *)
Record World : Type := mkWorld {
  engine : Clusterer;
  store : Store;
  surface : MapView;
  next_cluster : nat
}.

(** An operation either returns or stops at a [TypeError]; the world is
    then left as it was when the error was raised. *)
Inductive outcome (A : Type) : Type :=
| Returns (a : A)
| Throws (w : World).

Arguments Returns {A} a.
Arguments Throws {A} w.

Definition bind {A B : Type} (o : outcome A) (k : A -> outcome B) : outcome B :=
  match o with
  | Returns a => k a
  | Throws w => Throws w
  end.

Notation "'let*' p ':=' o 'in' k" := (bind o (fun p => k))
  (at level 10, p pattern, o at level 100, k at level 200).

(** The world an operation leaves behind, however it ended. *)
Definition final {A : Type} (proj : A -> World) (o : outcome A) : World :=
  match o with
  | Returns a => proj a
  | Throws w => w
  end.

Definition with_markers (e : Clusterer) (ms : list marker) : Clusterer :=
  mkClusterer (map_ e) ms (clusters_ e) (ready_ e) (tree_ e) (gridSize e)
    (minClusterSize e) (maxZoom e) (zoomOnClick e) (averageCenter e) (isClusterable e).

Definition with_clusters (e : Clusterer) (cs : list Cluster) : Clusterer :=
  mkClusterer (map_ e) (markers_ e) cs (ready_ e) (tree_ e) (gridSize e)
    (minClusterSize e) (maxZoom e) (zoomOnClick e) (averageCenter e) (isClusterable e).

Definition with_ready (e : Clusterer) (r : bool) : Clusterer :=
  mkClusterer (map_ e) (markers_ e) (clusters_ e) r (tree_ e) (gridSize e)
    (minClusterSize e) (maxZoom e) (zoomOnClick e) (averageCenter e) (isClusterable e).

Definition with_tree (e : Clusterer) (tr : RBush.t) : Clusterer :=
  mkClusterer (map_ e) (markers_ e) (clusters_ e) (ready_ e) tr (gridSize e)
    (minClusterSize e) (maxZoom e) (zoomOnClick e) (averageCenter e) (isClusterable e).

Definition with_engine (w : World) (e : Clusterer) : World :=
  mkWorld e (store w) (surface w) (next_cluster w).

Definition with_store (w : World) (h : Store) : World :=
  mkWorld (engine w) h (surface w) (next_cluster w).

Definition with_surface (w : World) (v : MapView) : World :=
  mkWorld (engine w) (store w) v (next_cluster w).

(** ** Bounds *)

Definition getExtendedBounds (e : Clusterer) (v : MapView) (bounds : LatLngBounds)
  : LatLngBounds :=
  let tr := mkLatLng (lat (getNorthEast bounds)) (lng (getNorthEast bounds)) in
  let bl := mkLatLng (lat (getSouthWest bounds)) (lng (getSouthWest bounds)) in
  let trPix0 := fromLatLngToDivPixel v tr in
  let trPix := mkPoint (pt_x trPix0 + gridSize e) (pt_y trPix0 - gridSize e) in
  let blPix0 := fromLatLngToDivPixel v bl in
  let blPix := mkPoint (pt_x blPix0 - gridSize e) (pt_y blPix0 + gridSize e) in
  let ne := fromDivPixelToLatLng v trPix in
  let sw := fromDivPixelToLatLng v blPix in
  LatLngBounds_extend (LatLngBounds_extend bounds ne) sw.

Definition boundsToArray (bounds : LatLngBounds) : RBush.BBox :=
  let ne := getNorthEast bounds in
  let sw := getSouthWest bounds in
  RBush.mkBBox (Qmin (lat ne) (lat sw)) (Qmin (lng ne) (lng sw))
               (Qmax (lat ne) (lat sw)) (Qmax (lng ne) (lng sw)).

Definition getMarkerNode (h : Store) (m : marker) : RBush.Node :=
  let pos := getPosition (h m) in
  RBush.mkNode (lat pos) (lng pos) m.

(** ** ClusterIcon *)

Definition ClusterIcon_new (r : map_ref) : ClusterIcon :=
  mkClusterIcon None false (Some r).

Definition ClusterIcon_hide (i : ClusterIcon) : ClusterIcon :=
  mkClusterIcon (center i) false (icon_map_ i).

Definition ClusterIcon_show (i : ClusterIcon) : ClusterIcon :=
  mkClusterIcon (center i) true (icon_map_ i).

Definition ClusterIcon_remove (i : ClusterIcon) : ClusterIcon :=
  mkClusterIcon (center i) (visible_ i) None.

Definition set_icon_center (i : ClusterIcon) (c : option LatLng) : ClusterIcon :=
  mkClusterIcon c (visible_ i) (icon_map_ i).

(** ** Cluster *)

Definition Cluster_new (e : Clusterer) (id : nat) : Cluster :=
  mkCluster id (map_ e) (gridSize e) (minClusterSize e) (averageCenter e)
            None [] None (ClusterIcon_new (map_ e)).

Definition with_center (c : Cluster) (p : LatLng) (b : LatLngBounds) : Cluster :=
  mkCluster (cid c) (c_map_ c) (c_gridSize c) (c_minClusterSize c) (c_averageCenter c)
            (Some p) (c_markers_ c) (Some b) (clusterIcon_ c).

Definition with_members (c : Cluster) (ms : list marker) : Cluster :=
  mkCluster (cid c) (c_map_ c) (c_gridSize c) (c_minClusterSize c) (c_averageCenter c)
            (center_ c) ms (bounds_ c) (clusterIcon_ c).

Definition with_icon (c : Cluster) (i : ClusterIcon) : Cluster :=
  mkCluster (cid c) (c_map_ c) (c_gridSize c) (c_minClusterSize c) (c_averageCenter c)
            (center_ c) (c_markers_ c) (bounds_ c) i.

(** [this.markers_.indexOf(marker) != -1] *)
Definition Cluster_isMarkerAlreadyAdded (c : Cluster) (m : marker) : bool :=
  existsb (Nat.eqb m) (c_markers_ c).

(** [calculateBounds_], for the centre [p] just stored. *)
Definition Cluster_calculateBounds_ (e : Clusterer) (v : MapView) (p : LatLng)
  : LatLngBounds :=
  getExtendedBounds e v (mkLatLngBounds p p).

(** [mz && zoom > mz] *)
Definition above_maxZoom (mz : option Z) (zoom : Z) : bool :=
  match mz with
  | Some z => negb (z =? 0)%Z && (zoom >? z)%Z
  | None => false
  end.

(** [for (...) marker.setMap(r)] over a list of markers. *)
Definition setMap_all (h : Store) (ms : list marker) (r : option map_ref) : Store :=
  fold_left (fun h' m => setMap h' m r) ms h.

Definition Cluster_updateIcon (e : Clusterer) (v : MapView) (h : Store) (c : Cluster)
  : Store * Cluster :=
  let zoom := getZoom v in
  let mz := maxZoom e in
  if above_maxZoom mz zoom then
    (setMap_all h (c_markers_ c) (Some (c_map_ c)), c)
  else if (Z.of_nat (length (c_markers_ c)) <? c_minClusterSize c)%Z then
    (h, with_icon c (ClusterIcon_hide (clusterIcon_ c)))
  else
    (h, with_icon c (ClusterIcon_show (set_icon_center (clusterIcon_ c) (center_ c)))).

(** The centre after an add (lines 557-568): the first marker's position;
    then, when [averageCenter] is set, the expression of lines 562-564 on
    the old centre, the member count and the new position.  The source
    rounds each of its operations to a double; here they are exact, so this
    is the running mean only up to that rounding. *)
Definition Cluster_recenter (e : Clusterer) (v : MapView) (c : Cluster) (pos : LatLng)
  : Cluster :=
  match center_ c with
  | None => with_center c pos (Cluster_calculateBounds_ e v pos)
  | Some old =>
      if c_averageCenter c then
        let l := inject_Z (Z.of_nat (length (c_markers_ c)) + 1) in
        let lat' := (lat old * (l - 1) + lat pos) / l in
        let lng' := (lng old * (l - 1) + lng pos) / l in
        let p := mkLatLng lat' lng' in
        with_center c p (Cluster_calculateBounds_ e v p)
      else c
  end.

Definition Cluster_addMarker (e : Clusterer) (v : MapView) (h : Store) (c : Cluster)
  (m : marker) : Store * Cluster * bool :=
  if Cluster_isMarkerAlreadyAdded c m then (h, c, false)
  else
    let c1 := Cluster_recenter e v c (getPosition (h m)) in
    let h1 := set_isAdded h m true in
    let c2 := with_members c1 (c_markers_ c1 ++ [m]) in
    let len := Z.of_nat (length (c_markers_ c2)) in
    let h2 :=
      if (len <? c_minClusterSize c2)%Z && map_neq (getMap (h1 m)) (Some (c_map_ c2))
      then setMap h1 m (Some (c_map_ c2)) else h1 in
    let h3 :=
      if (len =? c_minClusterSize c2)%Z
      then setMap_all h2 (c_markers_ c2) None else h2 in
    let h4 :=
      if (len >=? c_minClusterSize c2)%Z then setMap h3 m None else h3 in
    let '(h5, c3) := Cluster_updateIcon e v h4 c2 in
    (h5, c3, true).

Fixpoint remove_first (m : marker) (ms : list marker) : list marker :=
  match ms with
  | [] => []
  | k :: rest => if Nat.eqb k m then rest else k :: remove_first m rest
  end.

(** [Cluster.prototype.removeMarker] *)
Definition Cluster_removeMarker (h : Store) (c : Cluster) (m : marker)
  : Store * Cluster * bool :=
  if Cluster_isMarkerAlreadyAdded c m
  then (set_isAdded h m false, with_members c (remove_first m (c_markers_ c)), true)
  else (h, c, false).

(** [Cluster.prototype.remove]: the icon leaves the map and the member array
    is emptied; the markers themselves are not touched. *)
Definition Cluster_remove (c : Cluster) : Cluster :=
  with_members (with_icon c (ClusterIcon_remove (clusterIcon_ c))) [].

(** ** MarkerClusterer *)

Definition pushMarkerTo_ (w : World) (m : marker) : World :=
  let h := set_isAdded (store w) m false in
  (* a draggable marker also gets a [dragend] listener; listeners are the
     caller's events and are not part of the state *)
  mkWorld (with_markers (engine w) (markers_ (engine w) ++ [m])) h
          (surface w) (next_cluster w).

(** The inner loop of [createClusters_]: one record returned by the search. *)
Definition absorb (e : Clusterer) (v : MapView) (acc : Store * Cluster)
  (n : RBush.Node) : Store * Cluster :=
  let '(h, cluster) := acc in
  let m := RBush.n_marker n in
  if isAdded (h m) then acc
  else if negb (isClusterable e m) then acc
  else let '(h', cluster', _) := Cluster_addMarker e v h cluster m in (h', cluster').

(** The body of the outer loop of [createClusters_], for one tracked marker. *)
Definition createClusters_step (mapBounds : LatLngBounds) (w : World) (m : marker)
  : World :=
  let e := engine w in
  let v := surface w in
  if isAdded (store w m) then w
  else
    let pos := getPosition (store w m) in
    if negb (LatLngBounds_contains mapBounds pos) then w
    else if negb (isClusterable e m) then w
    else
      let cluster0 := Cluster_new e (next_cluster w) in
      let '(h1, cluster1, _) := Cluster_addMarker e v (store w) cluster0 m in
      let bounds := getExtendedBounds e v (mkLatLngBounds pos pos) in
      let nodes := RBush.search (boundsToArray bounds) (tree_ e) in
      let '(h2, cluster2) := fold_left (absorb e v) nodes (h1, cluster1) in
      mkWorld (with_clusters e (clusters_ e ++ [cluster2])) h2 v (S (next_cluster w)).

Definition createClusters_ (w : World) : outcome World :=
  if negb (ready_ (engine w)) then Returns w
  else
    match getBounds (surface w) with
    | None => Throws w   (* [mapBounds.getSouthWest()] on [undefined] *)
    | Some mb =>
        let mapBounds0 := mkLatLngBounds (getSouthWest mb) (getNorthEast mb) in
        let mapBounds := getExtendedBounds (engine w) (surface w) mapBounds0 in
        Returns (fold_left (createClusters_step mapBounds) (markers_ (engine w)) w)
    end.

Definition redraw (w : World) : outcome World := createClusters_ w.

Definition resetViewport (w : World) (reset : bool) : World :=
  (* [cluster.remove()] on every cluster: see [Cluster_remove]; the cluster
     objects are dropped from the list below *)
  let h :=
    fold_left
      (fun h m =>
         let h1 := set_isAdded h m false in
         if reset then setMap h1 m None else h1)
      (markers_ (engine w)) (store w) in
  mkWorld (with_clusters (engine w) []) h (surface w) (next_cluster w).

Definition repaint (w : World) : outcome World :=
  redraw (resetViewport w false).

Definition addMarker (w : World) (m : marker) (nodraw : bool) : outcome World :=
  let w1 := pushMarkerTo_ w m in
  let w2 :=
    with_engine w1
      (with_tree (engine w1) (RBush.insert (getMarkerNode (store w1) m) (tree_ (engine w1)))) in
  if negb nodraw then redraw w2 else Returns w2.

Definition addMarkers (w : World) (ms : list marker) (nodraw : bool) : outcome World :=
  let w1 := fold_left pushMarkerTo_ ms w in
  let w2 :=
    with_engine w1
      (with_tree (engine w1)
         (RBush.load (map (getMarkerNode (store w1)) ms) (tree_ (engine w1)))) in
  if negb nodraw then redraw w2 else Returns w2.

(** The loop of [removeMarker_] over [this.tree_.all()]. *)
Definition remove_nodes_of (m : marker) (tr : RBush.t) : RBush.t :=
  fold_left
    (fun t node => if Nat.eqb (RBush.n_marker node) m then RBush.remove node t else t)
    (RBush.all tr) tr.

Definition removeMarker_ (w : World) (m : marker) : World * bool :=
  if negb (existsb (Nat.eqb m) (markers_ (engine w))) then (w, false)
  else
    let h := setMap (store w) m None in
    let e1 := with_markers (engine w) (remove_first m (markers_ (engine w))) in
    let e2 := with_tree e1 (remove_nodes_of m (tree_ e1)) in
    (mkWorld e2 h (surface w) (next_cluster w), true).

Definition removeMarker (w : World) (m : marker) (opt_nodraw : bool)
  : outcome (World * bool) :=
  let '(w1, removed) := removeMarker_ w m in
  if negb opt_nodraw && removed then
    let* w2 := redraw (resetViewport w1 false) in
    Returns (w2, true)
  else Returns (w1, false).

(** The array handed to [removeMarkers]: one of the caller's own, given by
    its content, or the engine's own [this.markers_], which [getMarkers()]
    (lines 156-158) hands out without copying it. *)
Inductive marker_array : Type :=
| OwnArray (ms : list marker)
| EngineArray.

(** The loop of [removeMarkers] (lines 286-289) when [markers] is
    [this.markers_] itself: [markers[i]] is read from the array as the
    removals so far have left it, and the loop ends when it reads past the
    end.  Every turn takes one marker off the array and moves one place on,
    so there are no more turns than markers were tracked: [fuel] is that
    number. *)
Fixpoint removeMarkers_engine_array (fuel i : nat) (acc : World * bool)
  : World * bool :=
  match fuel with
  | O => acc
  | S fuel' =>
      match nth_error (markers_ (engine (fst acc))) i with
      | None => acc
      | Some m =>
          removeMarkers_engine_array fuel' (S i)
            (let '(w', removed) := acc in
             let '(w'', r) := removeMarker_ w' m in
             (w'', removed || r))
      end
  end.

(** The loop of [removeMarkers]: over a caller's array, which no removal
    touches, or over the engine's own. *)
Definition removeMarkers_loop (w : World) (markers : marker_array) : World * bool :=
  match markers with
  | OwnArray ms =>
      fold_left
        (fun acc m =>
           let '(w', removed) := acc in
           let '(w'', r) := removeMarker_ w' m in
           (w'', removed || r))
        ms (w, false)
  | EngineArray =>
      removeMarkers_engine_array (length (markers_ (engine w))) 0 (w, false)
  end.

Definition removeMarkers (w : World) (markers : marker_array) (nodraw : bool)
  : outcome (World * bool) :=
  let '(w1, removed) := removeMarkers_loop w markers in
  if negb nodraw && removed then
    let* w2 := redraw (resetViewport w1 false) in
    Returns (w2, true)
  else Returns (w1, false).

Definition clearMarkers (w : World) (nodraw : bool) : outcome World :=
  let w1 := resetViewport w true in
  let w2 := with_engine w1 (with_tree (with_markers (engine w1) []) (RBush.clear (tree_ (engine w1)))) in
  if negb nodraw then redraw w2 else Returns w2.

Definition setReady_ (w : World) (ready : bool) : outcome World :=
  if negb (ready_ (engine w))
  then createClusters_ (with_engine w (with_ready (engine w) ready))
  else Returns w.

Definition onAdd (w : World) : outcome World := setReady_ w true.

Definition getMarkerCluster (w : World) (m : marker) : option Cluster :=
  if negb (isAdded (store w m)) then None
  else find (fun c => Cluster_isMarkerAlreadyAdded c m) (clusters_ (engine w)).

(** The loop of [removeCluster]: the first cluster that is the given object
    is removed ([cluster.remove()], then [splice]). *)
Fixpoint remove_cluster (id : nat) (cs : list Cluster) : list Cluster :=
  match cs with
  | [] => []
  | c :: rest => if Nat.eqb (cid c) id then rest else c :: remove_cluster id rest
  end.

Definition removeCluster (w : World) (cluster : nat) : World :=
  with_engine w (with_clusters (engine w) (remove_cluster cluster (clusters_ (engine w)))).

(** A new engine, as the constructor leaves it before any marker is added. *)
Definition MarkerClusterer_new (r : map_ref) (gs : Q) (mcs : Z) (mz : option Z)
  (avg : bool) (elig : marker -> bool) : Clusterer :=
  mkClusterer r [] [] false RBush.empty gs mcs mz true avg elig.

(** ** A concrete map surface for the examples *)

Module Example.

(** Ten pixels per degree, [y] growing southwards. *)
Definition toPixel (p : LatLng) : Point := mkPoint (lng p * 10) (- (lat p) * 10).
Definition toLatLng (p : Point) : LatLng := mkLatLng (- (pt_y p) / 10) (pt_x p / 10).

Definition view (zoom : Z) : MapView :=
  mkMapView (Some (mkLatLngBounds (mkLatLng (-50) (-50)) (mkLatLng 50 50)))
            zoom toPixel toLatLng.

(** The same surface before it has bounds. *)
Definition view_unlaid (zoom : Z) : MapView :=
  mkMapView None zoom toPixel toLatLng.

(** Marker [k] sits at latitude 0 and longitude [2k]; nothing is attached
    to a map or claimed by a cluster. *)
Definition markers0 : Store :=
  fun k => mkMarkerObj (mkLatLng 0 (inject_Z (2 * Z.of_nat k))) false None false.

Definition the_map : map_ref := 7%nat.

Definition clusterer (mcs : Z) (mz : option Z) (avg : bool) : Clusterer :=
  MarkerClusterer_new the_map 60 mcs mz avg (fun _ => true).

Definition world (mcs : Z) (mz : option Z) (avg : bool) (zoom : Z) : World :=
  mkWorld (clusterer mcs mz avg) markers0 (view zoom) 0.

End Example.

(** * Notions used in the statements *)

(** The centres a cluster shows after each of a series of adds. *)
Fixpoint Cluster_centers (e : Clusterer) (v : MapView) (h : Store) (c : Cluster)
  (ms : list marker) : list (option LatLng) :=
  match ms with
  | [] => []
  | m :: rest =>
      let '(h', c', _) := Cluster_addMarker e v h c m in
      center_ c' :: Cluster_centers e v h' c' rest
  end.

(** Equality of positions as numbers. *)
Definition LatLng_eq (p q : LatLng) : Prop := lat p == lat q /\ lng p == lng q.

Definition center_is (c : option LatLng) (q : LatLng) : Prop :=
  match c with
  | Some p => LatLng_eq p q
  | None => False
  end.

(** The reading of the minimum-size rule that ignores the zoom: the add
    that brings a cluster to three members hides all three and shows the
    icon. *)
Definition third_add_hides_all : Prop :=
  forall e v h c m h' c' r,
    c_minClusterSize c = 3%Z ->
    ~ In m (c_markers_ c) ->
    length (c_markers_ c) = 2%nat ->
    Cluster_addMarker e v h c m = (h', c', r) ->
    (forall k, In k (c_markers_ c') -> getMap (h' k) = None)
    /\ visible_ (clusterIcon_ c') = true.

(** The reading of the maximum-zoom rule under which no icon is on display
    once the presentation has been refreshed above the maximum zoom. *)
Definition no_icon_above_maxZoom : Prop :=
  forall e v h c mz,
    maxZoom e = Some mz -> mz <> 0%Z -> (mz < getZoom v)%Z ->
    visible_ (clusterIcon_ (snd (Cluster_updateIcon e v h c))) = false.

(** A pass requested while the map has no bounds is skipped. *)
Definition pass_skipped_without_bounds : Prop :=
  forall w, getBounds (surface w) = None -> createClusters_ w = Returns w.


(** ** The greedy pass, stated on sets of markers

    Section 4.4 of the specification describes the pass without stores or
    cluster objects: markers are visited in registration order; a marker
    that is unclaimed, in view and eligible founds a group and takes along
    the unclaimed eligible markers near it. *)

(** The members of [ms] that are not in [seen], each kept once, in order. *)
Fixpoint first_occurrences (seen : list marker) (ms : list marker) : list marker :=
  match ms with
  | [] => []
  | k :: rest =>
      if existsb (Nat.eqb k) seen then first_occurrences seen rest
      else k :: first_occurrences (seen ++ [k]) rest
  end.

Section Greedy.

Variable claimed0 : marker -> bool.     (* claimed before the pass *)
Variable inView : marker -> bool.       (* inside the expanded viewport *)
Variable eligible : marker -> bool.     (* the caller's predicate *)
Variable near : marker -> list marker.  (* what the index returns around a marker *)

Definition claimed (taken : list marker) (k : marker) : bool :=
  claimed0 k || existsb (Nat.eqb k) taken.

(** The group founded by [m]: [m], then the unclaimed eligible markers
    near it, in the order the index returns them. *)
Definition group_of (taken : list marker) (m : marker) : list marker :=
  m :: first_occurrences [m]
         (filter (fun k => negb (claimed taken k) && eligible k) (near m)).

Fixpoint greedy_groups (taken : list marker) (ms : list marker)
  : list (list marker) :=
  match ms with
  | [] => []
  | m :: rest =>
      if negb (claimed taken m) && inView m && eligible m
      then group_of taken m :: greedy_groups (taken ++ group_of taken m) rest
      else greedy_groups taken rest
  end.

End Greedy.

(** The markers the index returns around [m]'s position expanded by the
    grid size. *)
Definition near_markers (w : World) (m : marker) : list marker :=
  let pos := getPosition (store w m) in
  map RBush.n_marker
    (RBush.search
       (boundsToArray (getExtendedBounds (engine w) (surface w) (mkLatLngBounds pos pos)))
       (tree_ (engine w))).

(** The test the outer loop of the pass applies to a tracked marker. *)
Definition seedable (mapBounds : LatLngBounds) (w : World) (m : marker) : bool :=
  negb (isAdded (store w m))
  && LatLngBounds_contains mapBounds (getPosition (store w m))
  && isClusterable (engine w) m.

(** All members of the active clusters, cluster after cluster. *)
Definition members (w : World) : list marker :=
  flat_map c_markers_ (clusters_ (engine w)).

(** The number of active clusters that have [m] as a member. *)
Definition clusters_holding (w : World) (m : marker) : nat :=
  length (filter (fun c => Cluster_isMarkerAlreadyAdded c m) (clusters_ (engine w))).


(** [w'] has the positions, the surface and, but for the cluster list, the
    engine of [w]. *)
Definition same_setting (w w' : World) : Prop :=
  (forall k, getPosition (store w' k) = getPosition (store w k))
  /\ with_clusters (engine w') [] = with_clusters (engine w) []
  /\ surface w' = surface w.

(** No flag is lowered from [w] to [w']. *)
Definition flags_kept (w w' : World) : Prop :=
  forall k, isAdded (store w k) = true -> isAdded (store w' k) = true.


(** A world in which markers 0, 1 and 10 are tracked and indexed and the
    engine is ready. *)
Definition tracked_world : World :=
  mkWorld (with_tree
             (with_markers (with_ready (Example.clusterer 2 None false) true)
                [0; 1; 10]%nat)
             (map (getMarkerNode Example.markers0) [0; 1; 10]%nat))
          Example.markers0 (Example.view 5) 0.


(** ** The engine driven by its caller *)

(** The calls a caller can make on the engine, with the two things the map
    surface does to it: mounting it ([onAdd]) and changing what it shows.
    [addMarkers] is given an array of the caller's own: handed the engine's
    own array while a marker is tracked, its loop (lines 194-196) reads an
    array that every turn lengthens, and the call does not return. *)
Inductive call : Type :=
| AddMarker (m : marker) (nodraw : bool)
| AddMarkers (ms : list marker) (nodraw : bool)
| RemoveMarker (m : marker) (opt_nodraw : bool)
| RemoveMarkers (markers : marker_array) (nodraw : bool)
| Redraw
| Repaint
| ResetViewport (reset : bool)
| RemoveCluster (cluster : nat)
| ClearMarkers (nodraw : bool)
| OnAdd
| MapChanged (v : MapView).

(** The world after a call, whether it returned or stopped at an error. *)
Definition perform (w : World) (c : call) : World :=
  match c with
  | AddMarker m nodraw => final (fun x => x) (addMarker w m nodraw)
  | AddMarkers ms nodraw => final (fun x => x) (addMarkers w ms nodraw)
  | RemoveMarker m nodraw => final fst (removeMarker w m nodraw)
  | RemoveMarkers markers nodraw => final fst (removeMarkers w markers nodraw)
  | Redraw => final (fun x => x) (redraw w)
  | Repaint => final (fun x => x) (repaint w)
  | ResetViewport reset => resetViewport w reset
  | RemoveCluster cluster => removeCluster w cluster
  | ClearMarkers nodraw => final (fun x => x) (clearMarkers w nodraw)
  | OnAdd => final (fun x => x) (onAdd w)
  | MapChanged v => with_surface w v
  end.

(** The engine as its constructor leaves it. *)
Definition initial (w : World) : Prop :=
  markers_ (engine w) = [] /\ clusters_ (engine w) = []
  /\ ready_ (engine w) = false /\ tree_ (engine w) = RBush.empty.

Inductive reachable (admitted : World -> call -> Prop) : World -> Prop :=
| reachable_initial w : initial w -> reachable admitted w
| reachable_call w c :
    reachable admitted w -> admitted w c -> reachable admitted (perform w c).

(** Every call is admitted. *)
Definition any_call (w : World) (c : call) : Prop := True.

(** The calls under which the flags and the cluster list stay in step: a
    marker is not added while an active cluster still holds it, and no
    single cluster is removed. *)
Definition admissible (w : World) (c : call) : Prop :=
  match c with
  | AddMarker m _ => ~ In m (members w)
  | AddMarkers ms _ => forall m, In m ms -> ~ In m (members w)
  | RemoveCluster _ => False
  | _ => True
  end.

(** The flags agree with the cluster list. *)
Definition consistent (w : World) : Prop :=
  NoDup (members w)
  /\ (forall k, In k (members w) -> isAdded (store w k) = true)
  /\ (forall k, In k (markers_ (engine w)) -> isAdded (store w k) = true ->
                In k (members w)).

(** The invariant as the specification words it, over all calls. *)
Definition clustered_once_whatever_the_calls : Prop :=
  forall w, reachable any_call w ->
  forall m, In m (markers_ (engine w)) -> isAdded (store w m) = true ->
            clusters_holding w m = 1%nat.


(** * Further parts of the source *)

(** ** Anchors and the placing of a cluster icon *)

Module Icon.

(** [xalign] and [yalign] *)
Definition xalign_LEFT : Z := 0.
Definition xalign_CENTER : Z := 1.
Definition xalign_RIGHT : Z := 2.
Definition yalign_TOP : Z := 0.
Definition yalign_CENTER : Z := 16.
Definition yalign_BOTTOM : Z := 32.

Definition TOP_LEFT : Z := Z.lor xalign_LEFT yalign_TOP.
Definition TOP : Z := Z.lor xalign_CENTER yalign_TOP.
Definition TOP_RIGHT : Z := Z.lor xalign_RIGHT yalign_TOP.
Definition CENTER_LEFT : Z := Z.lor xalign_LEFT yalign_CENTER.
Definition CENTER : Z := Z.lor xalign_CENTER yalign_CENTER.
Definition CENTER_RIGHT : Z := Z.lor xalign_RIGHT yalign_CENTER.
Definition BOTTOM_LEFT : Z := Z.lor xalign_LEFT yalign_BOTTOM.
Definition BOTTOM : Z := Z.lor xalign_CENTER yalign_BOTTOM.
Definition BOTTOM_RIGHT : Z := Z.lor xalign_RIGHT yalign_BOTTOM.

(** The engine's [clusterWidth], [clusterHeight] and [anchor]: numbers, or
    [None] when the option was not given. *)
Record Sizing : Type := mkSizing {
  clusterWidth : option Q;
  clusterHeight : option Q;
  anchor : option Z
}.

(** The icon's [width], [height] and [anchor]. *)
Record Box : Type := mkBox {
  width : Q;
  height : Q;
  box_anchor : option Z
}.

Definition truthy_number (q : option Q) : bool :=
  match q with
  | Some n => negb (Qeq_bool n 0)
  | None => false
  end.

Definition truthy_anchor (a : option Z) : bool :=
  match a with
  | Some n => negb (n =? 0)%Z
  | None => false
  end.

(** What [new ClusterIcon] and then the [Cluster] constructor leave on the
    icon. *)
Definition Cluster_icon_box (s : Sizing) : Box :=
  let b0 := mkBox 0 0 None in
  let b1 :=
    if truthy_number (clusterWidth s) && truthy_number (clusterHeight s) then
      match clusterWidth s, clusterHeight s with
      | Some w, Some h => mkBox w h (box_anchor b0)
      | _, _ => b0
      end
    else b0 in
  if truthy_anchor (anchor s) then mkBox (width b1) (height b1) (anchor s) else b1.

(** [a & b], as a condition *)
Definition has_bit (a b : Z) : bool := negb (Z.land a b =? 0)%Z.

Definition getPosFromLatLng_ (projection : LatLng -> Point) (b : Box) (latlng : LatLng)
  : Point :=
  let pos := projection latlng in
  let width := if negb (Qeq_bool (width b) 0) then width b else 0 in
  let height := if negb (Qeq_bool (height b) 0) then height b else 0 in
  let anchor :=
    if truthy_anchor (box_anchor b)
    then match box_anchor b with Some a => a | None => CENTER end
    else CENTER in
  let x1 := if has_bit anchor xalign_CENTER then pt_x pos - width / 2 else pt_x pos in
  let x2 := if has_bit anchor xalign_RIGHT then x1 - width else x1 in
  let y1 := if has_bit anchor yalign_CENTER then pt_y pos - height / 2 else pt_y pos in
  let y2 := if has_bit anchor yalign_BOTTOM then y1 - height else y1 in
  mkPoint x2 y2.

(** The share of the width and of the height by which each named anchor is
    expected to move the icon; the first entry is what [TOP_LEFT] gets. *)
Definition offsets : list (Z * (Q * Q)) :=
  [ (TOP_LEFT, (1 # 2, 1 # 2));
    (TOP, (1 # 2, 0));
    (TOP_RIGHT, (1, 0));
    (CENTER_LEFT, (0, 1 # 2));
    (CENTER, (1 # 2, 1 # 2));
    (CENTER_RIGHT, (1, 1 # 2));
    (BOTTOM_LEFT, (0, 1));
    (BOTTOM, (1 # 2, 1));
    (BOTTOM_RIGHT, (1, 1)) ].

End Icon.

(** ** The listeners the constructor installs on the map *)

(** [zoom != zoomChanged], a number against a boolean: the boolean is read
    as 1 or 0. *)
Definition number_neq_boolean (zoom : Z) (b : bool) : bool :=
  negb (zoom =? (if b then 1 else 0))%Z.

(** The [zoom_changed] listener: the new value of [zoomChanged]. *)
Definition zoom_changed_listener (zoomChanged : bool) (zoom : Z) : bool :=
  if number_neq_boolean zoom zoomChanged then true else zoomChanged.

(** The [idle] listener. *)
Definition idle_listener (zoomChanged : bool) (w : World) : outcome World :=
  if zoomChanged then repaint w else redraw w.


(** ** Notions used in the further statements *)

(** What the constructor fixes: the map and the options. *)
Definition config (e : Clusterer)
  : map_ref * Q * Z * option Z * bool * bool * (marker -> bool) :=
  (map_ e, gridSize e, minClusterSize e, maxZoom e, zoomOnClick e, averageCenter e,
   isClusterable e).

Definition is_OnAdd (c : call) : bool :=
  match c with
  | OnAdd => true
  | _ => false
  end.

(** The active clusters are distinct objects, allocated before the next one. *)
Definition cluster_ids_fresh (w : World) : Prop :=
  NoDup (map cid (clusters_ (engine w)))
  /\ forall c, In c (clusters_ (engine w)) -> (cid c < next_cluster w)%nat.

(** Every record of the index belongs to a tracked marker. *)
Definition index_tracked (w : World) : Prop :=
  forall n, In n (tree_ (engine w)) -> In (RBush.n_marker n) (markers_ (engine w)).


(** How a cluster shows on the map, given the marker store: above the
    maximum zoom, and below the minimum size, its members are on the map and
    its icon is hidden; otherwise its members are off the map and its icon
    is shown at its centre. *)
Definition presented (e : Clusterer) (v : MapView) (h : Store) (c : Cluster) : Prop :=
  if above_maxZoom (maxZoom e) (getZoom v)
     || (Z.of_nat (length (c_markers_ c)) <? c_minClusterSize c)%Z
  then
    (forall k, In k (c_markers_ c) -> getMap (h k) = Some (c_map_ c))
    /\ visible_ (clusterIcon_ c) = false
  else
    (forall k, In k (c_markers_ c) -> getMap (h k) = None)
    /\ visible_ (clusterIcon_ c) = true
    /\ center (clusterIcon_ c) = center_ c.


(** A cluster the engine [e] built has a first member and a centre; without
    [averageCenter] the centre is that member's position. *)
Definition centred (e : Clusterer) (h : Store) (c : Cluster) : Prop :=
  c_averageCenter c = averageCenter e
  /\ exists s rest,
       c_markers_ c = s :: rest
       /\ center_ c <> None
       /\ (averageCenter e = false -> center_ c = Some (getPosition (h s))).

(** The markers that stand at the odd places of a list, counting from 0. *)
Fixpoint odd_places (ms : list marker) : list marker :=
  match ms with
  | [] => []
  | _ :: rest =>
      match rest with
      | [] => []
      | m :: rest' => m :: odd_places rest'
      end
  end.

(** The example engine mounted on its map and given markers 0, 1 and 10:
    the pass leaves two clusters, of markers 0 and 1 and of marker 10. *)
Definition mounted_world : World :=
  perform (perform (Example.world 2 None false 5) OnAdd)
          (AddMarkers [0; 1; 10]%nat false).

(** The markers that stand at the even places. *)
Definition even_places (ms : list marker) : list marker :=
  match ms with
  | [] => []
  | m :: rest => m :: odd_places rest
  end.

(** * Properties *)

(** ** The marker store *)

(** [h'] differs from [h] at most in the map a marker is attached to. *)
Definition map_only (h h' : Store) : Prop :=
  forall k, getPosition (h' k) = getPosition (h k) /\ isAdded (h' k) = isAdded (h k).

Lemma map_only_refl h : map_only h h.
Proof. intro k; split; reflexivity. Qed.

Lemma map_only_trans h1 h2 h3 : map_only h1 h2 -> map_only h2 h3 -> map_only h1 h3.
Proof.
  intros H12 H23 k. destruct (H12 k) as [P1 A1], (H23 k) as [P2 A2].
  split; congruence.
Qed.

Lemma map_only_setMap h m r : map_only h (setMap h m r).
Proof. intro k. unfold setMap. destruct (Nat.eqb k m); split; reflexivity. Qed.

Lemma map_only_setMap_all ms : forall h r, map_only h (setMap_all h ms r).
Proof.
  unfold setMap_all. induction ms as [|m ms IH]; intros h r; simpl.
  - apply map_only_refl.
  - eapply map_only_trans; [apply map_only_setMap | apply IH].
Qed.

Lemma getMap_setMap_same h m r : getMap (setMap h m r m) = r.
Proof. unfold setMap. rewrite Nat.eqb_refl. reflexivity. Qed.

Lemma getMap_setMap_other h m r k : k <> m -> getMap (setMap h m r k) = getMap (h k).
Proof.
  intro Hk. unfold setMap. destruct (Nat.eqb_spec k m); [contradiction | reflexivity].
Qed.

Lemma getMap_setMap_all_in ms : forall h r k,
  In k ms -> getMap (setMap_all h ms r k) = r.
Proof.
  unfold setMap_all. induction ms as [|m ms IH]; intros h r k Hin; simpl.
  - destruct Hin.
  - destruct (in_dec Nat.eq_dec k ms) as [Hk|Hk].
    + apply IH; exact Hk.
    + destruct Hin as [->|Hin]; [|contradiction].
      clear IH. revert h. induction ms as [|j ms IH]; intro h; simpl.
      * apply getMap_setMap_same.
      * assert (Hj : k <> j) by (intro E; apply Hk; left; symmetry; exact E).
        assert (Hk' : ~ In k ms) by (intro E; apply Hk; right; exact E).
        specialize (IH Hk').
        assert (Swap : forall g, getMap (fold_left (fun h' m => setMap h' m r) ms g k)
                                 = getMap (g k)).
        { clear -Hk'. induction ms as [|i ms IH2]; intro g; simpl; [reflexivity|].
          rewrite IH2 by (intro E; apply Hk'; right; exact E).
          apply getMap_setMap_other. intro E; apply Hk'; left; symmetry; exact E. }
        rewrite Swap, getMap_setMap_other by exact Hj.
        apply getMap_setMap_same.
Qed.

Lemma isAdded_set_isAdded h m b k :
  isAdded (set_isAdded h m b k) = if Nat.eqb k m then b else isAdded (h k).
Proof. unfold set_isAdded. destruct (Nat.eqb k m); reflexivity. Qed.

Lemma getPosition_set_isAdded h m b k :
  getPosition (set_isAdded h m b k) = getPosition (h k).
Proof. unfold set_isAdded. destruct (Nat.eqb k m); reflexivity. Qed.

Lemma getMap_set_isAdded h m b k : getMap (set_isAdded h m b k) = getMap (h k).
Proof. unfold set_isAdded. destruct (Nat.eqb k m); reflexivity. Qed.

Lemma existsb_eqb_In (m : marker) (ms : list marker) :
  existsb (Nat.eqb m) ms = true <-> In m ms.
Proof.
  rewrite existsb_exists. split.
  - intros [k [Hin Hk]]. apply Nat.eqb_eq in Hk. subst. exact Hin.
  - intro Hin. exists m. split; [exact Hin | apply Nat.eqb_refl].
Qed.

Lemma existsb_eqb_not_In (m : marker) (ms : list marker) :
  existsb (Nat.eqb m) ms = false <-> ~ In m ms.
Proof.
  rewrite <- existsb_eqb_In. destruct (existsb (Nat.eqb m) ms); split; intro H;
    try reflexivity; try discriminate; try (intro E; discriminate).
  exfalso; apply H; reflexivity.
Qed.

(** ** Cluster.updateIcon *)

Lemma above_maxZoom_true mz zoom :
  above_maxZoom mz zoom = true <-> exists z, mz = Some z /\ z <> 0%Z /\ (z < zoom)%Z.
Proof.
  unfold above_maxZoom. destruct mz as [z|].
  - rewrite andb_true_iff, negb_true_iff, Z.eqb_neq, Z.gtb_lt. split.
    + intros [H1 H2]. exists z. auto.
    + intros [z' [E [H1 H2]]]. injection E as <-. auto.
  - split; [discriminate | intros [z [E _]]; discriminate].
Qed.

Lemma updateIcon_cluster e v h c :
  let c' := snd (Cluster_updateIcon e v h c) in
  c_markers_ c' = c_markers_ c /\ center_ c' = center_ c /\ bounds_ c' = bounds_ c
  /\ cid c' = cid c /\ c_map_ c' = c_map_ c /\ c_minClusterSize c' = c_minClusterSize c
  /\ c_averageCenter c' = c_averageCenter c.
Proof.
  unfold Cluster_updateIcon.
  destruct (above_maxZoom (maxZoom e) (getZoom v)); simpl; [tauto|].
  destruct (Z.of_nat (length (c_markers_ c)) <? c_minClusterSize c)%Z; simpl; tauto.
Qed.

Lemma updateIcon_map_only e v h c : map_only h (fst (Cluster_updateIcon e v h c)).
Proof.
  unfold Cluster_updateIcon.
  destruct (above_maxZoom (maxZoom e) (getZoom v)); simpl.
  - apply map_only_setMap_all.
  - destruct (Z.of_nat (length (c_markers_ c)) <? c_minClusterSize c)%Z; simpl;
      apply map_only_refl.
Qed.

(** ** Cluster.addMarker *)

Lemma recenter_cluster e v c pos :
  let c' := Cluster_recenter e v c pos in
  c_markers_ c' = c_markers_ c /\ cid c' = cid c /\ c_map_ c' = c_map_ c
  /\ c_minClusterSize c' = c_minClusterSize c /\ c_averageCenter c' = c_averageCenter c
  /\ clusterIcon_ c' = clusterIcon_ c.
Proof.
  unfold Cluster_recenter. destruct (center_ c); simpl; [|tauto].
  destruct (c_averageCenter c) eqn:E; simpl; rewrite ?E; tauto.
Qed.

(** What an add of a marker that is not yet a member does to the member
    list and to the flags and positions in the store. *)
Lemma addMarker_new_member e v h c m :
  ~ In m (c_markers_ c) ->
  exists h' c',
    Cluster_addMarker e v h c m = (h', c', true)
    /\ c_markers_ c' = c_markers_ c ++ [m]
    /\ cid c' = cid c
    /\ c_map_ c' = c_map_ c
    /\ c_minClusterSize c' = c_minClusterSize c
    /\ c_averageCenter c' = c_averageCenter c
    /\ center_ c' = center_ (Cluster_recenter e v c (getPosition (h m)))
    /\ bounds_ c' = bounds_ (Cluster_recenter e v c (getPosition (h m)))
    /\ (forall k, isAdded (h' k) = if Nat.eqb k m then true else isAdded (h k))
    /\ (forall k, getPosition (h' k) = getPosition (h k)).
Proof.
  intro Hnew. apply existsb_eqb_not_In in Hnew.
  unfold Cluster_addMarker, Cluster_isMarkerAlreadyAdded. rewrite Hnew. cbv zeta.
  set (c1 := Cluster_recenter e v c (getPosition (h m))).
  set (h1 := set_isAdded h m true).
  set (c2 := with_members c1 (c_markers_ c1 ++ [m])).
  set (len := Z.of_nat (length (c_markers_ c2))).
  set (h2 := if (len <? c_minClusterSize c2)%Z
                && map_neq (getMap (h1 m)) (Some (c_map_ c2))
             then setMap h1 m (Some (c_map_ c2)) else h1).
  set (h3 := if (len =? c_minClusterSize c2)%Z
             then setMap_all h2 (c_markers_ c2) None else h2).
  set (h4 := if (len >=? c_minClusterSize c2)%Z then setMap h3 m None else h3).
  destruct (Cluster_updateIcon e v h4 c2) as [h5 c3] eqn:Hup.
  pose proof (updateIcon_cluster e v h4 c2) as Hc. rewrite Hup in Hc. simpl in Hc.
  pose proof (updateIcon_map_only e v h4 c2) as Hm. rewrite Hup in Hm. simpl in Hm.
  destruct Hc as (Hc1 & Hc2 & Hc3 & Hc4 & Hc5 & Hc6 & Hc7).
  pose proof (recenter_cluster e v c (getPosition (h m))) as Hr. simpl in Hr.
  fold c1 in Hr. destruct Hr as (Hr1 & Hr2 & Hr3 & Hr4 & Hr5 & Hr6).
  assert (M14 : map_only h1 h4).
  { apply map_only_trans with h3; [apply map_only_trans with h2|].
    - subst h2. destruct (_ && _); [apply map_only_setMap | apply map_only_refl].
    - subst h3. destruct (_ =? _)%Z; [apply map_only_setMap_all | apply map_only_refl].
    - subst h4. destruct (_ >=? _)%Z; [apply map_only_setMap | apply map_only_refl]. }
  pose proof (map_only_trans _ _ _ M14 Hm) as M15.
  exists h5, c3. repeat split.
  - rewrite Hc1. subst c2. simpl. rewrite Hr1. reflexivity.
  - rewrite Hc4. subst c2. simpl. exact Hr2.
  - rewrite Hc5. subst c2. simpl. exact Hr3.
  - rewrite Hc6. subst c2. simpl. exact Hr4.
  - rewrite Hc7. subst c2. simpl. exact Hr5.
  - rewrite Hc2. subst c2. reflexivity.
  - rewrite Hc3. subst c2. reflexivity.
  - intro k. destruct (M15 k) as [_ ->]. subst h1. apply isAdded_set_isAdded.
  - intro k. destruct (M15 k) as [-> _]. subst h1. apply getPosition_set_isAdded.
Qed.

Lemma addMarker_member e v h c m :
  In m (c_markers_ c) -> Cluster_addMarker e v h c m = (h, c, false).
Proof.
  intro Hin. apply existsb_eqb_In in Hin.
  unfold Cluster_addMarker, Cluster_isMarkerAlreadyAdded. rewrite Hin. reflexivity.
Qed.

Lemma map_neq_false a b : map_neq a b = false -> a = b.
Proof.
  destruct a as [p|], b as [q|]; simpl; try discriminate; try reflexivity.
  rewrite negb_false_iff, Nat.eqb_eq. intros ->. reflexivity.
Qed.

(** The visibility policy of [Cluster.addMarker], for a marker that is not
    yet a member; [n] is the member count after the add. *)
Lemma addMarker_visibility e v h c m :
  ~ In m (c_markers_ c) ->
  forall h' c' r, Cluster_addMarker e v h c m = (h', c', r) ->
  let n := Z.of_nat (length (c_markers_ c ++ [m])) in
  let above := above_maxZoom (maxZoom e) (getZoom v) in
  ((n < c_minClusterSize c)%Z -> getMap (h' m) = Some (c_map_ c))
  /\ (above = false -> (n < c_minClusterSize c)%Z ->
      visible_ (clusterIcon_ c') = false)
  /\ (above = false -> n = c_minClusterSize c ->
      (forall k, In k (c_markers_ c ++ [m]) -> getMap (h' k) = None)
      /\ visible_ (clusterIcon_ c') = true)
  /\ (above = false -> (c_minClusterSize c < n)%Z ->
      getMap (h' m) = None /\ visible_ (clusterIcon_ c') = true)
  /\ (above = false -> (c_minClusterSize c <= n)%Z ->
      center (clusterIcon_ c') = center_ c')
  /\ (above = true ->
      (forall k, In k (c_markers_ c ++ [m]) -> getMap (h' k) = Some (c_map_ c))
      /\ clusterIcon_ c' = clusterIcon_ c).
Proof.
  intros Hnew h' c' r. apply existsb_eqb_not_In in Hnew.
  unfold Cluster_addMarker, Cluster_isMarkerAlreadyAdded. rewrite Hnew. cbv zeta.
  set (c1 := Cluster_recenter e v c (getPosition (h m))).
  set (h1 := set_isAdded h m true).
  set (c2 := with_members c1 (c_markers_ c1 ++ [m])).
  pose proof (recenter_cluster e v c (getPosition (h m))) as Hr. simpl in Hr.
  fold c1 in Hr. destruct Hr as (Hr1 & Hr2 & Hr3 & Hr4 & Hr5 & Hr6).
  assert (E2 : c_markers_ c2 = c_markers_ c ++ [m]) by (subst c2; simpl; congruence).
  assert (Emin : c_minClusterSize c2 = c_minClusterSize c) by (subst c2; simpl; congruence).
  assert (Emap : c_map_ c2 = c_map_ c) by (subst c2; simpl; congruence).
  assert (Eicon : clusterIcon_ c2 = clusterIcon_ c) by (subst c2; simpl; congruence).
  rewrite E2, Emin, Emap.
  set (n := Z.of_nat (length (c_markers_ c ++ [m]))).
  set (h2 := if (n <? c_minClusterSize c)%Z
                && map_neq (getMap (h1 m)) (Some (c_map_ c))
             then setMap h1 m (Some (c_map_ c)) else h1).
  set (h3 := if (n =? c_minClusterSize c)%Z
             then setMap_all h2 (c_markers_ c ++ [m]) None else h2).
  set (h4 := if (n >=? c_minClusterSize c)%Z then setMap h3 m None else h3).
  unfold Cluster_updateIcon. rewrite E2, Emin, Emap. fold n.
  assert (Hm : In m (c_markers_ c ++ [m])) by (apply in_or_app; right; left; reflexivity).
  destruct (above_maxZoom (maxZoom e) (getZoom v)) eqn:Habove.
  - (* above the maximum zoom *)
    intro Heq. injection Heq as <- <- <-. simpl.
    repeat split; try discriminate.
    + intros _. apply getMap_setMap_all_in. exact Hm.
    + intros k Hk. apply getMap_setMap_all_in. exact Hk.
    + exact Eicon.
  - destruct (n <? c_minClusterSize c)%Z eqn:Hlt.
    + (* below the minimum size *)
      apply Z.ltb_lt in Hlt.
      intro Heq. injection Heq as <- <- <-. simpl.
      assert (G : getMap (h4 m) = Some (c_map_ c)).
      { subst h4. replace (n >=? c_minClusterSize c)%Z with false
          by (symmetry; rewrite Z.geb_leb; apply Z.leb_gt; exact Hlt).
        subst h3. replace (n =? c_minClusterSize c)%Z with false
          by (symmetry; apply Z.eqb_neq; lia).
        subst h2. replace (n <? c_minClusterSize c)%Z with true
          by (symmetry; apply Z.ltb_lt; exact Hlt).
        simpl. destruct (map_neq (getMap (h1 m)) (Some (c_map_ c))) eqn:Hneq.
        - apply getMap_setMap_same.
        - apply map_neq_false. exact Hneq. }
      repeat split; try discriminate; intros; try lia; try exact G.
    + apply Z.ltb_ge in Hlt.
      intro Heq. injection Heq as <- <- <-. simpl.
      assert (G : getMap (h4 m) = None).
      { subst h4. replace (n >=? c_minClusterSize c)%Z with true
          by (symmetry; rewrite Z.geb_leb; apply Z.leb_le; exact Hlt).
        apply getMap_setMap_same. }
      repeat split; try discriminate; intros; try lia; try exact G; try reflexivity.
      (* the add that reaches the minimum size *)
      destruct (Nat.eq_dec k m) as [->|Hk]; [exact G|].
      subst h4. replace (n >=? c_minClusterSize c)%Z with true
        by (symmetry; rewrite Z.geb_leb; apply Z.leb_le; exact Hlt).
      rewrite getMap_setMap_other by exact Hk.
      subst h3. replace (n =? c_minClusterSize c)%Z with true
        by (symmetry; apply Z.eqb_eq; assumption).
      apply getMap_setMap_all_in. assumption.
Qed.

(** ** Claims about a single cluster *)

(** C3 (amended).  For a cluster with [minClusterSize = 3]: an add of a
    member returns [false] and changes nothing; an add of a new marker
    returns [true] and appends it; if the count stays below 3 the new marker
    is attached to the map; and, provided the zoom does not exceed a
    configured [maxZoom], the add that reaches 3 detaches all three members
    and shows the icon, and every later add detaches the new marker. *)
Theorem Cluster_addMarker_minimum_three e v h c m :
  c_minClusterSize c = 3%Z ->
  (In m (c_markers_ c) -> Cluster_addMarker e v h c m = (h, c, false))
  /\ (~ In m (c_markers_ c) ->
      exists h' c',
        Cluster_addMarker e v h c m = (h', c', true)
        /\ c_markers_ c' = c_markers_ c ++ [m]
        /\ ((length (c_markers_ c') < 3)%nat -> getMap (h' m) = Some (c_map_ c))
        /\ (above_maxZoom (maxZoom e) (getZoom v) = false ->
            length (c_markers_ c') = 3%nat ->
            (forall k, In k (c_markers_ c') -> getMap (h' k) = None)
            /\ visible_ (clusterIcon_ c') = true)
        /\ (above_maxZoom (maxZoom e) (getZoom v) = false ->
            (3 < length (c_markers_ c'))%nat -> getMap (h' m) = None)).
Proof.
  intro Hmin. split.
  - apply addMarker_member.
  - intro Hnew.
    destruct (addMarker_new_member e v h c m Hnew) as (h' & c' & Hadd & Hms & _).
    exists h', c'. split; [exact Hadd|]. split; [exact Hms|].
    pose proof (addMarker_visibility e v h c m Hnew _ _ _ Hadd) as Hv. simpl in Hv.
    rewrite Hmin in Hv. rewrite Hms.
    destruct Hv as (V1 & _ & V3 & V4 & _).
    split; [|split].
    + intro Hlen. apply V1. lia.
    + intros Hab Hlen. apply V3; [exact Hab | lia].
    + intros Hab Hlen. apply V4; [exact Hab | lia].
Qed.

Lemma Cluster_addMarker_minimum_three_witness :
  exists h' c',
    Cluster_addMarker (Example.clusterer 3 None false) (Example.view 5)
      Example.markers0 (Cluster_new (Example.clusterer 3 None false) 0) 0%nat
    = (h', c', true)
    /\ getMap (h' 0%nat) = Some Example.the_map.
Proof.
  destruct (Cluster_addMarker_minimum_three
              (Example.clusterer 3 None false) (Example.view 5) Example.markers0
              (Cluster_new (Example.clusterer 3 None false) 0) 0%nat eq_refl)
    as [_ H].
  destruct (H (fun F : False => F)) as (h' & c' & Hadd & Hms & Hlow & _).
  exists h', c'. split; [exact Hadd|].
  apply Hlow. rewrite Hms. simpl. lia.
Defined.

(** C3, as stated, fails above the maximum zoom: with [maxZoom = 5] and the
    map at zoom 6, the third add leaves the members attached to the map. *)
Lemma third_add_above_maxZoom_shows_members : ~ third_add_hides_all.
Proof.
  intro H.
  pose (e := Example.clusterer 3 (Some 5%Z) false).
  pose (v := Example.view 6).
  pose (a1 := Cluster_addMarker e v Example.markers0 (Cluster_new e 0) 0%nat).
  pose (a2 := Cluster_addMarker e v (fst (fst a1)) (snd (fst a1)) 1%nat).
  pose (a3 := Cluster_addMarker e v (fst (fst a2)) (snd (fst a2)) 2%nat).
  assert (Hmin : c_minClusterSize (snd (fst a2)) = 3%Z) by (vm_compute; reflexivity).
  assert (Hms : c_markers_ (snd (fst a2)) = [0; 1]%nat) by (vm_compute; reflexivity).
  assert (Hnew : ~ In 2%nat (c_markers_ (snd (fst a2)))).
  { rewrite Hms. simpl. intros [E|[E|[]]]; discriminate. }
  assert (Hlen : length (c_markers_ (snd (fst a2))) = 2%nat) by (rewrite Hms; reflexivity).
  assert (E3 : Cluster_addMarker e v (fst (fst a2)) (snd (fst a2)) 2%nat
               = (fst (fst a3), snd (fst a3), snd a3)).
  { fold a3. destruct a3 as [[h3 c3] r3]. reflexivity. }
  destruct (H _ _ _ _ _ _ _ _ Hmin Hnew Hlen E3) as [_ Hvis].
  vm_compute in Hvis. discriminate Hvis.
Qed.

(** C7 (amended).  Refreshing a cluster's presentation: if a [maxZoom] is
    configured and the zoom exceeds it, every member is attached to the map
    and the icon is left as it was (a hidden icon stays hidden); otherwise,
    if the member count is below [minClusterSize], the icon is hidden; and
    otherwise the icon is placed at the cluster centre and shown. *)
Theorem Cluster_updateIcon_cases e v h c h' c' :
  Cluster_updateIcon e v h c = (h', c') ->
  (forall mz, maxZoom e = Some mz -> mz <> 0%Z -> (mz < getZoom v)%Z ->
     (forall k, In k (c_markers_ c) -> getMap (h' k) = Some (c_map_ c))
     /\ clusterIcon_ c' = clusterIcon_ c
     /\ (visible_ (clusterIcon_ c) = false -> visible_ (clusterIcon_ c') = false))
  /\ (above_maxZoom (maxZoom e) (getZoom v) = false ->
      (Z.of_nat (length (c_markers_ c)) < c_minClusterSize c)%Z ->
      h' = h /\ visible_ (clusterIcon_ c') = false)
  /\ (above_maxZoom (maxZoom e) (getZoom v) = false ->
      (c_minClusterSize c <= Z.of_nat (length (c_markers_ c)))%Z ->
      h' = h /\ center (clusterIcon_ c') = center_ c
      /\ visible_ (clusterIcon_ c') = true).
Proof.
  unfold Cluster_updateIcon. intro Hup. split; [|split].
  - intros mz Hmz Hnz Hgt.
    assert (Hab : above_maxZoom (maxZoom e) (getZoom v) = true)
      by (apply above_maxZoom_true; exists mz; auto).
    rewrite Hab in Hup. injection Hup as <- <-.
    split; [|split].
    + intros k Hk. apply getMap_setMap_all_in. exact Hk.
    + reflexivity.
    + intro Hv. exact Hv.
  - intros Hab Hlt. rewrite Hab in Hup.
    apply Z.ltb_lt in Hlt. rewrite Hlt in Hup. injection Hup as <- <-.
    split; reflexivity.
  - intros Hab Hge. rewrite Hab in Hup.
    apply Z.ltb_ge in Hge. rewrite Hge in Hup. injection Hup as <- <-.
    repeat split; reflexivity.
Qed.

Lemma Cluster_updateIcon_cases_witness :
  getMap (fst (Cluster_updateIcon (Example.clusterer 2 (Some 5%Z) false)
                 (Example.view 6) Example.markers0
                 (with_members (Cluster_new (Example.clusterer 2 (Some 5%Z) false) 0)
                    [0%nat])) 0%nat)
  = Some Example.the_map.
Proof.
  pose proof (Cluster_updateIcon_cases
                (Example.clusterer 2 (Some 5%Z) false) (Example.view 6)
                Example.markers0
                (with_members (Cluster_new (Example.clusterer 2 (Some 5%Z) false) 0)
                   [0%nat])
                _ _ (surjective_pairing _)) as [H _].
  destruct (H 5%Z eq_refl) as [Hall _].
  - discriminate.
  - reflexivity.
  - apply Hall. left. reflexivity.
Defined.

(** C7, as stated, fails for a cluster whose icon is on display: a cluster
    that reached its minimum size at zoom 5 keeps its icon visible when it is
    refreshed at zoom 6, above [maxZoom = 5]. *)
Lemma icon_stays_visible_above_maxZoom : ~ no_icon_above_maxZoom.
Proof.
  intro H.
  set (e := Example.clusterer 1 (Some 5%Z) false).
  set (built := Cluster_addMarker e (Example.view 5) Example.markers0
                  (Cluster_new e 0) 0%nat).
  specialize (H e (Example.view 6) (fst (fst built)) (snd (fst built)) 5%Z eq_refl).
  assert (Hnz : 5%Z <> 0%Z) by discriminate.
  assert (Hgt : (5 < getZoom (Example.view 6))%Z) by reflexivity.
  specialize (H Hnz Hgt). vm_compute in H. discriminate H.
Qed.

(** C5.  In average-centre mode an add of a new marker sets the centre to
    the marker's position when the cluster had no centre, and otherwise to
    [(old * (n - 1) + position) / n] on latitude and longitude, [n] being
    the member count after the add; the catchment bounds are recomputed from
    the new centre.  Markers at (0,0), (0,2), (0,4) added to a new cluster
    give the centres (0,0), (0,1), (0,2), in that order. *)
Theorem Cluster_addMarker_average_center :
  (forall e v h c m,
     c_averageCenter c = true ->
     ~ In m (c_markers_ c) ->
     exists h' c',
       Cluster_addMarker e v h c m = (h', c', true)
       /\ (let n := inject_Z (Z.of_nat (length (c_markers_ c'))) in
           let pos := getPosition (h m) in
           center_ c' =
             Some (match center_ c with
                   | None => pos
                   | Some old =>
                       mkLatLng ((lat old * (n - 1) + lat pos) / n)
                                ((lng old * (n - 1) + lng pos) / n)
                   end))
       /\ bounds_ c' =
            option_map (fun p => getExtendedBounds e v (mkLatLngBounds p p)) (center_ c'))
  /\ (forall e v h id m1 m2 m3,
        averageCenter e = true ->
        m1 <> m2 -> m1 <> m3 -> m2 <> m3 ->
        getPosition (h m1) = mkLatLng 0 0 ->
        getPosition (h m2) = mkLatLng 0 2 ->
        getPosition (h m3) = mkLatLng 0 4 ->
        Forall2 center_is
          (Cluster_centers e v h (Cluster_new e id) [m1; m2; m3])
          [mkLatLng 0 0; mkLatLng 0 1; mkLatLng 0 2]).
Proof.
  assert (General : forall e v h c m,
     c_averageCenter c = true ->
     ~ In m (c_markers_ c) ->
     exists h' c',
       Cluster_addMarker e v h c m = (h', c', true)
       /\ c_markers_ c' = c_markers_ c ++ [m]
       /\ c_averageCenter c' = true
       /\ (forall k, getPosition (h' k) = getPosition (h k))
       /\ center_ c' =
            Some (match center_ c with
                  | None => getPosition (h m)
                  | Some old =>
                      mkLatLng
                        ((lat old * (inject_Z (Z.of_nat (length (c_markers_ c'))) - 1)
                          + lat (getPosition (h m)))
                         / inject_Z (Z.of_nat (length (c_markers_ c'))))
                        ((lng old * (inject_Z (Z.of_nat (length (c_markers_ c'))) - 1)
                          + lng (getPosition (h m)))
                         / inject_Z (Z.of_nat (length (c_markers_ c'))))
                  end)
       /\ bounds_ c' =
            option_map (fun p => getExtendedBounds e v (mkLatLngBounds p p)) (center_ c')).
  { intros e v h c m Havg Hnew.
    destruct (addMarker_new_member e v h c m Hnew)
      as (h' & c' & Hadd & Hms & _ & _ & _ & Havg' & Hcen & Hbnd & _ & Hpos).
    exists h', c'. split; [exact Hadd|]. split; [exact Hms|].
    split; [congruence|]. split; [exact Hpos|].
    assert (Hlen : Z.of_nat (length (c_markers_ c')) = (Z.of_nat (length (c_markers_ c)) + 1)%Z).
    { rewrite Hms, length_app. simpl. lia. }
    rewrite Hbnd, Hcen, Hlen. unfold Cluster_recenter, Cluster_calculateBounds_.
    destruct (center_ c) as [old|]; [rewrite Havg|]; simpl; split; reflexivity. }
  split.
  - intros e v h c m Havg Hnew.
    destruct (General e v h c m Havg Hnew) as (h' & c' & Hadd & _ & _ & _ & Hcen & Hbnd).
    exists h', c'. cbv zeta. auto.
  - intros e v h id m1 m2 m3 Havg H12 H13 H23 P1 P2 P3.
    destruct (General e v h (Cluster_new e id) m1 Havg (fun F : False => F))
      as (h1 & c1 & A1 & M1 & Avg1 & Pos1 & Cen1 & _).
    assert (N2 : ~ In m2 (c_markers_ c1)).
    { rewrite M1. simpl. intros [E|[]]. apply H12. exact E. }
    destruct (General e v h1 c1 m2 Avg1 N2)
      as (h2 & c2 & A2 & M2 & Avg2 & Pos2 & Cen2 & _).
    assert (N3 : ~ In m3 (c_markers_ c2)).
    { rewrite M2, M1. simpl. intros [E|[E|[]]]; [apply H13 | apply H23]; exact E. }
    destruct (General e v h2 c2 m3 Avg2 N3)
      as (h3 & c3 & A3 & M3 & _ & _ & Cen3 & _).
    simpl. rewrite A1, A2, A3.
    rewrite Cen3, Cen2, Cen1, M3, M2, M1, Pos2, !Pos1, P1, P2, P3. simpl.
    repeat constructor; reflexivity.
Qed.

Lemma Cluster_addMarker_average_center_witness :
  Forall2 center_is
    (Cluster_centers (Example.clusterer 2 None true) (Example.view 5) Example.markers0
       (Cluster_new (Example.clusterer 2 None true) 0) [0; 1; 2]%nat)
    [mkLatLng 0 0; mkLatLng 0 1; mkLatLng 0 2].
Proof.
  apply (proj2 Cluster_addMarker_average_center
           (Example.clusterer 2 None true) (Example.view 5) Example.markers0
           0%nat 0%nat 1%nat 2%nat);
    try reflexivity; discriminate.
Defined.

(** ** Claims about the engine's gates *)

(** C8 (amended).  A pass requested while the map surface has no bounds
    leaves the engine state as it was; it is skipped, without an error,
    when [ready] is false, which is the only gate the pass tests. *)
Theorem createClusters_without_bounds w :
  getBounds (surface w) = None ->
  final (fun x => x) (createClusters_ w) = w
  /\ (ready_ (engine w) = false ->
      createClusters_ w = Returns w /\ redraw w = Returns w).
Proof.
  intro Hb. unfold redraw, createClusters_. rewrite Hb.
  destruct (ready_ (engine w)); simpl.
  - split; [reflexivity | discriminate].
  - split; [reflexivity | intros _; split; reflexivity].
Qed.

Lemma createClusters_without_bounds_witness :
  createClusters_
    (mkWorld (Example.clusterer 2 None false) Example.markers0 (Example.view_unlaid 5) 0)
  = Returns
    (mkWorld (Example.clusterer 2 None false) Example.markers0 (Example.view_unlaid 5) 0).
Proof.
  apply (createClusters_without_bounds
           (mkWorld (Example.clusterer 2 None false) Example.markers0
              (Example.view_unlaid 5) 0)); reflexivity.
Defined.

(** C8, as stated, fails once the engine is ready: the pass reads the corners
    of the missing bounds and stops with an error. *)
Lemma ready_pass_without_bounds_throws : ~ pass_skipped_without_bounds.
Proof.
  intro H.
  specialize (H (mkWorld (with_ready (Example.clusterer 2 None false) true)
                   Example.markers0 (Example.view_unlaid 5) 0) eq_refl).
  discriminate H.
Qed.

(** C9.  While [ready] is false a requested pass returns at once with the
    world untouched, whether it is called directly or through [redraw]; and
    [repaint] does what its reset does and nothing more. *)
Theorem createClusters_not_ready w :
  ready_ (engine w) = false ->
  createClusters_ w = Returns w
  /\ redraw w = Returns w
  /\ repaint w = Returns (resetViewport w false).
Proof.
  intro Hr. unfold repaint, redraw, createClusters_. simpl. rewrite Hr. simpl.
  repeat split; reflexivity.
Qed.

Lemma createClusters_not_ready_witness :
  redraw (Example.world 2 None false 5) = Returns (Example.world 2 None false 5).
Proof.
  apply (createClusters_not_ready (Example.world 2 None false 5)). reflexivity.
Defined.

(** ** The constructor's options *)

(** C10.  Each option that the constructor reads through [||] is replaced
    by its default when it is supplied with a falsy value; [zoomOnClick]
    therefore always ends up truthy; in particular [zoomOnClick: false]
    yields [true], [minimumClusterSize: 0] yields 2, [gridSize: 0] yields 60
    and [maxZoom: 0] yields [null], no cap. *)
Theorem constructor_falsy_options_replaced (o : Constructor.Options) :
  (JS.falsy (Constructor.o_gridSize o) = true ->
     Constructor.gridSize (Constructor.MarkerClusterer o) = JS.VNumber 60)
  /\ (JS.falsy (Constructor.o_minimumClusterSize o) = true ->
     Constructor.minClusterSize (Constructor.MarkerClusterer o) = JS.VNumber 2)
  /\ (JS.falsy (Constructor.o_maxZoom o) = true ->
     Constructor.maxZoom (Constructor.MarkerClusterer o) = JS.VNull)
  /\ (JS.falsy (Constructor.o_zoomOnClick o) = true ->
     Constructor.zoomOnClick (Constructor.MarkerClusterer o) = JS.VBool true)
  /\ (JS.falsy (Constructor.o_averageCenter o) = true ->
     Constructor.averageCenter (Constructor.MarkerClusterer o) = JS.VBool false)
  /\ (JS.falsy (Constructor.o_isClusterable o) = true ->
     Constructor.isClusterable (Constructor.MarkerClusterer o)
     = Constructor.default_isClusterable)
  /\ (JS.falsy (Constructor.o_iconGenerator o) = true ->
     Constructor.iconGenerator (Constructor.MarkerClusterer o)
     = Constructor.default_iconGenerator)
  /\ JS.truthy (Constructor.zoomOnClick (Constructor.MarkerClusterer o)) = true
  /\ (Constructor.o_zoomOnClick o = JS.VBool false ->
     Constructor.zoomOnClick (Constructor.MarkerClusterer o) = JS.VBool true)
  /\ (Constructor.o_minimumClusterSize o = JS.VNumber 0 ->
     Constructor.minClusterSize (Constructor.MarkerClusterer o) = JS.VNumber 2)
  /\ (Constructor.o_gridSize o = JS.VNumber 0 ->
     Constructor.gridSize (Constructor.MarkerClusterer o) = JS.VNumber 60)
  /\ (Constructor.o_maxZoom o = JS.VNumber 0 ->
     Constructor.maxZoom (Constructor.MarkerClusterer o) = JS.VNull).
Proof.
  assert (F : forall a b, JS.falsy a = true -> JS.or a b = b).
  { intros a b Ha. unfold JS.falsy in Ha. apply negb_true_iff in Ha.
    unfold JS.or. rewrite Ha. reflexivity. }
  unfold Constructor.MarkerClusterer; simpl.
  repeat match goal with |- _ /\ _ => split end;
    try (intro H; apply F; exact H);
    try (intro H; rewrite H; reflexivity).
  unfold JS.or. destruct (JS.truthy (Constructor.o_zoomOnClick o)) eqn:E;
    [exact E | reflexivity].
Qed.

Lemma constructor_falsy_options_replaced_witness :
  Constructor.zoomOnClick
    (Constructor.MarkerClusterer
       (Constructor.mkOptions (JS.VNumber 0) (JS.VNumber 0) (JS.VNumber 0)
          (JS.VBool false) (JS.VString EmptyString) JS.VNull JS.VUndefined
          JS.VUndefined JS.VUndefined JS.VUndefined))
  = JS.VBool true
  /\ Constructor.gridSize
       (Constructor.MarkerClusterer
          (Constructor.mkOptions (JS.VNumber 0) (JS.VNumber 0) (JS.VNumber 0)
             (JS.VBool false) (JS.VString EmptyString) JS.VNull JS.VUndefined
             JS.VUndefined JS.VUndefined JS.VUndefined))
     = JS.VNumber 60.
Proof.
  pose proof (constructor_falsy_options_replaced
                (Constructor.mkOptions (JS.VNumber 0) (JS.VNumber 0) (JS.VNumber 0)
                   (JS.VBool false) (JS.VString EmptyString) JS.VNull JS.VUndefined
                   JS.VUndefined JS.VUndefined JS.VUndefined))
    as (G & _ & _ & Z & _).
  split; [apply Z | apply G]; reflexivity.
Defined.

(** ** One step of the pass *)

Lemma existsb_eqb_app (k : marker) (l1 l2 : list marker) :
  existsb (Nat.eqb k) (l1 ++ l2) = existsb (Nat.eqb k) l1 || existsb (Nat.eqb k) l2.
Proof. apply existsb_app. Qed.

(** The inner loop adds to the cluster the records' markers that are neither
    claimed nor ineligible, each once, in the order of the records. *)
Lemma absorb_fold e v (flag0 : marker -> bool) : forall nodes h c,
  (forall k, isAdded (h k) = flag0 k || existsb (Nat.eqb k) (c_markers_ c)) ->
  exists h' c',
    fold_left (absorb e v) nodes (h, c) = (h', c')
    /\ c_markers_ c' =
         c_markers_ c ++
         first_occurrences (c_markers_ c)
           (filter (fun k => negb (flag0 k) && isClusterable e k)
                   (map RBush.n_marker nodes))
    /\ cid c' = cid c
    /\ (forall k, isAdded (h' k) = flag0 k || existsb (Nat.eqb k) (c_markers_ c'))
    /\ (forall k, getPosition (h' k) = getPosition (h k)).
Proof.
  induction nodes as [|n nodes IH]; intros h c Hflag.
  - exists h, c. simpl. rewrite app_nil_r. auto.
  - cbn [fold_left map filter]. remember (RBush.n_marker n) as m eqn:Em.
    assert (Habs : absorb e v (h, c) n =
                   if isAdded (h m) then (h, c)
                   else if negb (isClusterable e m) then (h, c)
                   else let '(h', c', _) := Cluster_addMarker e v h c m in (h', c'))
      by (subst m; reflexivity).
    rewrite Habs. clear Habs Em.
    destruct (isAdded (h m)) eqn:Hm.
    + (* already claimed: skipped *)
      destruct (IH h c Hflag) as (h' & c' & Hf & Hms & Hid & Hfl & Hpos).
      exists h', c'. split; [exact Hf|]. split; [|auto].
      rewrite Hms. f_equal.
      rewrite Hflag in Hm.
      destruct (flag0 m) eqn:F0; simpl; [reflexivity|].
      simpl in Hm. destruct (isClusterable e m); simpl; [|reflexivity].
      rewrite Hm. reflexivity.
    + rewrite Hflag in Hm. apply orb_false_iff in Hm. destruct Hm as [F0 Hnot].
      destruct (isClusterable e m) eqn:El; simpl.
      * (* taken *)
        assert (Hnew : ~ In m (c_markers_ c)) by (apply existsb_eqb_not_In; exact Hnot).
        destruct (addMarker_new_member e v h c m Hnew)
          as (h1 & c1 & Hadd & Hms1 & Hid1 & _ & _ & _ & _ & _ & Hfl1 & Hpos1).
        rewrite Hadd.
        assert (Hflag1 : forall k,
                   isAdded (h1 k) = flag0 k || existsb (Nat.eqb k) (c_markers_ c1)).
        { intro k. rewrite Hfl1, Hms1, existsb_eqb_app. simpl.
          destruct (Nat.eqb_spec k m) as [->|Hk].
          - rewrite F0, Hnot. reflexivity.
          - rewrite Hflag, orb_false_r. reflexivity. }
        destruct (IH h1 c1 Hflag1) as (h' & c' & Hf & Hms & Hid & Hfl & Hpos).
        exists h', c'. split; [exact Hf|]. repeat split.
        -- rewrite Hms, Hms1, F0, ?El. simpl. rewrite Hnot, <- app_assoc. reflexivity.
        -- congruence.
        -- exact Hfl.
        -- intro k. rewrite Hpos, Hpos1. reflexivity.
      * (* not eligible: skipped *)
        destruct (IH h c Hflag) as (h' & c' & Hf & Hms & Hid & Hfl & Hpos).
        exists h', c'. split; [exact Hf|]. split; [|auto].
        rewrite Hms, F0, ?El. reflexivity.
Qed.

Lemma createClusters_step_skip mapBounds w m :
  seedable mapBounds w m = false -> createClusters_step mapBounds w m = w.
Proof.
  unfold seedable, createClusters_step. intro H.
  destruct (isAdded (store w m)); [reflexivity|].
  destruct (LatLngBounds_contains mapBounds (getPosition (store w m))); [|reflexivity].
  destruct (isClusterable (engine w) m); [discriminate | reflexivity].
Qed.

(** A seedable marker founds one cluster, appended to the list; its members
    are the marker and what the inner loop takes; the flags of exactly these
    markers are raised. *)
Lemma createClusters_step_seed mapBounds w m :
  seedable mapBounds w m = true ->
  exists c h',
    createClusters_step mapBounds w m
    = mkWorld (with_clusters (engine w) (clusters_ (engine w) ++ [c])) h'
              (surface w) (S (next_cluster w))
    /\ c_markers_ c =
         group_of (fun k => isAdded (store w k)) (isClusterable (engine w))
                  (near_markers w) [] m
    /\ cid c = next_cluster w
    /\ (forall k, isAdded (h' k)
                  = isAdded (store w k) || existsb (Nat.eqb k) (c_markers_ c))
    /\ (forall k, getPosition (h' k) = getPosition (store w k)).
Proof.
  unfold seedable, createClusters_step. intro H.
  apply andb_true_iff in H. destruct H as [H El].
  apply andb_true_iff in H. destruct H as [Hfl Hin].
  apply negb_true_iff in Hfl. rewrite Hfl, Hin, El. cbn [negb]. cbv zeta.
  set (e := engine w). set (v := surface w).
  destruct (addMarker_new_member e v (store w) (Cluster_new e (next_cluster w)) m
              (fun F : False => F))
    as (h1 & c1 & Hadd & Hms1 & Hid1 & _ & _ & _ & _ & _ & Hfl1 & Hpos1).
  rewrite Hadd. simpl in Hms1, Hid1.
  assert (Hflag1 : forall k,
             isAdded (h1 k)
             = isAdded (store w k) || existsb (Nat.eqb k) (c_markers_ c1)).
  { intro k. rewrite Hfl1, Hms1. simpl.
    destruct (Nat.eqb_spec k m) as [->|Hk].
    - rewrite orb_true_r. reflexivity.
    - rewrite !orb_false_r. reflexivity. }
  destruct (absorb_fold e v (fun k => isAdded (store w k))
              (RBush.search
                 (boundsToArray
                    (getExtendedBounds e v
                       (mkLatLngBounds (getPosition (store w m)) (getPosition (store w m)))))
                 (tree_ e))
              h1 c1 Hflag1)
    as (h2 & c2 & Hf & Hms2 & Hid2 & Hfl2 & Hpos2).
  match goal with
  | |- context [fold_left ?f ?l ?a] =>
      replace (fold_left f l a) with (h2, c2) by (symmetry; exact Hf)
  end.
  exists c2, h2. split; [reflexivity|].
  split; [|split; [congruence|split]].
  - rewrite Hms2, Hms1. unfold group_of, near_markers, claimed. simpl.
    f_equal. f_equal. apply filter_ext. intro k. rewrite orb_false_r. reflexivity.
  - exact Hfl2.
  - intro k. rewrite Hpos2, Hpos1. reflexivity.
Qed.

(** ** The whole pass *)

Lemma same_setting_refl w : same_setting w w.
Proof. repeat split; reflexivity. Qed.

Lemma same_setting_trans w1 w2 w3 :
  same_setting w1 w2 -> same_setting w2 w3 -> same_setting w1 w3.
Proof.
  intros (P1 & E1 & S1) (P2 & E2 & S2). repeat split.
  - intro k. rewrite P2, P1. reflexivity.
  - congruence.
  - congruence.
Qed.

Lemma same_setting_fields w w' :
  same_setting w w' ->
  markers_ (engine w') = markers_ (engine w)
  /\ tree_ (engine w') = tree_ (engine w)
  /\ ready_ (engine w') = ready_ (engine w)
  /\ gridSize (engine w') = gridSize (engine w)
  /\ isClusterable (engine w') = isClusterable (engine w).
Proof.
  intros (_ & E & _).
  repeat split;
    [ apply (f_equal markers_) in E | apply (f_equal tree_) in E
    | apply (f_equal ready_) in E | apply (f_equal gridSize) in E
    | apply (f_equal isClusterable) in E ]; exact E.
Qed.

Lemma getExtendedBounds_same_setting w w' b :
  same_setting w w' ->
  getExtendedBounds (engine w') (surface w') b = getExtendedBounds (engine w) (surface w) b.
Proof.
  intro H. destruct (same_setting_fields w w' H) as (_ & _ & _ & G & _).
  destruct H as (_ & _ & S). unfold getExtendedBounds. rewrite G, S. reflexivity.
Qed.

Lemma near_markers_same_setting w w' m :
  same_setting w w' -> near_markers w' m = near_markers w m.
Proof.
  intro H. unfold near_markers.
  rewrite (getExtendedBounds_same_setting w w' _ H).
  destruct (same_setting_fields w w' H) as (_ & T & _).
  destruct H as (P & _). rewrite T, P. reflexivity.
Qed.

Lemma seedable_same_setting mapBounds w w' m :
  same_setting w w' -> isAdded (store w' m) = isAdded (store w m) ->
  seedable mapBounds w' m = seedable mapBounds w m.
Proof.
  intros H F. unfold seedable.
  destruct (same_setting_fields w w' H) as (_ & _ & _ & _ & I).
  destruct H as (P & _). rewrite F, P, I. reflexivity.
Qed.

(** What one step of the outer loop keeps and what it ensures. *)
Lemma createClusters_step_effect mapBounds w m :
  let w' := createClusters_step mapBounds w m in
  same_setting w w' /\ flags_kept w w' /\ seedable mapBounds w' m = false.
Proof.
  destruct (seedable mapBounds w m) eqn:Hs.
  - destruct (createClusters_step_seed mapBounds w m Hs)
      as (c & h' & Hw & Hms & _ & Hfl & Hpos).
    simpl. rewrite Hw. repeat split; simpl.
    + exact Hpos.
    + intros k Hk. rewrite Hfl, Hk. reflexivity.
    + unfold seedable. simpl. rewrite Hfl, Hms. unfold group_of. simpl.
      rewrite Nat.eqb_refl, orb_true_r. reflexivity.
  - simpl. rewrite (createClusters_step_skip mapBounds w m Hs).
    split; [apply same_setting_refl | split; [intros k Hk; exact Hk | exact Hs]].
Qed.

Lemma seedable_false_kept mapBounds w w' k :
  same_setting w w' -> flags_kept w w' ->
  seedable mapBounds w k = false -> seedable mapBounds w' k = false.
Proof.
  intros H F Hs. unfold seedable in *.
  destruct (same_setting_fields w w' H) as (_ & _ & _ & _ & I).
  destruct H as (P & _). rewrite P, I.
  destruct (isAdded (store w k)) eqn:A.
  - rewrite (F k A). reflexivity.
  - simpl in Hs. destruct (isAdded (store w' k)); simpl; [reflexivity | exact Hs].
Qed.

Lemma pass_effect mapBounds : forall ms w,
  let w' := fold_left (createClusters_step mapBounds) ms w in
  same_setting w w' /\ flags_kept w w'
  /\ (forall k, In k ms -> seedable mapBounds w' k = false).
Proof.
  induction ms as [|m ms IH]; intro w; simpl.
  - split; [apply same_setting_refl | split; [intros k Hk; exact Hk | intros k []]].
  - destruct (createClusters_step_effect mapBounds w m) as (S1 & F1 & U1).
    destruct (IH (createClusters_step mapBounds w m)) as (S2 & F2 & U2).
    split; [eapply same_setting_trans; eassumption|].
    split; [intros k Hk; apply F2, F1, Hk|].
    intros k [<-|Hk]; [|apply U2; exact Hk].
    eapply seedable_false_kept; eassumption.
Qed.

Lemma pass_nothing_to_seed mapBounds : forall ms w,
  (forall k, In k ms -> seedable mapBounds w k = false) ->
  fold_left (createClusters_step mapBounds) ms w = w.
Proof.
  induction ms as [|m ms IH]; intros w H; simpl; [reflexivity|].
  rewrite createClusters_step_skip by (apply H; left; reflexivity).
  apply IH. intros k Hk. apply H. right. exact Hk.
Qed.

(** The pass builds the groups of the greedy description, one cluster per
    group, after the clusters that were there. *)
Lemma pass_groups mapBounds w0 : forall ms w taken,
  same_setting w0 w ->
  (forall k, isAdded (store w k) = claimed (fun j => isAdded (store w0 j)) taken k) ->
  let w' := fold_left (createClusters_step mapBounds) ms w in
  exists new,
    clusters_ (engine w') = clusters_ (engine w) ++ new
    /\ map c_markers_ new =
         greedy_groups (fun k => isAdded (store w0 k))
           (fun k => LatLngBounds_contains mapBounds (getPosition (store w0 k)))
           (isClusterable (engine w0)) (near_markers w0) taken ms
    /\ (forall k, isAdded (store w' k)
                  = claimed (fun j => isAdded (store w0 j))
                            (taken ++ concat (map c_markers_ new)) k).
Proof.
  induction ms as [|m ms IH]; intros w taken HS HF; simpl.
  - exists []. rewrite !app_nil_r. auto.
  - assert (Htest : seedable mapBounds w m =
                    negb (claimed (fun j => isAdded (store w0 j)) taken m)
                    && LatLngBounds_contains mapBounds (getPosition (store w0 m))
                    && isClusterable (engine w0) m).
    { unfold seedable.
      destruct (same_setting_fields w0 w HS) as (_ & _ & _ & _ & I).
      destruct HS as (P & _). rewrite HF, P, I. reflexivity. }
    rewrite <- Htest.
    destruct (seedable mapBounds w m) eqn:Hs.
    + destruct (createClusters_step_seed mapBounds w m Hs)
        as (c & h' & Hw & Hms & _ & Hfl & Hpos).
      assert (Hgroup : c_markers_ c =
                group_of (fun k => isAdded (store w0 k)) (isClusterable (engine w0))
                         (near_markers w0) taken m).
      { rewrite Hms. unfold group_of.
        rewrite (near_markers_same_setting w0 w m HS).
        destruct (same_setting_fields w0 w HS) as (_ & _ & _ & _ & I). rewrite I.
        f_equal. f_equal. apply filter_ext. intro k.
        unfold claimed at 1. simpl. rewrite orb_false_r, HF. reflexivity. }
      rewrite Hw.
      set (w1 := mkWorld (with_clusters (engine w) (clusters_ (engine w) ++ [c])) h'
                         (surface w) (S (next_cluster w))).
      assert (HS1 : same_setting w0 w1).
      { apply same_setting_trans with w; [exact HS|].
        repeat split; [exact Hpos]. }
      assert (HF1 : forall k,
                 isAdded (store w1 k)
                 = claimed (fun j => isAdded (store w0 j)) (taken ++ c_markers_ c) k).
      { intro k. simpl. rewrite Hfl, HF. unfold claimed.
        rewrite existsb_eqb_app, orb_assoc. reflexivity. }
      destruct (IH w1 (taken ++ c_markers_ c) HS1 HF1) as (new & Hcl & Hgr & Hfin).
      exists (c :: new). split; [|split].
      * rewrite Hcl. simpl. rewrite <- app_assoc. reflexivity.
      * simpl. rewrite Hgr, Hgroup. reflexivity.
      * intro k. rewrite Hfin. simpl. rewrite app_assoc. reflexivity.
    + rewrite (createClusters_step_skip mapBounds w m Hs).
      apply IH; assumption.
Qed.

(** C1.  A pass run with [ready] true and bounds defined keeps the clusters
    that were there and appends, in registration order, one cluster for each
    tracked marker that is, when it is visited, unclaimed, inside the
    expanded viewport and eligible; that cluster holds the marker and then
    every unclaimed eligible marker the index returns for the marker's
    position expanded by the grid size; the flags raised are those of the
    new members. *)
Theorem createClusters_is_greedy_pass w mb :
  ready_ (engine w) = true ->
  getBounds (surface w) = Some mb ->
  exists w' new,
    createClusters_ w = Returns w'
    /\ clusters_ (engine w') = clusters_ (engine w) ++ new
    /\ map c_markers_ new =
         greedy_groups (fun k => isAdded (store w k))
           (fun k => LatLngBounds_contains
                       (getExtendedBounds (engine w) (surface w) mb)
                       (getPosition (store w k)))
           (isClusterable (engine w)) (near_markers w) [] (markers_ (engine w))
    /\ markers_ (engine w') = markers_ (engine w)
    /\ (forall k, isAdded (store w' k)
                  = isAdded (store w k)
                    || existsb (Nat.eqb k) (concat (map c_markers_ new))).
Proof.
  intros Hr Hb. unfold createClusters_. rewrite Hr, Hb. simpl.
  assert (Hmb : mkLatLngBounds (getSouthWest mb) (getNorthEast mb) = mb)
    by (destruct mb; reflexivity).
  rewrite Hmb.
  set (mapBounds := getExtendedBounds (engine w) (surface w) mb).
  destruct (pass_groups mapBounds w (markers_ (engine w)) w [] (same_setting_refl w))
    as (new & Hcl & Hgr & Hfl).
  { intro k. unfold claimed. simpl. rewrite orb_false_r. reflexivity. }
  destruct (pass_effect mapBounds (markers_ (engine w)) w) as (HS & _).
  exists (fold_left (createClusters_step mapBounds) (markers_ (engine w)) w), new.
  split; [reflexivity|]. split; [exact Hcl|]. split; [exact Hgr|].
  split; [apply (same_setting_fields _ _ HS)|].
  intro k. rewrite Hfl. reflexivity.
Qed.

Lemma createClusters_is_greedy_pass_witness :
  exists w' new,
    createClusters_
      tracked_world
    = Returns w'
    /\ map c_markers_ new = [[0; 1]; [10]]%nat
    /\ clusters_ (engine w') = new.
Proof.
  destruct (createClusters_is_greedy_pass
              tracked_world
              (mkLatLngBounds (mkLatLng (-50) (-50)) (mkLatLng 50 50))
              eq_refl eq_refl)
    as (w' & new & Hrun & Hcl & Hgr & _).
  exists w', new. split; [exact Hrun|]. split; [|exact Hcl].
  rewrite Hgr. vm_compute. reflexivity.
Defined.

(** C4.  A [redraw] that follows a [redraw] with nothing changed in between
    returns the world it was given: no cluster is added, the cluster list
    and its members are the same, and no marker is touched. *)
Theorem redraw_twice w w' :
  redraw w = Returns w' -> redraw w' = Returns w'.
Proof.
  unfold redraw, createClusters_.
  destruct (ready_ (engine w)) eqn:Hr; simpl.
  - destruct (getBounds (surface w)) as [mb|] eqn:Hb; [|discriminate].
    set (mapBounds := getExtendedBounds (engine w) (surface w)
                        (mkLatLngBounds (getSouthWest mb) (getNorthEast mb))).
    intro H. injection H as <-.
    destruct (pass_effect mapBounds (markers_ (engine w)) w) as (HS & _ & HU).
    set (w' := fold_left (createClusters_step mapBounds) (markers_ (engine w)) w) in *.
    destruct (same_setting_fields w w' HS) as (Hm & _ & Hr' & _).
    rewrite Hr', Hr. cbn [negb].
    pose proof (getExtendedBounds_same_setting w w'
                  (mkLatLngBounds (getSouthWest mb) (getNorthEast mb)) HS) as HB.
    fold mapBounds in HB.
    destruct HS as (_ & _ & Sf). rewrite Sf in HB |- *. rewrite Hb, HB, Hm.
    rewrite (pass_nothing_to_seed mapBounds _ w' HU). reflexivity.
  - intro H. injection H as <-. rewrite Hr. reflexivity.
Qed.

Lemma redraw_twice_witness :
  exists w',
    redraw tracked_world
    = Returns w'
    /\ redraw w' = Returns w'.
Proof.
  eexists. split.
  - unfold redraw, createClusters_. simpl. reflexivity.
  - apply (redraw_twice
             tracked_world).
    unfold redraw, createClusters_. simpl. reflexivity.
Defined.

(** ** Removing a marker *)

Lemma node_eqb_refl n : RBush.node_eqb n n = true.
Proof.
  unfold RBush.node_eqb. rewrite !Qeq_bool_refl, Nat.eqb_refl. reflexivity.
Qed.

Lemma node_eqb_marker a b : RBush.node_eqb a b = true -> RBush.n_marker a = RBush.n_marker b.
Proof.
  unfold RBush.node_eqb. intro H. apply andb_true_iff in H. destruct H as [_ H].
  apply Nat.eqb_eq. exact H.
Qed.

Lemma RBush_remove_after_others n : forall p rest,
  (forall k, In k p -> RBush.n_marker k <> RBush.n_marker n) ->
  RBush.remove n (p ++ n :: rest) = p ++ rest.
Proof.
  induction p as [|k p IH]; intros rest Hp; simpl.
  - rewrite node_eqb_refl. reflexivity.
  - destruct (RBush.node_eqb n k) eqn:E.
    + apply node_eqb_marker in E. exfalso. apply (Hp k); [left; reflexivity | congruence].
    + rewrite IH; [reflexivity|]. intros j Hj. apply Hp. right. exact Hj.
Qed.

(** The loop over [all()] removes exactly the records of the marker. *)
Lemma remove_nodes_of_filter m tr :
  remove_nodes_of m tr = filter (fun n => negb (Nat.eqb (RBush.n_marker n) m)) tr.
Proof.
  unfold remove_nodes_of, RBush.all.
  change tr with ([] ++ tr) at 2.
  change (filter (fun n => negb (Nat.eqb (RBush.n_marker n) m)) tr)
    with ([] ++ filter (fun n => negb (Nat.eqb (RBush.n_marker n) m)) tr).
  assert (Hp : forall k : RBush.Node, In k [] -> RBush.n_marker k <> m) by (intros k []).
  revert Hp. generalize (@nil RBush.Node) as p.
  induction tr as [|n s IH]; intros p Hp; simpl.
  - reflexivity.
  - destruct (Nat.eqb_spec (RBush.n_marker n) m) as [E|E]; simpl.
    + rewrite RBush_remove_after_others by (intros k Hk; rewrite E; apply Hp; exact Hk).
      apply IH. exact Hp.
    + change (p ++ n :: s) with (p ++ [n] ++ s). rewrite app_assoc, IH.
      * rewrite <- app_assoc. reflexivity.
      * intros k Hk. apply in_app_or in Hk. destruct Hk as [Hk|[<-|[]]];
          [apply Hp; exact Hk | exact E].
Qed.

Lemma remove_first_NoDup m : forall ms, NoDup ms -> ~ In m (remove_first m ms).
Proof.
  induction ms as [|k ms IH]; intro Hnd; simpl; [intros []|].
  inversion Hnd as [|? ? Hk Hnd']; subst.
  destruct (Nat.eqb_spec k m) as [->|E]; [exact Hk|].
  intros [F|F]; [contradiction | exact (IH Hnd' F)].
Qed.

Lemma createClusters_effect w w' :
  createClusters_ w = Returns w' -> same_setting w w' /\ flags_kept w w'.
Proof.
  unfold createClusters_. destruct (ready_ (engine w)); simpl.
  - destruct (getBounds (surface w)) as [mb|]; [|discriminate].
    intro H. injection H as <-.
    match goal with
    | |- context [fold_left (createClusters_step ?b) ?ms ?x] =>
        destruct (pass_effect b ms x) as (HS & HF & _)
    end.
    split; assumption.
  - intro H. injection H as <-.
    split; [apply same_setting_refl | intros k Hk; exact Hk].
Qed.


(** [removeMarker_] on a tracked marker. *)
Lemma removeMarker__tracked w m :
  In m (markers_ (engine w)) ->
  exists w1,
    removeMarker_ w m = (w1, true)
    /\ markers_ (engine w1) = remove_first m (markers_ (engine w))
    /\ tree_ (engine w1)
       = filter (fun n => negb (Nat.eqb (RBush.n_marker n) m)) (tree_ (engine w))
    /\ ready_ (engine w1) = ready_ (engine w)
    /\ surface w1 = surface w.
Proof.
  intro Hin. apply existsb_eqb_In in Hin.
  unfold removeMarker_. rewrite Hin. simpl.
  eexists. split; [reflexivity|]. simpl.
  repeat split. apply remove_nodes_of_filter.
Qed.



(** Called with [opt_nodraw] set, [removeMarker] on a tracked marker removes
    it all the same and returns [false] (lines 268-274), where the comment
    above it (lines 259-264) promises [true] if the marker was removed. *)
Remark removeMarker_deferred_returns_false w m :
  In m (markers_ (engine w)) ->
  removeMarker w m true = Returns (fst (removeMarker_ w m), false)
  /\ markers_ (engine (fst (removeMarker_ w m))) = remove_first m (markers_ (engine w)).
Proof.
  intro Hin. destruct (removeMarker__tracked w m Hin) as (w1 & E1 & Hms & _).
  unfold removeMarker. rewrite E1. simpl. split; [reflexivity | exact Hms].
Qed.

(** ** The flags and the cluster list *)

Lemma first_occurrences_in : forall ms seen k,
  In k (first_occurrences seen ms) -> In k ms /\ ~ In k seen.
Proof.
  induction ms as [|j ms IH]; intros seen k H; simpl in H; [destruct H|].
  destruct (existsb (Nat.eqb j) seen) eqn:E.
  - destruct (IH seen k H) as [H1 H2]. split; [right; exact H1 | exact H2].
  - destruct H as [<-|H].
    + split; [left; reflexivity | apply existsb_eqb_not_In; exact E].
    + destruct (IH (seen ++ [j]) k H) as [H1 H2].
      split; [right; exact H1|]. intro F. apply H2, in_or_app. left. exact F.
Qed.

Lemma first_occurrences_NoDup : forall ms seen, NoDup (first_occurrences seen ms).
Proof.
  induction ms as [|j ms IH]; intro seen; simpl; [constructor|].
  destruct (existsb (Nat.eqb j) seen); [apply IH|].
  constructor; [|apply IH].
  intro F. apply first_occurrences_in in F. destruct F as [_ F].
  apply F, in_or_app. right. left. reflexivity.
Qed.

Lemma group_of_unclaimed claimed0 elig near taken m :
  claimed claimed0 taken m = false ->
  NoDup (group_of claimed0 elig near taken m)
  /\ forall k, In k (group_of claimed0 elig near taken m) ->
               claimed claimed0 taken k = false.
Proof.
  intro Hm. unfold group_of. split.
  - constructor; [|apply first_occurrences_NoDup].
    intro F. apply first_occurrences_in in F. destruct F as [_ F].
    apply F. left. reflexivity.
  - intros k [<-|Hk]; [exact Hm|].
    apply first_occurrences_in in Hk. destruct Hk as [Hk _].
    apply filter_In in Hk. destruct Hk as [_ Hk].
    apply andb_true_iff in Hk. destruct Hk as [Hk _].
    apply negb_true_iff in Hk. exact Hk.
Qed.

Lemma NoDup_app_disjoint (l1 l2 : list marker) a :
  NoDup (l1 ++ l2) -> In a l1 -> ~ In a l2.
Proof.
  induction l1 as [|b l1 IH]; intros Hnd Hin; [destruct Hin|].
  simpl in Hnd. inversion Hnd as [|? ? Hb Hnd']; subst.
  destruct Hin as [->|Hin].
  - intro F. apply Hb, in_or_app. right. exact F.
  - apply IH; assumption.
Qed.

Lemma holding_none m : forall cs,
  ~ In m (flat_map c_markers_ cs) ->
  filter (fun c => Cluster_isMarkerAlreadyAdded c m) cs = [].
Proof.
  induction cs as [|c cs IH]; intro H; simpl; [reflexivity|].
  simpl in H. unfold Cluster_isMarkerAlreadyAdded at 1.
  destruct (existsb (Nat.eqb m) (c_markers_ c)) eqn:E.
  - exfalso. apply H, in_or_app. left. apply existsb_eqb_In. exact E.
  - apply IH. intro F. apply H, in_or_app. right. exact F.
Qed.

Lemma holding_one m : forall cs,
  NoDup (flat_map c_markers_ cs) -> In m (flat_map c_markers_ cs) ->
  length (filter (fun c => Cluster_isMarkerAlreadyAdded c m) cs) = 1%nat.
Proof.
  induction cs as [|c cs IH]; intros Hnd Hin; simpl in *; [destruct Hin|].
  unfold Cluster_isMarkerAlreadyAdded at 1.
  destruct (existsb (Nat.eqb m) (c_markers_ c)) eqn:E.
  - apply existsb_eqb_In in E. simpl.
    rewrite holding_none; [reflexivity|].
    eapply NoDup_app_disjoint; eassumption.
  - apply existsb_eqb_not_In in E. apply IH.
    + eapply NoDup_app_remove_l. exact Hnd.
    + apply in_app_or in Hin. destruct Hin as [F|F]; [contradiction | exact F].
Qed.

(** [consistent] looks at the cluster list, the tracked list and the flags. *)
Lemma consistent_by w w' :
  clusters_ (engine w') = clusters_ (engine w) ->
  (forall k, In k (markers_ (engine w')) -> In k (markers_ (engine w))) ->
  (forall k, isAdded (store w' k) = isAdded (store w k)) ->
  consistent w -> consistent w'.
Proof.
  intros Hc Hm Hf (I1 & I2 & I3). unfold consistent, members in *. rewrite Hc.
  repeat split.
  - exact I1.
  - intros k Hk. rewrite Hf. apply I2. exact Hk.
  - intros k Hk Hfl. rewrite Hf in Hfl. apply I3; [apply Hm; exact Hk | exact Hfl].
Qed.

Lemma createClusters_step_consistent mapBounds w m :
  consistent w -> consistent (createClusters_step mapBounds w m).
Proof.
  intros (I1 & I2 & I3).
  destruct (seedable mapBounds w m) eqn:Hs;
    [|rewrite createClusters_step_skip by exact Hs; repeat split; assumption].
  destruct (createClusters_step_seed mapBounds w m Hs)
    as (c & h' & Hw & Hms & _ & Hfl & _).
  assert (Hm : claimed (fun k => isAdded (store w k)) [] m = false).
  { unfold seedable in Hs. unfold claimed. simpl. rewrite orb_false_r.
    destruct (isAdded (store w m)); [discriminate Hs | reflexivity]. }
  destruct (group_of_unclaimed (fun k => isAdded (store w k))
              (isClusterable (engine w)) (near_markers w) [] m Hm) as [Gnd Gun].
  rewrite <- Hms in Gnd, Gun.
  assert (Hmem : members (createClusters_step mapBounds w m) = members w ++ c_markers_ c).
  { rewrite Hw. unfold members. simpl. rewrite flat_map_app. simpl.
    rewrite app_nil_r. reflexivity. }
  unfold consistent. rewrite Hmem. rewrite Hw. simpl.
  repeat split.
  - apply NoDup_app; [exact I1 | exact Gnd |].
    intros a Ha Hc. specialize (Gun a Hc). unfold claimed in Gun. simpl in Gun.
    rewrite orb_false_r, (I2 a Ha) in Gun. discriminate Gun.
  - intros k Hk. rewrite Hfl. apply in_app_or in Hk. destruct Hk as [Hk|Hk].
    + rewrite (I2 k Hk). reflexivity.
    + apply existsb_eqb_In in Hk. rewrite Hk. apply orb_true_r.
  - intros k Hk Hflag. rewrite Hfl in Hflag. apply in_or_app.
    apply orb_true_iff in Hflag. destruct Hflag as [F|F].
    + left. apply I3; assumption.
    + right. apply existsb_eqb_In. exact F.
Qed.

Lemma createClusters_consistent w :
  consistent w -> consistent (final (fun x => x) (createClusters_ w)).
Proof.
  intro H. unfold createClusters_.
  destruct (ready_ (engine w)); simpl; [|exact H].
  destruct (getBounds (surface w)) as [mb|]; simpl; [|exact H].
  match goal with
  | |- context [fold_left (createClusters_step ?b) ?ms ?x] =>
      generalize b; generalize ms
  end.
  intros ms b. revert w H.
  induction ms as [|m ms IH]; intros w H; simpl; [exact H|].
  apply IH. apply createClusters_step_consistent. exact H.
Qed.

Lemma pushMarkerTo_consistent w m :
  ~ In m (members w) -> consistent w ->
  consistent (pushMarkerTo_ w m) /\ members (pushMarkerTo_ w m) = members w.
Proof.
  intros Hm (I1 & I2 & I3). split; [|reflexivity].
  unfold consistent, pushMarkerTo_, members in *. simpl.
  repeat split.
  - exact I1.
  - intros k Hk. rewrite isAdded_set_isAdded.
    destruct (Nat.eqb_spec k m) as [->|_]; [contradiction | apply I2; exact Hk].
  - intros k Hk Hfl. rewrite isAdded_set_isAdded in Hfl.
    destruct (Nat.eqb_spec k m) as [->|Hne]; [discriminate|].
    apply in_app_or in Hk. destruct Hk as [Hk|[Hk|[]]].
    + apply I3; assumption.
    + exfalso. apply Hne. symmetry. exact Hk.
Qed.

Lemma pushMarkers_consistent : forall ms w,
  (forall m, In m ms -> ~ In m (members w)) -> consistent w ->
  consistent (fold_left pushMarkerTo_ ms w).
Proof.
  induction ms as [|m ms IH]; intros w Hms H; simpl; [exact H|].
  destruct (pushMarkerTo_consistent w m (Hms m (or_introl eq_refl)) H) as [H1 E1].
  apply IH; [|exact H1].
  intros k Hk. rewrite E1. apply Hms. right. exact Hk.
Qed.

Lemma with_tree_consistent w tr :
  consistent w -> consistent (with_engine w (with_tree (engine w) tr)).
Proof. apply consistent_by; simpl; auto. Qed.

Lemma reset_flags (reset : bool) : forall (ms : list marker) (h : Store) (k : marker),
  isAdded
    (fold_left
       (fun (h : Store) (m : marker) =>
          let h1 := set_isAdded h m false in
          if reset then setMap h1 m None else h1) ms h k)
  = if existsb (Nat.eqb k) ms then false else isAdded (h k).
Proof.
  induction ms as [|m ms IH]; intros h k; simpl; [reflexivity|].
  rewrite IH.
  destruct (existsb (Nat.eqb k) ms); [rewrite orb_true_r; reflexivity|].
  rewrite orb_false_r.
  assert (E : isAdded ((if reset then setMap (set_isAdded h m false) m None
                        else set_isAdded h m false) k)
              = isAdded (set_isAdded h m false k)).
  { destruct reset; [apply map_only_setMap | reflexivity]. }
  rewrite E, isAdded_set_isAdded. reflexivity.
Qed.

Lemma resetViewport_consistent w reset : consistent (resetViewport w reset).
Proof.
  unfold consistent, resetViewport, members. simpl. repeat split.
  - constructor.
  - intros k [].
  - intros k Hk Hfl. rewrite reset_flags in Hfl.
    apply existsb_eqb_In in Hk. rewrite Hk in Hfl. discriminate Hfl.
Qed.

Lemma remove_first_In m : forall ms k, In k (remove_first m ms) -> In k ms.
Proof.
  induction ms as [|j ms IH]; intros k H; simpl in H; [destruct H|].
  destruct (Nat.eqb j m); [right; exact H|].
  destruct H as [<-|H]; [left; reflexivity | right; apply IH; exact H].
Qed.

Lemma removeMarker__consistent w m :
  consistent w -> consistent (fst (removeMarker_ w m)).
Proof.
  unfold removeMarker_.
  destruct (existsb (Nat.eqb m) (markers_ (engine w))); simpl; [|auto].
  apply consistent_by; simpl.
  - reflexivity.
  - apply remove_first_In.
  - intro k. apply map_only_setMap.
Qed.

(** Whatever array it is given, the loop of [removeMarkers] amounts to
    [removeMarker_] on a series of markers: those it visits. *)
Lemma removeMarkers_engine_array_visits : forall (fuel i : nat) (acc : World * bool),
  exists ms,
    removeMarkers_engine_array fuel i acc
    = fold_left
        (fun (acc : World * bool) (m : marker) =>
           let '(w', removed) := acc in
           let '(w'', r) := removeMarker_ w' m in
           (w'', removed || r))
        ms acc.
Proof.
  induction fuel as [|fuel IH]; intros i acc; simpl.
  - exists []. reflexivity.
  - destruct (nth_error (markers_ (engine (fst acc))) i) as [m|].
    + match goal with
      | |- context [removeMarkers_engine_array fuel (S i) ?a] =>
          destruct (IH (S i) a) as [ms E]
      end.
      exists (m :: ms). rewrite E. reflexivity.
    + exists []. reflexivity.
Qed.

Lemma removeMarkers_loop_visits (w : World) (markers : marker_array) :
  exists ms,
    removeMarkers_loop w markers
    = fold_left
        (fun (acc : World * bool) (m : marker) =>
           let '(w', removed) := acc in
           let '(w'', r) := removeMarker_ w' m in
           (w'', removed || r))
        ms (w, false).
Proof.
  destruct markers as [ms|]; simpl.
  - exists ms. reflexivity.
  - apply removeMarkers_engine_array_visits.
Qed.

Lemma removeMarkers_loop_consistent : forall (ms : list marker) (w : World) (b : bool),
  consistent w ->
  consistent
    (fst (fold_left
            (fun (acc : World * bool) (m : marker) =>
               let '(w', removed) := acc in
               let '(w'', r) := removeMarker_ w' m in
               (w'', removed || r))
            ms (w, b))).
Proof.
  induction ms as [|m ms IH]; intros w b H; simpl; [exact H|].
  destruct (removeMarker_ w m) as [w1 r] eqn:E.
  apply IH. change w1 with (fst (w1, r)). rewrite <- E.
  apply removeMarker__consistent. exact H.
Qed.

Lemma redraw_after_reset_consistent (w : World) (b : bool) :
  consistent
    (final fst (let* w2 := redraw (resetViewport w false) in Returns (w2, b))).
Proof.
  pose proof (createClusters_consistent (resetViewport w false)
                (resetViewport_consistent w false)) as H.
  unfold redraw. destruct (createClusters_ (resetViewport w false)); exact H.
Qed.

Lemma perform_consistent w c :
  consistent w -> admissible w c -> consistent (perform w c).
Proof.
  intros H Hadm. destruct c; simpl in *.
  - (* addMarker *)
    unfold addMarker. destruct (pushMarkerTo_consistent w m Hadm H) as [H1 _].
    pose proof (with_tree_consistent (pushMarkerTo_ w m)
                  (RBush.insert (getMarkerNode (store (pushMarkerTo_ w m)) m)
                     (tree_ (engine (pushMarkerTo_ w m)))) H1) as H2.
    destruct nodraw; simpl; [exact H2 | apply createClusters_consistent; exact H2].
  - (* addMarkers *)
    unfold addMarkers. pose proof (pushMarkers_consistent ms w Hadm H) as H1.
    pose proof (with_tree_consistent (fold_left pushMarkerTo_ ms w)
                  (RBush.load (map (getMarkerNode (store (fold_left pushMarkerTo_ ms w))) ms)
                     (tree_ (engine (fold_left pushMarkerTo_ ms w)))) H1) as H2.
    destruct nodraw; simpl; [exact H2 | apply createClusters_consistent; exact H2].
  - (* removeMarker *)
    unfold removeMarker. pose proof (removeMarker__consistent w m H) as H1.
    destruct (removeMarker_ w m) as [w1 removed]. simpl in H1.
    destruct (negb opt_nodraw && removed); [apply redraw_after_reset_consistent | exact H1].
  - (* removeMarkers *)
    unfold removeMarkers.
    destruct (removeMarkers_loop_visits w markers) as [ms Ems]. rewrite Ems.
    pose proof (removeMarkers_loop_consistent ms w false H) as H1.
    destruct (fold_left _ ms (w, false)) as [w1 removed]. simpl in H1.
    destruct (negb nodraw && removed); [apply redraw_after_reset_consistent | exact H1].
  - apply createClusters_consistent. exact H.
  - apply createClusters_consistent, resetViewport_consistent.
  - apply resetViewport_consistent.
  - destruct Hadm.
  - (* clearMarkers *)
    unfold clearMarkers.
    assert (H2 : consistent
                   (with_engine (resetViewport w true)
                      (with_tree (with_markers (engine (resetViewport w true)) [])
                         (RBush.clear (tree_ (engine (resetViewport w true))))))).
    { unfold consistent, members. simpl. repeat split; [constructor | intros k [] | intros k []]. }
    destruct nodraw; simpl; [exact H2 | apply createClusters_consistent; exact H2].
  - (* onAdd *)
    unfold onAdd, setReady_. destruct (ready_ (engine w)); simpl; [exact H|].
    apply createClusters_consistent. revert H. apply consistent_by; simpl; auto.
  - revert H. apply consistent_by; simpl; auto.
Qed.

Lemma reachable_consistent w : reachable admissible w -> consistent w.
Proof.
  induction 1 as [w (Hm & Hc & _)|w c _ IH Hadm].
  - unfold consistent, members. rewrite Hc, Hm. simpl.
    repeat split; [constructor | intros k [] | intros k []].
  - apply perform_consistent; assumption.
Qed.

(** C2 (amended).  In every state reached from a new engine by calls other
    than [removeCluster], in which no marker is added while an active
    cluster still holds it, every tracked marker whose flag is raised is a
    member of exactly one active cluster; and when a pass has run, every
    tracked marker whose flag is still down is outside the expanded viewport
    of that pass or not eligible. *)
Theorem reachable_clustered_once :
  (forall w, reachable admissible w ->
     forall m, In m (markers_ (engine w)) -> isAdded (store w m) = true ->
               clusters_holding w m = 1%nat)
  /\ (forall w w' mb,
        ready_ (engine w) = true ->
        getBounds (surface w) = Some mb ->
        createClusters_ w = Returns w' ->
        forall m, In m (markers_ (engine w')) -> isAdded (store w' m) = false ->
          LatLngBounds_contains (getExtendedBounds (engine w) (surface w) mb)
            (getPosition (store w' m)) = false
          \/ isClusterable (engine w') m = false).
Proof.
  split.
  - intros w Hreach m Hm Hfl.
    destruct (reachable_consistent w Hreach) as (I1 & _ & I3).
    unfold clusters_holding. apply holding_one; [exact I1 | apply I3; assumption].
  - intros w w' mb Hr Hb Hrun m Hm Hfl.
    unfold createClusters_ in Hrun. rewrite Hr, Hb in Hrun. simpl in Hrun.
    assert (Hmb : mkLatLngBounds (getSouthWest mb) (getNorthEast mb) = mb)
      by (destruct mb; reflexivity).
    rewrite Hmb in Hrun. injection Hrun as <-.
    set (mapBounds := getExtendedBounds (engine w) (surface w) mb) in *.
    destruct (pass_effect mapBounds (markers_ (engine w)) w) as (HS & _ & HU).
    set (w' := fold_left (createClusters_step mapBounds) (markers_ (engine w)) w) in *.
    destruct (same_setting_fields w w' HS) as (Em & _).
    rewrite Em in Hm. specialize (HU m Hm). unfold seedable in HU.
    rewrite Hfl in HU. simpl in HU.
    apply andb_false_iff in HU. exact HU.
Qed.

Lemma reachable_clustered_once_witness :
  clusters_holding
    (perform (perform (Example.world 2 None false 5) OnAdd)
             (AddMarkers [0; 1; 10]%nat false))
    1%nat = 1%nat.
Proof.
  apply (proj1 reachable_clustered_once).
  - apply reachable_call; [apply reachable_call; [apply reachable_initial|]|].
    + repeat split; reflexivity.
    + exact I.
    + simpl. intros m _ F. exact F.
  - vm_compute. right. left. reflexivity.
  - vm_compute. reflexivity.
Defined.

(** C2, as stated, fails after [removeCluster]: the cluster is taken off the
    list and its member keeps its flag, so the marker is flagged and held by
    no cluster. *)
Lemma removeCluster_leaves_flag_raised : ~ clustered_once_whatever_the_calls.
Proof.
  intro H.
  pose (w := perform (perform (perform (Example.world 2 None false 5) OnAdd)
                        (AddMarker 0%nat false))
                     (RemoveCluster 0)).
  assert (Hreach : reachable any_call w).
  { repeat apply reachable_call; try exact I.
    apply reachable_initial. repeat split; reflexivity. }
  assert (Hm : In 0%nat (markers_ (engine w))) by (vm_compute; left; reflexivity).
  assert (Hfl : isAdded (store w 0%nat) = true) by (vm_compute; reflexivity).
  specialize (H w Hreach 0%nat Hm Hfl). vm_compute in H. discriminate H.
Qed.

(** Adding a marker again while its cluster is active puts it into a second
    cluster. *)
Remark second_add_makes_second_cluster :
  clusters_holding
    (perform (perform (perform (Example.world 2 None false 5) OnAdd)
                (AddMarker 0%nat false))
             (AddMarker 0%nat false))
    0%nat = 2%nat.
Proof. vm_compute. reflexivity. Qed.

(** A marker the caller's predicate rejects is visited by the pass, lies in
    the viewport, and keeps its flag down. *)
Remark ineligible_marker_is_left_unflagged :
  let e := mkClusterer Example.the_map [0; 1]%nat [] true
             (map (getMarkerNode Example.markers0) [0; 1]%nat)
             60 2 None true false (fun m => negb (Nat.eqb m 1)) in
  let w' := final (fun x => x)
              (createClusters_ (mkWorld e Example.markers0 (Example.view 5) 0)) in
  In 1%nat (markers_ (engine w'))
  /\ isAdded (store w' 1%nat) = false
  /\ LatLngBounds_contains
       (getExtendedBounds e (Example.view 5)
          (mkLatLngBounds (mkLatLng (-50) (-50)) (mkLatLng 50 50)))
       (getPosition (store w' 1%nat)) = true
  /\ map c_markers_ (clusters_ (engine w')) = [[0%nat]].
Proof. vm_compute. repeat split. right. left. reflexivity. Qed.

(** * Further properties *)

(** ** The icon's anchor *)

(** X1.  With a width and a height configured, each named anchor moves the
    icon by its share of the width and the height, except [TOP_LEFT]: its
    value is 0, which the icon takes for a missing anchor, so it is placed
    as [CENTER] is. *)
Theorem anchor_offsets (projection : LatLng -> Point) (w h : Q) (a : Z) (dx dy : Q)
  (latlng : LatLng) :
  ~ w == 0 -> ~ h == 0 ->
  In (a, (dx, dy)) Icon.offsets ->
  let pos :=
    Icon.getPosFromLatLng_ projection
      (Icon.Cluster_icon_box (Icon.mkSizing (Some w) (Some h) (Some a))) latlng in
  pt_x pos == pt_x (projection latlng) - dx * w
  /\ pt_y pos == pt_y (projection latlng) - dy * h.
Proof.
  intros Hw Hh Hin.
  assert (Ew : Qeq_bool w 0 = false).
  { destruct (Qeq_bool w 0) eqn:E; [|reflexivity].
    apply Qeq_bool_iff in E. contradiction. }
  assert (Eh : Qeq_bool h 0 = false).
  { destruct (Qeq_bool h 0) eqn:E; [|reflexivity].
    apply Qeq_bool_iff in E. contradiction. }
  unfold Icon.offsets in Hin. simpl in Hin.
  repeat (destruct Hin as [Hin|Hin];
          [injection Hin as <- <- <-;
           unfold Icon.getPosFromLatLng_, Icon.Cluster_icon_box, Icon.truthy_number;
           cbn [Icon.clusterWidth Icon.clusterHeight Icon.anchor];
           rewrite Ew, Eh; cbn [negb andb Icon.box_anchor Icon.width Icon.height];
           vm_compute Icon.truthy_anchor;
           cbn [Icon.box_anchor Icon.width Icon.height];
           rewrite ?Ew, ?Eh; cbn [negb];
           vm_compute Icon.has_bit; cbn [pt_x pt_y];
           split; field |]).
  destruct Hin.
Qed.

Lemma anchor_offsets_witness :
  pt_x (Icon.getPosFromLatLng_ Example.toPixel
          (Icon.Cluster_icon_box (Icon.mkSizing (Some 40) (Some 20) (Some Icon.TOP_LEFT)))
          (mkLatLng 0 0))
  == pt_x (Example.toPixel (mkLatLng 0 0)) - (1 # 2) * 40.
Proof.
  apply (anchor_offsets Example.toPixel 40 20 Icon.TOP_LEFT (1 # 2) (1 # 2)
           (mkLatLng 0 0)).
  - discriminate.
  - discriminate.
  - left. reflexivity.
Defined.

(** ** The map listeners *)

(** X2.  The [zoom_changed] listener never lowers [zoomChanged]: after any
    series of zoom notifications the flag is up exactly when it was up
    before or one of the zoom levels was not 0; from then on every [idle]
    notification repaints instead of redrawing. *)
Theorem zoomChanged_is_never_reset (zooms : list Z) (flag : bool) (w : World) :
  fold_left zoom_changed_listener zooms flag
  = flag || existsb (fun z => negb (z =? 0)%Z) zooms
  /\ (flag || existsb (fun z => negb (z =? 0)%Z) zooms = true ->
      idle_listener (fold_left zoom_changed_listener zooms flag) w = repaint w).
Proof.
  assert (E : fold_left zoom_changed_listener zooms flag
              = flag || existsb (fun z => negb (z =? 0)%Z) zooms).
  { revert flag. induction zooms as [|z zooms IH]; intro flag; simpl.
    - rewrite orb_false_r. reflexivity.
    - rewrite IH. unfold zoom_changed_listener, number_neq_boolean.
      destruct flag; simpl.
      + destruct (z =? 1)%Z; reflexivity.
      + destruct (z =? 0)%Z; reflexivity. }
  split; [exact E|].
  intro H. rewrite E, H. reflexivity.
Qed.

Lemma zoomChanged_is_never_reset_witness :
  idle_listener (fold_left zoom_changed_listener [5; 5; 5]%Z false) tracked_world
  = repaint tracked_world.
Proof.
  apply (zoomChanged_is_never_reset [5; 5; 5]%Z false tracked_world). reflexivity.
Defined.

(** ** What the calls keep *)

Lemma createClusters_final_setting w :
  same_setting w (final (fun x => x) (createClusters_ w)).
Proof.
  destruct (createClusters_ w) as [w'|w'] eqn:E; simpl.
  - apply (createClusters_effect w w' E).
  - unfold createClusters_ in E. destruct (negb (ready_ (engine w))); [discriminate|].
    destruct (getBounds (surface w)); [discriminate|].
    injection E as <-. apply same_setting_refl.
Qed.

Lemma same_setting_config w w' :
  same_setting w w' ->
  config (engine w') = config (engine w) /\ ready_ (engine w') = ready_ (engine w).
Proof.
  intros (_ & E & _). split.
  - apply (f_equal config) in E. exact E.
  - apply (f_equal ready_) in E. exact E.
Qed.

Lemma removeMarker__engine w m :
  let w' := fst (removeMarker_ w m) in
  config (engine w') = config (engine w)
  /\ ready_ (engine w') = ready_ (engine w)
  /\ clusters_ (engine w') = clusters_ (engine w)
  /\ surface w' = surface w
  /\ next_cluster w' = next_cluster w.
Proof.
  unfold removeMarker_. destruct (negb (existsb (Nat.eqb m) (markers_ (engine w))));
    simpl; repeat split; reflexivity.
Qed.

Lemma removeMarkers_loop_engine : forall (ms : list marker) (w : World) (b : bool),
  let w' :=
    fst (fold_left
           (fun (acc : World * bool) (m : marker) =>
              let '(w', removed) := acc in
              let '(w'', r) := removeMarker_ w' m in
              (w'', removed || r))
           ms (w, b)) in
  config (engine w') = config (engine w)
  /\ ready_ (engine w') = ready_ (engine w)
  /\ clusters_ (engine w') = clusters_ (engine w)
  /\ surface w' = surface w
  /\ next_cluster w' = next_cluster w.
Proof.
  induction ms as [|m ms IH]; intros w b; simpl; [repeat split; reflexivity|].
  pose proof (removeMarker__engine w m) as H. simpl in H.
  destruct (removeMarker_ w m) as [w1 r]. simpl in H.
  destruct H as (H1 & H2 & H3 & H4 & H5).
  destruct (IH w1 (b || r)) as (I1 & I2 & I3 & I4 & I5).
  repeat split; congruence.
Qed.

Lemma pushMarkers_engine : forall (ms : list marker) (w : World),
  let w' := fold_left pushMarkerTo_ ms w in
  config (engine w') = config (engine w)
  /\ ready_ (engine w') = ready_ (engine w)
  /\ clusters_ (engine w') = clusters_ (engine w)
  /\ markers_ (engine w') = markers_ (engine w) ++ ms
  /\ tree_ (engine w') = tree_ (engine w)
  /\ surface w' = surface w
  /\ next_cluster w' = next_cluster w
  /\ (forall k, getPosition (store w' k) = getPosition (store w k)).
Proof.
  induction ms as [|m ms IH]; intro w; simpl.
  - rewrite app_nil_r. repeat split; reflexivity.
  - destruct (IH (pushMarkerTo_ w m)) as (I1 & I2 & I3 & I4 & I5 & I6 & I7 & I8).
    repeat split; try assumption.
    + rewrite I4. simpl. rewrite <- app_assoc. reflexivity.
    + intro k. rewrite I8. simpl. apply getPosition_set_isAdded.
Qed.

Lemma perform_config_ready w c :
  config (engine (perform w c)) = config (engine w)
  /\ ready_ (engine (perform w c)) = ready_ (engine w) || is_OnAdd c.
Proof.
  assert (Pass : forall x,
             config (engine (final (fun y => y) (createClusters_ x))) = config (engine x)
             /\ ready_ (engine (final (fun y => y) (createClusters_ x)))
                = ready_ (engine x)).
  { intro x. apply same_setting_config, createClusters_final_setting. }
  assert (After : forall (x : World) (b : bool),
             config (engine (final fst (let* w2 := redraw (resetViewport x false)
                                        in Returns (w2, b))))
             = config (engine x)
             /\ ready_ (engine (final fst (let* w2 := redraw (resetViewport x false)
                                           in Returns (w2, b))))
                = ready_ (engine x)).
  { intros x b. destruct (Pass (resetViewport x false)) as [P1 P2].
    unfold redraw. destruct (createClusters_ (resetViewport x false)); simpl in *;
      split; assumption. }
  destruct c; simpl; rewrite ?orb_false_r.
  - unfold addMarker. destruct nodraw; simpl; [split; reflexivity|].
    unfold redraw.
    match goal with |- context [createClusters_ ?x] => destruct (Pass x) as [P1 P2] end.
    rewrite P1, P2. split; reflexivity.
  - unfold addMarkers.
    destruct (pushMarkers_engine ms w) as (I1 & I2 & _).
    destruct nodraw; simpl; [split; assumption|].
    unfold redraw.
    match goal with |- context [createClusters_ ?x] => destruct (Pass x) as [P1 P2] end.
    rewrite P1, P2. split; assumption.
  - unfold removeMarker. pose proof (removeMarker__engine w m) as H. simpl in H.
    destruct (removeMarker_ w m) as [w1 removed]. simpl in H.
    destruct H as (H1 & H2 & _).
    destruct (negb opt_nodraw && removed); simpl; [|split; assumption].
    destruct (After w1 true) as [A1 A2]. split; congruence.
  - unfold removeMarkers.
    destruct (removeMarkers_loop_visits w markers) as [ms Ems]. rewrite Ems.
    pose proof (removeMarkers_loop_engine ms w false) as H.
    simpl in H. destruct (fold_left _ ms (w, false)) as [w1 removed]. simpl in H.
    destruct H as (H1 & H2 & _).
    destruct (negb nodraw && removed); simpl; [|split; assumption].
    destruct (After w1 true) as [A1 A2]. split; congruence.
  - apply Pass.
  - destruct (Pass (resetViewport w false)) as [P1 P2]. split; assumption.
  - split; reflexivity.
  - split; reflexivity.
  - unfold clearMarkers. destruct nodraw; simpl; [split; reflexivity|].
    unfold redraw.
    match goal with |- context [createClusters_ ?x] => destruct (Pass x) as [P1 P2] end.
    rewrite P1, P2. split; reflexivity.
  - unfold onAdd, setReady_. destruct (ready_ (engine w)) eqn:R; simpl.
    + rewrite R. split; reflexivity.
    + destruct (Pass (with_engine w (with_ready (engine w) true))) as [P1 P2].
      rewrite P1, P2. split; reflexivity.
  - split; reflexivity.
Qed.

(** X3.  No call changes the map or the options of an engine, and [ready]
    goes up with [onAdd] and never comes down. *)
Theorem calls_keep_config_and_ready (w : World) (c : call) :
  config (engine (perform w c)) = config (engine w)
  /\ ready_ (engine (perform w c)) = ready_ (engine w) || is_OnAdd c
  /\ (ready_ (engine w) = true -> ready_ (engine (perform w c)) = true).
Proof.
  destruct (perform_config_ready w c) as [H1 H2].
  split; [exact H1|]. split; [exact H2|].
  intro R. rewrite H2, R. reflexivity.
Qed.

Lemma calls_keep_config_and_ready_witness :
  ready_ (engine (perform tracked_world (ResetViewport true))) = true.
Proof.
  apply (calls_keep_config_and_ready tracked_world (ResetViewport true)). reflexivity.
Defined.

Lemma createClusters_when_not_ready w :
  ready_ (engine w) = false -> createClusters_ w = Returns w.
Proof. intro R. unfold createClusters_. rewrite R. reflexivity. Qed.

Lemma perform_before_ready w c :
  ready_ (engine (perform w c)) = false ->
  clusters_ (engine w) = [] ->
  clusters_ (engine (perform w c)) = [].
Proof.
  intros R' Hc.
  destruct (perform_config_ready w c) as [_ HR]. rewrite R' in HR.
  symmetry in HR. apply orb_false_iff in HR. destruct HR as [R Hc'].
  destruct c; simpl in *; try discriminate.
  - unfold addMarker. destruct nodraw; simpl; [exact Hc|].
    unfold redraw. rewrite createClusters_when_not_ready by exact R. exact Hc.
  - unfold addMarkers. destruct (pushMarkers_engine ms w) as (_ & I2 & I3 & _).
    destruct nodraw; simpl; [congruence|].
    unfold redraw. rewrite createClusters_when_not_ready by (simpl; congruence).
    simpl. congruence.
  - unfold removeMarker. pose proof (removeMarker__engine w m) as H. simpl in H.
    destruct (removeMarker_ w m) as [w1 removed]. simpl in H.
    destruct H as (_ & H2 & H3 & _).
    destruct (negb opt_nodraw && removed); simpl; [|congruence].
    unfold redraw. rewrite createClusters_when_not_ready by (simpl; congruence).
    reflexivity.
  - unfold removeMarkers.
    destruct (removeMarkers_loop_visits w markers) as [ms Ems]. rewrite Ems.
    pose proof (removeMarkers_loop_engine ms w false) as H.
    simpl in H. destruct (fold_left _ ms (w, false)) as [w1 removed]. simpl in H.
    destruct H as (_ & H2 & H3 & _).
    destruct (negb nodraw && removed); simpl; [|congruence].
    unfold redraw. rewrite createClusters_when_not_ready by (simpl; congruence).
    reflexivity.
  - unfold redraw. rewrite createClusters_when_not_ready by exact R. exact Hc.
  - unfold repaint, redraw. rewrite createClusters_when_not_ready by exact R.
    reflexivity.
  - reflexivity.
  - rewrite Hc. reflexivity.
  - unfold clearMarkers. destruct nodraw; simpl; [reflexivity|].
    unfold redraw. rewrite createClusters_when_not_ready by exact R. reflexivity.
  - exact Hc.
Qed.

(** X4.  Until the map surface has mounted the engine there is no cluster:
    in every state reached by any calls with [ready] still false the cluster
    list is empty. *)
Theorem no_cluster_before_ready (w : World) :
  reachable any_call w -> ready_ (engine w) = false -> clusters_ (engine w) = [].
Proof.
  induction 1 as [w (_ & Hc & _)|w c _ IH _]; intro R.
  - exact Hc.
  - apply perform_before_ready; [exact R|].
    apply IH. destruct (perform_config_ready w c) as [_ HR]. rewrite R in HR.
    symmetry in HR. apply orb_false_iff in HR. apply HR.
Qed.

Lemma no_cluster_before_ready_witness :
  clusters_ (engine (perform (Example.world 2 None false 5)
                       (AddMarkers [0; 1; 10]%nat false))) = [].
Proof.
  apply no_cluster_before_ready.
  - apply reachable_call; [apply reachable_initial; repeat split; reflexivity | exact I].
  - reflexivity.
Defined.

(** ** The identity of clusters *)

Lemma remove_cluster_In id : forall cs c, In c (remove_cluster id cs) -> In c cs.
Proof.
  induction cs as [|k cs IH]; intros c H; simpl in H; [destruct H|].
  destruct (Nat.eqb (cid k) id); [right; exact H|].
  destruct H as [<-|H]; [left; reflexivity | right; apply IH; exact H].
Qed.

Lemma remove_cluster_absent id : forall cs,
  (forall c, In c cs -> cid c <> id) -> remove_cluster id cs = cs.
Proof.
  induction cs as [|k cs IH]; intro H; simpl; [reflexivity|].
  destruct (Nat.eqb_spec (cid k) id) as [E|_].
  - exfalso. apply (H k); [left; reflexivity | exact E].
  - rewrite IH; [reflexivity|]. intros c Hc. apply H. right. exact Hc.
Qed.

Lemma remove_cluster_filter id : forall cs,
  NoDup (map cid cs) ->
  remove_cluster id cs = filter (fun c => negb (Nat.eqb (cid c) id)) cs.
Proof.
  induction cs as [|k cs IH]; intro Hnd; simpl; [reflexivity|].
  inversion Hnd as [|? ? Hk Hnd']; subst.
  destruct (Nat.eqb_spec (cid k) id) as [E|_]; simpl.
  - rewrite <- IH by exact Hnd'. symmetry. apply remove_cluster_absent.
    intros c Hc F. apply Hk. rewrite E, <- F. apply in_map. exact Hc.
  - rewrite IH by exact Hnd'. reflexivity.
Qed.

Lemma ids_fresh_by w w' :
  clusters_ (engine w') = clusters_ (engine w) ->
  next_cluster w' = next_cluster w ->
  cluster_ids_fresh w -> cluster_ids_fresh w'.
Proof. unfold cluster_ids_fresh. intros -> ->. auto. Qed.

Lemma createClusters_step_ids mapBounds w m :
  cluster_ids_fresh w -> cluster_ids_fresh (createClusters_step mapBounds w m).
Proof.
  intros [Hnd Hlt].
  destruct (seedable mapBounds w m) eqn:Hs;
    [|rewrite createClusters_step_skip by exact Hs; split; assumption].
  destruct (createClusters_step_seed mapBounds w m Hs) as (c & h' & Hw & _ & Hid & _).
  rewrite Hw. unfold cluster_ids_fresh. simpl. split.
  - rewrite map_app. simpl. apply NoDup_app; [exact Hnd | repeat constructor; intros [] |].
    intros a Ha [F|[]]. apply in_map_iff in Ha. destruct Ha as (k & Hk & Hin).
    specialize (Hlt k Hin). lia.
  - intros k Hk. apply in_app_or in Hk. destruct Hk as [Hk|[<-|[]]].
    + specialize (Hlt k Hk). lia.
    + lia.
Qed.

Lemma createClusters_ids w :
  cluster_ids_fresh w -> cluster_ids_fresh (final (fun x => x) (createClusters_ w)).
Proof.
  intro H. unfold createClusters_.
  destruct (ready_ (engine w)); simpl; [|exact H].
  destruct (getBounds (surface w)) as [mb|]; simpl; [|exact H].
  match goal with
  | |- context [fold_left (createClusters_step ?b) ?ms ?x] => generalize b; generalize ms
  end.
  intros ms b. revert w H.
  induction ms as [|m ms IH]; intros w H; simpl; [exact H|].
  apply IH, createClusters_step_ids, H.
Qed.

Lemma ids_fresh_no_cluster w : clusters_ (engine w) = [] -> cluster_ids_fresh w.
Proof.
  intro H. unfold cluster_ids_fresh. rewrite H. simpl.
  split; [constructor | intros c []].
Qed.

Lemma redraw_after_reset_ids (w : World) (b : bool) :
  cluster_ids_fresh
    (final fst (let* w2 := redraw (resetViewport w false) in Returns (w2, b))).
Proof.
  pose proof (createClusters_ids (resetViewport w false)
                (ids_fresh_no_cluster (resetViewport w false) eq_refl)) as H.
  unfold redraw. destruct (createClusters_ (resetViewport w false)); exact H.
Qed.

Lemma perform_ids w c : cluster_ids_fresh w -> cluster_ids_fresh (perform w c).
Proof.
  intro H. destruct c; simpl.
  - unfold addMarker, redraw.
    destruct nodraw; simpl; [|apply createClusters_ids];
      (eapply ids_fresh_by; [| |exact H]; reflexivity).
  - unfold addMarkers, redraw.
    destruct (pushMarkers_engine ms w) as (_ & _ & I3 & _ & _ & _ & I7 & _).
    destruct nodraw; simpl; [|apply createClusters_ids];
      (eapply ids_fresh_by; [| |exact H]; simpl; assumption).
  - unfold removeMarker. pose proof (removeMarker__engine w m) as E. simpl in E.
    destruct (removeMarker_ w m) as [w1 removed]. simpl in E.
    destruct E as (_ & _ & E3 & _ & E5).
    destruct (negb opt_nodraw && removed); [apply redraw_after_reset_ids|].
    simpl. eapply ids_fresh_by; eassumption.
  - unfold removeMarkers.
    destruct (removeMarkers_loop_visits w markers) as [ms Ems]. rewrite Ems.
    pose proof (removeMarkers_loop_engine ms w false) as E.
    simpl in E. destruct (fold_left _ ms (w, false)) as [w1 removed]. simpl in E.
    destruct E as (_ & _ & E3 & _ & E5).
    destruct (negb nodraw && removed); [apply redraw_after_reset_ids|].
    simpl. eapply ids_fresh_by; eassumption.
  - apply createClusters_ids, H.
  - apply createClusters_ids, ids_fresh_no_cluster. reflexivity.
  - apply ids_fresh_no_cluster. reflexivity.
  - destruct H as [Hnd Hlt]. unfold cluster_ids_fresh, removeCluster. simpl. split.
    + rewrite remove_cluster_filter by exact Hnd.
      clear Hlt. induction (clusters_ (engine w)) as [|k cs IH]; simpl; [constructor|].
      simpl in Hnd. inversion Hnd as [|? ? Hk Hnd']; subst.
      destruct (negb (Nat.eqb (cid k) cluster)); simpl; [|apply IH; exact Hnd'].
      constructor; [|apply IH; exact Hnd'].
      intro F. apply Hk. apply in_map_iff in F. destruct F as (j & Ej & Hj).
      apply filter_In in Hj. rewrite <- Ej. apply in_map. apply Hj.
    + intros c Hc. apply Hlt. eapply remove_cluster_In. exact Hc.
  - unfold clearMarkers, redraw.
    destruct nodraw; simpl; [|apply createClusters_ids];
      apply ids_fresh_no_cluster; reflexivity.
  - unfold onAdd, setReady_. destruct (ready_ (engine w)); simpl; [exact H|].
    apply createClusters_ids. eapply ids_fresh_by; [| |exact H]; reflexivity.
  - eapply ids_fresh_by; [| |exact H]; reflexivity.
Qed.

Lemma with_own_clusters w :
  with_engine w (with_clusters (engine w) (clusters_ (engine w))) = w.
Proof. destruct w as [e h v n]. destruct e. reflexivity. Qed.

(** X5.  Whatever the calls, the active clusters are distinct objects; so
    [removeCluster] takes the given cluster, and only it, off the list; and
    given something that is not an active cluster it changes nothing.  The
    tracked markers and their flags are the same in every case. *)
Theorem removeCluster_removes_that_cluster :
  (forall w, reachable any_call w -> NoDup (map cid (clusters_ (engine w))))
  /\ (forall w id,
        reachable any_call w ->
        clusters_ (engine (removeCluster w id))
        = filter (fun c => negb (Nat.eqb (cid c) id)) (clusters_ (engine w)))
  /\ (forall w id,
        (forall c, In c (clusters_ (engine w)) -> cid c <> id) ->
        removeCluster w id = w)
  /\ (forall w id,
        markers_ (engine (removeCluster w id)) = markers_ (engine w)
        /\ store (removeCluster w id) = store w).
Proof.
  assert (Inv : forall w, reachable any_call w -> cluster_ids_fresh w).
  { induction 1 as [w (_ & Hc & _)|w c _ IH _].
    - apply ids_fresh_no_cluster. exact Hc.
    - apply perform_ids. exact IH. }
  split; [intros w H; apply (Inv w H)|].
  split; [intros w id H; unfold removeCluster; simpl;
          apply remove_cluster_filter, (Inv w H)|].
  split; [|intros w id; split; reflexivity].
  intros w id H. unfold removeCluster.
  rewrite remove_cluster_absent by exact H. apply with_own_clusters.
Qed.

Lemma removeCluster_removes_that_cluster_witness :
  map cid (clusters_ (engine mounted_world)) = [0; 1]%nat
  /\ map c_markers_ (clusters_ (engine (removeCluster mounted_world 0)))
     = [[10]]%nat.
Proof.
  assert (R : reachable any_call mounted_world).
  { unfold mounted_world.
    apply reachable_call; [|exact I].
    apply reachable_call; [|exact I].
    apply reachable_initial. repeat split. }
  split; [vm_compute; reflexivity|].
  rewrite (proj1 (proj2 removeCluster_removes_that_cluster) mounted_world 0%nat R).
  vm_compute. reflexivity.
Defined.

(** ** A pass that has nothing to do *)

Lemma createClusters_leaves_nothing w w' :
  createClusters_ w = Returns w' ->
  ready_ (engine w) = true ->
  exists mb,
    getBounds (surface w) = Some mb
    /\ same_setting w w'
    /\ forall k, In k (markers_ (engine w')) ->
         seedable (getExtendedBounds (engine w) (surface w)
                     (mkLatLngBounds (getSouthWest mb) (getNorthEast mb))) w' k = false.
Proof.
  intros Hrun Hr. unfold createClusters_ in Hrun. rewrite Hr in Hrun. simpl in Hrun.
  destruct (getBounds (surface w)) as [mb|]; [|discriminate].
  injection Hrun as <-. exists mb. split; [reflexivity|].
  match goal with
  | |- context [fold_left (createClusters_step ?b) ?ms ?x] =>
      destruct (pass_effect b ms x) as (HS & _ & HU)
  end.
  split; [exact HS|].
  intros k Hk. apply HU. destruct (same_setting_fields _ _ HS) as (Em & _).
  rewrite <- Em. exact Hk.
Qed.

Lemma createClusters_nothing_to_seed w mb :
  ready_ (engine w) = true ->
  getBounds (surface w) = Some mb ->
  (forall k, In k (markers_ (engine w)) ->
     seedable (getExtendedBounds (engine w) (surface w)
                 (mkLatLngBounds (getSouthWest mb) (getNorthEast mb))) w k = false) ->
  createClusters_ w = Returns w.
Proof.
  intros Hr Hb HU. unfold createClusters_. rewrite Hr, Hb. simpl.
  rewrite pass_nothing_to_seed by exact HU. reflexivity.
Qed.

(** X6.  A [redraw] does not bring back the markers of a cluster that
    [removeCluster] took away: after a [redraw], removing a cluster and
    redrawing again leaves the world as the removal left it.  The markers of
    the removed cluster keep their flag, so no pass claims them until the
    viewport is reset. *)
Theorem redraw_after_removeCluster (w0 w : World) (id : nat) :
  redraw w0 = Returns w ->
  redraw (removeCluster w id) = Returns (removeCluster w id).
Proof.
  unfold redraw. intro Hrun.
  destruct (ready_ (engine w0)) eqn:Hr.
  - destruct (createClusters_leaves_nothing w0 w Hrun Hr) as (mb & Hb & HS & HU).
    destruct (same_setting_fields _ _ HS) as (_ & _ & Hr' & _).
    pose proof (getExtendedBounds_same_setting w0 w
                  (mkLatLngBounds (getSouthWest mb) (getNorthEast mb)) HS) as HB.
    destruct HS as (_ & _ & Sf).
    apply createClusters_nothing_to_seed with (mb := mb).
    + simpl. congruence.
    + simpl. congruence.
    + intros k Hk. simpl in Hk.
      change (getExtendedBounds (engine (removeCluster w id))
                (surface (removeCluster w id))
                (mkLatLngBounds (getSouthWest mb) (getNorthEast mb)))
        with (getExtendedBounds (engine w) (surface w)
                (mkLatLngBounds (getSouthWest mb) (getNorthEast mb))).
      rewrite HB. specialize (HU k Hk). exact HU.
  - rewrite createClusters_when_not_ready in Hrun by exact Hr. injection Hrun as <-.
    apply createClusters_when_not_ready. exact Hr.
Qed.

Lemma redraw_after_removeCluster_witness :
  exists w,
    redraw tracked_world = Returns w
    /\ redraw (removeCluster w 0) = Returns (removeCluster w 0).
Proof.
  eexists. split.
  - unfold redraw, createClusters_. simpl. reflexivity.
  - apply (redraw_after_removeCluster tracked_world).
    unfold redraw, createClusters_. simpl. reflexivity.
Defined.

(** ** Looking up a marker's cluster *)

Lemma find_is_first_kept {A : Type} (f : A -> bool) : forall l,
  find f l = hd_error (filter f l).
Proof.
  induction l as [|a l IH]; simpl; [reflexivity|].
  destruct (f a); [reflexivity | exact IH].
Qed.

(** X7.  [getMarkerCluster] answers with an active cluster that holds the
    marker, and only for a flagged marker.  In the states in which flags and
    clusters agree (those of C2), a flagged tracked marker always gets an
    answer, and it is the one cluster that holds it. *)
Theorem getMarkerCluster_finds_the_cluster :
  (forall w m c,
     getMarkerCluster w m = Some c ->
     In c (clusters_ (engine w)) /\ In m (c_markers_ c) /\ isAdded (store w m) = true)
  /\ (forall w m, isAdded (store w m) = false -> getMarkerCluster w m = None)
  /\ (forall w m,
        reachable admissible w ->
        In m (markers_ (engine w)) -> isAdded (store w m) = true ->
        exists c,
          getMarkerCluster w m = Some c
          /\ filter (fun k => Cluster_isMarkerAlreadyAdded k m) (clusters_ (engine w))
             = [c]).
Proof.
  split; [|split].
  - intros w m c H. unfold getMarkerCluster in H.
    destruct (isAdded (store w m)); simpl in H; [|discriminate].
    apply find_some in H. destruct H as [H1 H2].
    split; [exact H1|]. split; [|reflexivity].
    apply existsb_eqb_In. exact H2.
  - intros w m H. unfold getMarkerCluster. rewrite H. reflexivity.
  - intros w m Hreach Hm Hfl.
    destruct (reachable_consistent w Hreach) as (I1 & _ & I3).
    pose proof (holding_one m (clusters_ (engine w)) I1 (I3 m Hm Hfl)) as Hone.
    unfold getMarkerCluster. rewrite Hfl. simpl. rewrite find_is_first_kept.
    destruct (filter (fun k => Cluster_isMarkerAlreadyAdded k m) (clusters_ (engine w)))
      as [|c [|c' rest]]; simpl in Hone; try discriminate.
    exists c. split; reflexivity.
Qed.

Lemma getMarkerCluster_finds_the_cluster_witness :
  exists c,
    getMarkerCluster
      (perform (perform (Example.world 2 None false 5) OnAdd)
               (AddMarkers [0; 1; 10]%nat false)) 1%nat = Some c
    /\ c_markers_ c = [0; 1]%nat.
Proof.
  destruct (proj2 (proj2 getMarkerCluster_finds_the_cluster)
              (perform (perform (Example.world 2 None false 5) OnAdd)
                       (AddMarkers [0; 1; 10]%nat false)) 1%nat)
    as (c & Hc & _).
  - apply reachable_call; [apply reachable_call; [apply reachable_initial|]|].
    + repeat split; reflexivity.
    + exact I.
    + simpl. intros m _ F. exact F.
  - vm_compute. right. left. reflexivity.
  - vm_compute. reflexivity.
  - exists c. split; [exact Hc|].
    assert (E : option_map c_markers_
                  (getMarkerCluster
                     (perform (perform (Example.world 2 None false 5) OnAdd)
                              (AddMarkers [0; 1; 10]%nat false)) 1%nat)
                = Some [0; 1]%nat) by (vm_compute; reflexivity).
    rewrite Hc in E. simpl in E. injection E as E. exact E.
Defined.

(** ** Resetting and clearing *)

Lemma reset_maps (reset : bool) : forall (ms : list marker) (h : Store) (k : marker),
  getMap
    (fold_left
       (fun (h : Store) (m : marker) =>
          let h1 := set_isAdded h m false in
          if reset then setMap h1 m None else h1) ms h k)
  = if reset && existsb (Nat.eqb k) ms then None else getMap (h k).
Proof.
  induction ms as [|m ms IH]; intros h k; simpl.
  - rewrite andb_false_r. reflexivity.
  - rewrite IH. destruct reset; simpl.
    + destruct (existsb (Nat.eqb k) ms); [rewrite orb_true_r; reflexivity|].
      rewrite orb_false_r. unfold setMap, set_isAdded.
      destruct (Nat.eqb k m); reflexivity.
    + apply getMap_set_isAdded.
Qed.

Lemma reset_frame (reset : bool) : forall (ms : list marker) (h : Store) (k : marker),
  ~ In k ms ->
  fold_left
    (fun (h : Store) (m : marker) =>
       let h1 := set_isAdded h m false in
       if reset then setMap h1 m None else h1) ms h k
  = h k.
Proof.
  induction ms as [|m ms IH]; intros h k Hk; simpl; [reflexivity|].
  rewrite IH by (intro F; apply Hk; right; exact F).
  assert (Hne : Nat.eqb k m = false).
  { apply Nat.eqb_neq. intro E. apply Hk. left. symmetry. exact E. }
  destruct reset; unfold setMap, set_isAdded; rewrite Hne; reflexivity.
Qed.

Lemma reset_positions (reset : bool) : forall (ms : list marker) (h : Store) (k : marker),
  getPosition
    (fold_left
       (fun (h : Store) (m : marker) =>
          let h1 := set_isAdded h m false in
          if reset then setMap h1 m None else h1) ms h k)
  = getPosition (h k).
Proof.
  induction ms as [|m ms IH]; intros h k; simpl; [reflexivity|].
  rewrite IH. destruct reset; unfold setMap, set_isAdded;
    destruct (Nat.eqb k m); reflexivity.
Qed.

Lemma resetViewport_store (w : World) (reset : bool) :
  (forall k, getPosition (store (resetViewport w reset) k) = getPosition (store w k))
  /\ (forall k, In k (markers_ (engine w)) ->
                isAdded (store (resetViewport w reset) k) = false)
  /\ (forall k, ~ In k (markers_ (engine w)) ->
                store (resetViewport w reset) k = store w k)
  /\ (forall k, In k (markers_ (engine w)) -> reset = true ->
                getMap (store (resetViewport w reset) k) = None).
Proof.
  unfold resetViewport. simpl. repeat split.
  - intro k. apply reset_positions.
  - intros k Hk. rewrite reset_flags. apply existsb_eqb_In in Hk. rewrite Hk.
    reflexivity.
  - intros k Hk. apply reset_frame. exact Hk.
  - intros k Hk Hr. rewrite reset_maps, Hr. apply existsb_eqb_In in Hk. rewrite Hk.
    reflexivity.
Qed.

(** X8.  [resetViewport] empties the cluster list and lowers the flag of
    every tracked marker; it keeps the tracked list, the index and the
    positions, and does not touch markers that are not tracked.  Called with
    [reset] it detaches every tracked marker from the map; called without,
    it leaves each marker attached or detached as it was, so a marker its
    cluster had hidden stays hidden. *)
Theorem resetViewport_effect (w : World) (reset : bool) :
  let w' := resetViewport w reset in
  clusters_ (engine w') = []
  /\ markers_ (engine w') = markers_ (engine w)
  /\ tree_ (engine w') = tree_ (engine w)
  /\ (forall k, getPosition (store w' k) = getPosition (store w k))
  /\ (forall k, In k (markers_ (engine w)) -> isAdded (store w' k) = false)
  /\ (forall k, ~ In k (markers_ (engine w)) -> store w' k = store w k)
  /\ (forall k, In k (markers_ (engine w)) -> reset = true ->
                getMap (store w' k) = None)
  /\ (reset = false -> forall k, getMap (store w' k) = getMap (store w k)).
Proof.
  unfold resetViewport. simpl. repeat split.
  - intro k. apply reset_positions.
  - intros k Hk. rewrite reset_flags. apply existsb_eqb_In in Hk. rewrite Hk.
    reflexivity.
  - intros k Hk. apply reset_frame. exact Hk.
  - intros k Hk Hr. rewrite reset_maps, Hr. apply existsb_eqb_In in Hk. rewrite Hk.
    reflexivity.
  - intros Hr k. rewrite reset_maps, Hr. reflexivity.
Qed.

Lemma resetViewport_effect_witness :
  getMap (store (resetViewport tracked_world true) 1%nat) = None.
Proof.
  destruct (resetViewport_effect tracked_world true) as (_ & _ & _ & _ & _ & _ & M & _).
  apply M; [simpl; right; left; reflexivity | reflexivity].
Defined.

Lemma createClusters_no_markers w :
  markers_ (engine w) = [] -> final (fun x => x) (createClusters_ w) = w.
Proof.
  intro H. unfold createClusters_. rewrite H.
  destruct (negb (ready_ (engine w))); [reflexivity|].
  destruct (getBounds (surface w)); reflexivity.
Qed.

(** X9.  [clearMarkers] leaves an engine with no tracked marker, an empty
    index and no cluster, whether the redraw is deferred or not and whatever
    the state of the map; every marker that was tracked ends up unflagged
    and detached from the map, and no other marker is touched. *)
Theorem clearMarkers_empties_the_engine (w : World) (nodraw : bool) :
  let w' := perform w (ClearMarkers nodraw) in
  markers_ (engine w') = []
  /\ tree_ (engine w') = RBush.empty
  /\ clusters_ (engine w') = []
  /\ (forall k, In k (markers_ (engine w)) ->
                isAdded (store w' k) = false /\ getMap (store w' k) = None)
  /\ (forall k, ~ In k (markers_ (engine w)) -> store w' k = store w k).
Proof.
  assert (E : perform w (ClearMarkers nodraw)
              = with_engine (resetViewport w true)
                  (with_tree (with_markers (engine (resetViewport w true)) [])
                     (RBush.clear (tree_ (engine (resetViewport w true)))))).
  { simpl. unfold clearMarkers, redraw.
    destruct nodraw; simpl; [reflexivity|].
    apply createClusters_no_markers. reflexivity. }
  cbv zeta. rewrite E. simpl.
  destruct (resetViewport_store w true) as (_ & F & Fr & M).
  repeat split.
  - apply F. assumption.
  - apply M; [assumption | reflexivity].
  - apply Fr.
Qed.

Lemma clearMarkers_empties_the_engine_witness :
  isAdded (store (perform tracked_world (ClearMarkers false)) 1%nat) = false
  /\ getMap (store (perform tracked_world (ClearMarkers false)) 1%nat) = None.
Proof.
  destruct (clearMarkers_empties_the_engine tracked_world false) as (_ & _ & _ & F & _).
  apply F. simpl. right. left. reflexivity.
Defined.

(** ** The tracked list and the index *)

Lemma remove_first_last m : forall ms, ~ In m ms -> remove_first m (ms ++ [m]) = ms.
Proof.
  induction ms as [|k ms IH]; intro H; simpl.
  - rewrite Nat.eqb_refl. reflexivity.
  - destruct (Nat.eqb_spec k m) as [E|_].
    + exfalso. apply H. left. exact E.
    + rewrite IH; [reflexivity|]. intro F. apply H. right. exact F.
Qed.

Lemma remove_first_other m : forall ms k,
  In k ms -> k <> m -> In k (remove_first m ms).
Proof.
  induction ms as [|j ms IH]; intros k Hk Hne; simpl; [destruct Hk|].
  destruct (Nat.eqb_spec j m) as [E|_].
  - destruct Hk as [<-|Hk]; [contradiction | exact Hk].
  - destruct Hk as [<-|Hk]; [left; reflexivity | right; apply IH; assumption].
Qed.

Lemma filter_keeps_all {A : Type} (f : A -> bool) : forall l,
  (forall a, In a l -> f a = true) -> filter f l = l.
Proof.
  induction l as [|a l IH]; intro H; simpl; [reflexivity|].
  rewrite (H a (or_introl eq_refl)), IH; [reflexivity|].
  intros b Hb. apply H. right. exact Hb.
Qed.

(** X10.  Adding a marker that is not tracked and removing it again, both
    with the redraw deferred, gives back the tracked list, the index and the
    cluster list as they were; the marker ends up unflagged and detached. *)
Theorem add_then_remove_restores (w : World) (m : marker) :
  ~ In m (markers_ (engine w)) ->
  index_tracked w ->
  let w' := perform (perform w (AddMarker m true)) (RemoveMarker m true) in
  markers_ (engine w') = markers_ (engine w)
  /\ tree_ (engine w') = tree_ (engine w)
  /\ clusters_ (engine w') = clusters_ (engine w)
  /\ isAdded (store w' m) = false
  /\ getMap (store w' m) = None.
Proof.
  intros Hm Hidx. simpl. unfold addMarker, removeMarker, removeMarker_. simpl.
  assert (Hin : existsb (Nat.eqb m) (markers_ (engine w) ++ [m]) = true).
  { apply existsb_eqb_In, in_or_app. right. left. reflexivity. }
  rewrite Hin. simpl. repeat split.
  - apply remove_first_last. exact Hm.
  - rewrite remove_nodes_of_filter. unfold RBush.insert.
    rewrite filter_app. simpl. rewrite Nat.eqb_refl. simpl. rewrite app_nil_r.
    apply filter_keeps_all. intros n Hn. apply negb_true_iff, Nat.eqb_neq.
    intro E. apply Hm. rewrite <- E. apply Hidx. exact Hn.
  - unfold setMap, set_isAdded. rewrite Nat.eqb_refl. reflexivity.
  - unfold setMap. rewrite Nat.eqb_refl. reflexivity.
Qed.

Lemma add_then_remove_restores_witness :
  markers_ (engine (perform (perform tracked_world (AddMarker 5%nat true))
                      (RemoveMarker 5%nat true)))
  = markers_ (engine tracked_world).
Proof.
  destruct (add_then_remove_restores tracked_world 5%nat) as (E & _).
  - simpl. intros [E|[E|[E|[]]]]; discriminate.
  - intros n Hn. simpl in Hn.
    destruct Hn as [<-|[<-|[<-|[]]]]; simpl; auto.
  - exact E.
Defined.

Lemma index_tracked_by w w' :
  tree_ (engine w') = tree_ (engine w) ->
  markers_ (engine w') = markers_ (engine w) ->
  index_tracked w -> index_tracked w'.
Proof. unfold index_tracked. intros -> ->. auto. Qed.

Lemma createClusters_index w :
  index_tracked w -> index_tracked (final (fun x => x) (createClusters_ w)).
Proof.
  intro H. destruct (same_setting_fields _ _ (createClusters_final_setting w))
    as (Em & Et & _).
  eapply index_tracked_by; eassumption.
Qed.

Lemma removeMarker__index w m :
  index_tracked w -> index_tracked (fst (removeMarker_ w m)).
Proof.
  intro H. unfold removeMarker_.
  destruct (negb (existsb (Nat.eqb m) (markers_ (engine w)))); simpl; [exact H|].
  unfold index_tracked. simpl. intros n Hn.
  rewrite remove_nodes_of_filter in Hn. apply filter_In in Hn.
  destruct Hn as [Hn Hne]. apply negb_true_iff, Nat.eqb_neq in Hne.
  apply remove_first_other; [apply H; exact Hn | exact Hne].
Qed.

Lemma removeMarkers_loop_index : forall (ms : list marker) (w : World) (b : bool),
  index_tracked w ->
  index_tracked
    (fst (fold_left
            (fun (acc : World * bool) (m : marker) =>
               let '(w', removed) := acc in
               let '(w'', r) := removeMarker_ w' m in
               (w'', removed || r))
            ms (w, b))).
Proof.
  induction ms as [|m ms IH]; intros w b H; simpl; [exact H|].
  destruct (removeMarker_ w m) as [w1 r] eqn:E.
  apply IH. change w1 with (fst (w1, r)). rewrite <- E.
  apply removeMarker__index. exact H.
Qed.

Lemma redraw_after_reset_index (w : World) (b : bool) :
  index_tracked w ->
  index_tracked
    (final fst (let* w2 := redraw (resetViewport w false) in Returns (w2, b))).
Proof.
  intro H.
  assert (H1 : index_tracked (resetViewport w false)) by exact H.
  pose proof (createClusters_index (resetViewport w false) H1) as H2.
  unfold redraw. destruct (createClusters_ (resetViewport w false)); exact H2.
Qed.

Lemma perform_index w c : index_tracked w -> index_tracked (perform w c).
Proof.
  intro H. destruct c; simpl.
  - assert (H2 : index_tracked
                   (with_engine (pushMarkerTo_ w m)
                      (with_tree (engine (pushMarkerTo_ w m))
                         (RBush.insert (getMarkerNode (store (pushMarkerTo_ w m)) m)
                            (tree_ (engine (pushMarkerTo_ w m))))))).
    { unfold index_tracked, RBush.insert. simpl. intros n Hn.
      apply in_app_or in Hn. apply in_or_app.
      destruct Hn as [Hn|[<-|[]]]; [left; apply H; exact Hn | right; left; reflexivity]. }
    unfold addMarker, redraw. destruct nodraw; simpl;
      [exact H2 | apply createClusters_index; exact H2].
  - destruct (pushMarkers_engine ms w) as (_ & _ & _ & I4 & I5 & _).
    assert (H2 : index_tracked
                   (with_engine (fold_left pushMarkerTo_ ms w)
                      (with_tree (engine (fold_left pushMarkerTo_ ms w))
                         (RBush.load
                            (map (getMarkerNode (store (fold_left pushMarkerTo_ ms w))) ms)
                            (tree_ (engine (fold_left pushMarkerTo_ ms w))))))).
    { unfold index_tracked, RBush.load. simpl. rewrite I4, I5. intros n Hn.
      apply in_app_or in Hn. apply in_or_app. destruct Hn as [Hn|Hn].
      - left. apply H. exact Hn.
      - right. apply in_map_iff in Hn. destruct Hn as (k & <- & Hk). exact Hk. }
    unfold addMarkers, redraw. destruct nodraw; simpl;
      [exact H2 | apply createClusters_index; exact H2].
  - unfold removeMarker. pose proof (removeMarker__index w m H) as H1.
    destruct (removeMarker_ w m) as [w1 removed]. simpl in H1.
    destruct (negb opt_nodraw && removed);
      [apply redraw_after_reset_index; exact H1 | exact H1].
  - unfold removeMarkers.
    destruct (removeMarkers_loop_visits w markers) as [ms Ems]. rewrite Ems.
    pose proof (removeMarkers_loop_index ms w false H) as H1.
    destruct (fold_left _ ms (w, false)) as [w1 removed]. simpl in H1.
    destruct (negb nodraw && removed);
      [apply redraw_after_reset_index; exact H1 | exact H1].
  - apply createClusters_index, H.
  - apply createClusters_index. exact H.
  - exact H.
  - exact H.
  - unfold clearMarkers, redraw.
    destruct nodraw; simpl; [|apply createClusters_index]; intros n [].
  - unfold onAdd, setReady_. destruct (ready_ (engine w)); simpl; [exact H|].
    apply createClusters_index. exact H.
  - exact H.
Qed.

(** X11.  Whatever the calls, every record of the spatial index belongs to
    a marker of the tracked list: add, removal and clearing keep the two
    together. *)
Theorem index_holds_tracked_markers (w : World) :
  reachable any_call w ->
  forall n, In n (tree_ (engine w)) -> In (RBush.n_marker n) (markers_ (engine w)).
Proof.
  induction 1 as [w (_ & _ & _ & Ht)|w c _ IH _].
  - rewrite Ht. intros n [].
  - apply perform_index. exact IH.
Qed.

Lemma index_holds_tracked_markers_witness :
  In (RBush.n_marker (getMarkerNode Example.markers0 1%nat))
     (markers_ (engine (perform (Example.world 2 None false 5)
                          (AddMarkers [0; 1; 10]%nat true)))).
Proof.
  apply index_holds_tracked_markers.
  - apply reachable_call; [apply reachable_initial; repeat split; reflexivity | exact I].
  - simpl. right. left. reflexivity.
Defined.

(** ** Repainting *)

Lemma greedy_groups_ext (c0 c0' inView inView' eligible eligible' : marker -> bool)
  (near near' : marker -> list marker) : forall ms taken,
  (forall k, In k ms -> c0 k = c0' k /\ inView k = inView' k /\ near k = near' k) ->
  (forall m k, In m ms -> In k (near m) -> c0 k = c0' k) ->
  (forall k, eligible k = eligible' k) ->
  greedy_groups c0 inView eligible near taken ms
  = greedy_groups c0' inView' eligible' near' taken ms.
Proof.
  induction ms as [|m ms IH]; intros taken H1 H2 H3; simpl; [reflexivity|].
  destruct (H1 m (or_introl eq_refl)) as (Ec & Ev & En).
  assert (Eg : group_of c0 eligible near taken m = group_of c0' eligible' near' taken m).
  { unfold group_of. rewrite <- En. f_equal. f_equal.
    apply filter_ext_in. intros k Hk. unfold claimed.
    rewrite (H2 m k (or_introl eq_refl) Hk), H3. reflexivity. }
  assert (Ecl : claimed c0 taken m = claimed c0' taken m)
    by (unfold claimed; rewrite Ec; reflexivity).
  rewrite Ecl, Ev, H3, Eg.
  assert (Erest : forall t,
             greedy_groups c0 inView eligible near t ms
             = greedy_groups c0' inView' eligible' near' t ms).
  { intro t. apply IH; [|  |exact H3].
    - intros k Hk. apply H1. right. exact Hk.
    - intros j k Hj Hk. apply (H2 j k); [right; exact Hj | exact Hk]. }
  rewrite !Erest. reflexivity.
Qed.

Lemma resetViewport_same_setting w reset : same_setting w (resetViewport w reset).
Proof.
  repeat split. intro k. apply reset_positions.
Qed.

(** The member lists of the clusters a repaint builds. *)
Lemma repaint_groups w mb :
  ready_ (engine w) = true ->
  getBounds (surface w) = Some mb ->
  index_tracked w ->
  exists w',
    repaint w = Returns w'
    /\ same_setting w w'
    /\ map c_markers_ (clusters_ (engine w')) =
         greedy_groups (fun _ => false)
           (fun k => LatLngBounds_contains
                       (getExtendedBounds (engine w) (surface w) mb)
                       (getPosition (store w k)))
           (isClusterable (engine w)) (near_markers w) [] (markers_ (engine w)).
Proof.
  intros Hr Hb Hidx.
  set (w1 := resetViewport w false).
  pose proof (resetViewport_same_setting w false) as HS1. fold w1 in HS1.
  assert (Hmb : mkLatLngBounds (getSouthWest mb) (getNorthEast mb) = mb)
    by (destruct mb; reflexivity).
  set (mapBounds := getExtendedBounds (engine w) (surface w) mb).
  assert (Hrun : repaint w
                 = Returns (fold_left (createClusters_step mapBounds)
                              (markers_ (engine w)) w1)).
  { unfold repaint, redraw, createClusters_. fold w1.
    change (ready_ (engine w1)) with (ready_ (engine w)).
    change (surface w1) with (surface w). rewrite Hr, Hb. simpl. rewrite Hmb.
    reflexivity. }
  destruct (pass_groups mapBounds w1 (markers_ (engine w)) w1 [] (same_setting_refl w1))
    as (new & Hcl & Hgr & _).
  { intro k. unfold claimed. simpl. rewrite orb_false_r. reflexivity. }
  destruct (pass_effect mapBounds (markers_ (engine w)) w1) as (HS2 & _).
  eexists. split; [exact Hrun|]. split.
  - eapply same_setting_trans; eassumption.
  - rewrite Hcl. simpl. rewrite Hgr.
    destruct (resetViewport_store w false) as (Hpos & Hfl & _).
    fold w1 in Hpos, Hfl.
    apply greedy_groups_ext.
    + intros k Hk. split; [apply Hfl; exact Hk|]. split.
      * rewrite Hpos. reflexivity.
      * apply near_markers_same_setting. exact HS1.
    + intros m k Hm Hk. apply Hfl.
      rewrite (near_markers_same_setting w w1 m HS1) in Hk.
      unfold near_markers in Hk. apply in_map_iff in Hk.
      destruct Hk as (n & <- & Hn). apply filter_In in Hn. apply Hidx, Hn.
    + intro k. reflexivity.
Qed.

(** X12.  When every record of the index belongs to a tracked marker, the
    clusters a [repaint] builds are those of the greedy pass started with no
    marker claimed: their member lists depend on the tracked list, the
    positions, the index and the map view, and not on the clusters or flags
    there were.  A second [repaint] with the same view therefore builds
    clusters with the same member lists. *)
Theorem repaint_rebuilds_from_scratch (w : World) (mb : LatLngBounds) :
  ready_ (engine w) = true ->
  getBounds (surface w) = Some mb ->
  index_tracked w ->
  exists w',
    repaint w = Returns w'
    /\ map c_markers_ (clusters_ (engine w')) =
         greedy_groups (fun _ => false)
           (fun k => LatLngBounds_contains
                       (getExtendedBounds (engine w) (surface w) mb)
                       (getPosition (store w k)))
           (isClusterable (engine w)) (near_markers w) [] (markers_ (engine w))
    /\ exists w'',
         repaint w' = Returns w''
         /\ map c_markers_ (clusters_ (engine w''))
            = map c_markers_ (clusters_ (engine w')).
Proof.
  intros Hr Hb Hidx.
  destruct (repaint_groups w mb Hr Hb Hidx) as (w' & Hrun & HS & Hgr).
  exists w'. split; [exact Hrun|]. split; [exact Hgr|].
  destruct (same_setting_fields w w' HS) as (Em & Et & Er & _ & Ei).
  assert (Hidx' : index_tracked w') by (eapply index_tracked_by; eassumption).
  assert (Hb' : getBounds (surface w') = Some mb)
    by (destruct HS as (_ & _ & Sf); rewrite Sf; exact Hb).
  destruct (repaint_groups w' mb (eq_trans Er Hr) Hb' Hidx') as (w'' & Hrun' & _ & Hgr').
  exists w''. split; [exact Hrun'|].
  rewrite Hgr', Hgr, Em. apply greedy_groups_ext.
  - intros k _. split; [reflexivity|]. split.
    + rewrite (getExtendedBounds_same_setting w w' mb HS).
      destruct HS as (P & _). rewrite P. reflexivity.
    + apply near_markers_same_setting. exact HS.
  - reflexivity.
  - intro k. rewrite Ei. reflexivity.
Qed.

Lemma repaint_rebuilds_from_scratch_witness :
  exists w',
    repaint tracked_world = Returns w'
    /\ map c_markers_ (clusters_ (engine w')) = [[0; 1]; [10]]%nat.
Proof.
  destruct (repaint_rebuilds_from_scratch tracked_world
              (mkLatLngBounds (mkLatLng (-50) (-50)) (mkLatLng 50 50))
              eq_refl eq_refl)
    as (w' & Hrun & Hgr & _).
  - intros n Hn. simpl in Hn.
    destruct Hn as [<-|[<-|[<-|[]]]]; simpl; auto.
  - exists w'. split; [exact Hrun|]. rewrite Hgr. vm_compute. reflexivity.
Defined.

(** ** How the clusters of a pass show on the map *)

Lemma getMap_setMap_all_notin ms : forall h r k,
  ~ In k ms -> getMap (setMap_all h ms r k) = getMap (h k).
Proof.
  unfold setMap_all. induction ms as [|m ms IH]; intros h r k Hk; simpl; [reflexivity|].
  rewrite IH by (intro F; apply Hk; right; exact F).
  apply getMap_setMap_other. intro E. apply Hk. left. symmetry. exact E.
Qed.

(** The markers whose map an add leaves alone: those outside the cluster,
    and, unless the add reaches the minimum size or the zoom is above the
    maximum, the earlier members as well. *)
Lemma addMarker_maps_kept e v h c m :
  ~ In m (c_markers_ c) ->
  forall h' c' r, Cluster_addMarker e v h c m = (h', c', r) ->
  forall k, k <> m ->
    (~ In k (c_markers_ c)
     \/ (above_maxZoom (maxZoom e) (getZoom v) = false
         /\ Z.of_nat (length (c_markers_ c ++ [m])) <> c_minClusterSize c)) ->
    getMap (h' k) = getMap (h k).
Proof.
  intros Hnew h' c' r. apply existsb_eqb_not_In in Hnew.
  unfold Cluster_addMarker, Cluster_isMarkerAlreadyAdded. rewrite Hnew. cbv zeta.
  set (c1 := Cluster_recenter e v c (getPosition (h m))).
  set (h1 := set_isAdded h m true).
  set (c2 := with_members c1 (c_markers_ c1 ++ [m])).
  pose proof (recenter_cluster e v c (getPosition (h m))) as Hr. simpl in Hr.
  fold c1 in Hr. destruct Hr as (Hr1 & Hr2 & Hr3 & Hr4 & Hr5 & Hr6).
  assert (E2 : c_markers_ c2 = c_markers_ c ++ [m]) by (subst c2; simpl; congruence).
  assert (Emin : c_minClusterSize c2 = c_minClusterSize c) by (subst c2; simpl; congruence).
  assert (Emap : c_map_ c2 = c_map_ c) by (subst c2; simpl; congruence).
  rewrite E2, Emin, Emap.
  set (n := Z.of_nat (length (c_markers_ c ++ [m]))).
  set (h2 := if (n <? c_minClusterSize c)%Z
                && map_neq (getMap (h1 m)) (Some (c_map_ c))
             then setMap h1 m (Some (c_map_ c)) else h1).
  set (h3 := if (n =? c_minClusterSize c)%Z
             then setMap_all h2 (c_markers_ c ++ [m]) None else h2).
  set (h4 := if (n >=? c_minClusterSize c)%Z then setMap h3 m None else h3).
  unfold Cluster_updateIcon. rewrite E2, Emin, Emap. fold n.
  intros Heq k Hk Hcase.
  assert (G2 : getMap (h2 k) = getMap (h k)).
  { subst h2. destruct (_ && _);
      [rewrite getMap_setMap_other by exact Hk|]; subst h1; apply getMap_set_isAdded. }
  assert (Hout : ~ In k (c_markers_ c) -> ~ In k (c_markers_ c ++ [m])).
  { intros H F. apply in_app_or in F. destruct F as [F|[F|[]]];
      [exact (H F) | apply Hk; symmetry; exact F]. }
  assert (G3 : getMap (h3 k) = getMap (h k)).
  { subst h3. destruct (n =? c_minClusterSize c)%Z eqn:En; [|exact G2].
    destruct Hcase as [Hc|[_ Hc]].
    - rewrite getMap_setMap_all_notin by (apply Hout; exact Hc). exact G2.
    - apply Z.eqb_eq in En. contradiction. }
  assert (G4 : getMap (h4 k) = getMap (h k)).
  { subst h4. destruct (n >=? c_minClusterSize c)%Z;
      [rewrite getMap_setMap_other by exact Hk|]; exact G3. }
  destruct (above_maxZoom (maxZoom e) (getZoom v)) eqn:Hab.
  - injection Heq as <- _ _.
    destruct Hcase as [Hc|[Hc _]]; [|discriminate].
    rewrite getMap_setMap_all_notin by (apply Hout; exact Hc). exact G4.
  - destruct (n <? c_minClusterSize c)%Z; injection Heq as <- _ _; exact G4.
Qed.

(** An add to a cluster that shows as it should, or to a new one, leaves it
    showing as it should. *)
Lemma addMarker_presented e v h c m h' c' r :
  ~ In m (c_markers_ c) ->
  (c_markers_ c = [] /\ visible_ (clusterIcon_ c) = false) \/ presented e v h c ->
  Cluster_addMarker e v h c m = (h', c', r) ->
  presented e v h' c'.
Proof.
  intros Hnew Hbefore Hadd.
  destruct (addMarker_new_member e v h c m Hnew)
    as (h0 & c0 & Hadd0 & Hms & _ & Hmap & Hmin & _).
  rewrite Hadd in Hadd0. injection Hadd0 as <- <- _.
  pose proof (addMarker_visibility e v h c m Hnew _ _ _ Hadd) as Hv. simpl in Hv.
  destruct Hv as (V1 & V2 & V3 & V4 & V5 & V6).
  pose proof (addMarker_maps_kept e v h c m Hnew _ _ _ Hadd) as Hkept.
  unfold presented in *. rewrite Hms, Hmap, Hmin.
  set (n' := Z.of_nat (length (c_markers_ c ++ [m]))) in *.
  assert (Hn : Z.of_nat (length (c_markers_ c)) = (n' - 1)%Z).
  { subst n'. rewrite length_app. simpl. lia. }
  rewrite Hn in Hbefore.
  destruct (above_maxZoom (maxZoom e) (getZoom v)) eqn:Hab; simpl in *.
  - destruct (V6 eq_refl) as [Hall Hicon]. split; [exact Hall|].
    rewrite Hicon. destruct Hbefore as [[_ Hb]|[_ Hb]]; exact Hb.
  - destruct (n' <? c_minClusterSize c)%Z eqn:Hlt.
    + apply Z.ltb_lt in Hlt. split; [|apply V2; [reflexivity | exact Hlt]].
      intros k Hk. apply in_app_or in Hk. destruct Hk as [Hk|[<-|[]]];
        [|apply V1; exact Hlt].
      assert (Hkm : k <> m) by (intro E; apply Hnew; rewrite <- E; exact Hk).
      rewrite (Hkept k Hkm) by (right; split; [reflexivity | lia]).
      destruct Hbefore as [[He _]|Hb]; [rewrite He in Hk; destruct Hk|].
      replace (n' - 1 <? c_minClusterSize c)%Z with true in Hb
        by (symmetry; apply Z.ltb_lt; lia).
      apply Hb. exact Hk.
    + apply Z.ltb_ge in Hlt.
      destruct (Z.eq_dec n' (c_minClusterSize c)) as [Heq|Hne].
      * destruct (V3 eq_refl Heq) as [Hall Hvis].
        split; [exact Hall|]. split; [exact Hvis|]. apply V5; [reflexivity | lia].
      * assert (Hgt : (c_minClusterSize c < n')%Z) by lia.
        destruct (V4 eq_refl Hgt) as [Hm Hvis].
        split; [|split; [exact Hvis | apply V5; [reflexivity | lia]]].
        intros k Hk. apply in_app_or in Hk. destruct Hk as [Hk|[<-|[]]]; [|exact Hm].
        assert (Hkm : k <> m) by (intro E; apply Hnew; rewrite <- E; exact Hk).
        rewrite (Hkept k Hkm) by (right; split; [reflexivity | exact Hne]).
        destruct Hbefore as [[He _]|Hb]; [rewrite He in Hk; destruct Hk|].
        replace (n' - 1 <? c_minClusterSize c)%Z with false in Hb
          by (symmetry; apply Z.ltb_ge; lia).
        apply Hb. exact Hk.
Qed.

(** The inner loop keeps the cluster showing as it should and leaves the
    markers it does not take as they were. *)
Lemma absorb_presented e v : forall nodes h c h' c',
  presented e v h c ->
  (forall k, In k (c_markers_ c) -> isAdded (h k) = true) ->
  fold_left (absorb e v) nodes (h, c) = (h', c') ->
  presented e v h' c'
  /\ (forall k, ~ In k (c_markers_ c') -> getMap (h' k) = getMap (h k)).
Proof.
  induction nodes as [|n nodes IH]; intros h c h' c' Hp Hfl Hf.
  - simpl in Hf. injection Hf as <- <-. split; [exact Hp | reflexivity].
  - cbn [fold_left] in Hf. remember (RBush.n_marker n) as m eqn:Em.
    assert (Habs : absorb e v (h, c) n =
                   if isAdded (h m) then (h, c)
                   else if negb (isClusterable e m) then (h, c)
                   else let '(h', c', _) := Cluster_addMarker e v h c m in (h', c'))
      by (subst m; reflexivity).
    rewrite Habs in Hf. clear Habs Em.
    destruct (isAdded (h m)) eqn:Hm; [apply (IH h c); assumption|].
    destruct (isClusterable e m); simpl in Hf; [|apply (IH h c); assumption].
    assert (Hnew : ~ In m (c_markers_ c)).
    { intro F. rewrite (Hfl m F) in Hm. discriminate. }
    destruct (addMarker_new_member e v h c m Hnew)
      as (h1 & c1 & Hadd & Hms1 & _ & _ & _ & _ & _ & _ & Hfl1 & _).
    rewrite Hadd in Hf.
    pose proof (addMarker_presented e v h c m h1 c1 true Hnew (or_intror Hp) Hadd) as Hp1.
    assert (Hflag1 : forall k, In k (c_markers_ c1) -> isAdded (h1 k) = true).
    { intros k Hk. rewrite Hfl1. rewrite Hms1 in Hk.
      destruct (Nat.eqb_spec k m) as [_|Hne]; [reflexivity|].
      apply in_app_or in Hk. destruct Hk as [Hk|[Hk|[]]];
        [apply Hfl; exact Hk | exfalso; apply Hne; symmetry; exact Hk]. }
    destruct (IH h1 c1 h' c' Hp1 Hflag1 Hf) as [Hp' Hframe].
    split; [exact Hp'|].
    intros k Hk. rewrite (Hframe k Hk).
    destruct (absorb_fold e v (fun j => isAdded (h1 j) && negb (existsb (Nat.eqb j) (c_markers_ c1)))
                nodes h1 c1) as (h'' & c'' & Hf' & Hms'' & _).
    { intro j. destruct (existsb (Nat.eqb j) (c_markers_ c1)) eqn:Ej.
      - apply existsb_eqb_In in Ej. rewrite (Hflag1 j Ej). reflexivity.
      - rewrite andb_true_r, orb_false_r. reflexivity. }
    assert (Hpr : (h'', c'') = (h', c')).
    { rewrite <- Hf'. exact Hf. }
    injection Hpr as -> ->.
    assert (Hk1 : ~ In k (c_markers_ c1)).
    { intro F. apply Hk. rewrite Hms''. apply in_or_app. left. exact F. }
    assert (Hkm : k <> m).
    { intro E. apply Hk1. rewrite Hms1, E. apply in_or_app. right. left. reflexivity. }
    apply (addMarker_maps_kept e v h c m Hnew _ _ _ Hadd k Hkm).
    left. intro F. apply Hk1. rewrite Hms1. apply in_or_app. left. exact F.
Qed.

Lemma presented_by e e' v v' h h' c :
  maxZoom e' = maxZoom e -> getZoom v' = getZoom v ->
  (forall k, In k (c_markers_ c) -> getMap (h' k) = getMap (h k)) ->
  presented e v h c -> presented e' v' h' c.
Proof.
  intros Ez Ev Hm. unfold presented. rewrite Ez, Ev.
  destruct (_ || _).
  - intros [H1 H2]. split; [|exact H2]. intros k Hk. rewrite Hm by exact Hk. auto.
  - intros [H1 H2]. split; [|exact H2]. intros k Hk. rewrite Hm by exact Hk. auto.
Qed.

Lemma absorb_fields e v : forall nodes h c h' c',
  fold_left (absorb e v) nodes (h, c) = (h', c') ->
  c_minClusterSize c' = c_minClusterSize c /\ c_map_ c' = c_map_ c.
Proof.
  induction nodes as [|n nodes IH]; intros h c h' c' Hf.
  - simpl in Hf. injection Hf as <- <-. auto.
  - cbn [fold_left] in Hf. unfold absorb at 2 in Hf.
    destruct (isAdded (h (RBush.n_marker n))); [apply (IH _ _ _ _ Hf)|].
    destruct (negb (isClusterable e (RBush.n_marker n))); [apply (IH _ _ _ _ Hf)|].
    destruct (in_dec Nat.eq_dec (RBush.n_marker n) (c_markers_ c)) as [Hi|Hi].
    + rewrite (addMarker_member _ _ _ _ _ Hi) in Hf. apply (IH _ _ _ _ Hf).
    + destruct (addMarker_new_member e v h c (RBush.n_marker n) Hi)
        as (h1 & c1 & Hadd & _ & _ & Hm & Hn & _).
      rewrite Hadd in Hf. destruct (IH _ _ _ _ Hf) as [I1 I2].
      split; congruence.
Qed.

(** The cluster a seedable marker founds shows as it should; its members
    were unflagged; every other marker keeps its map. *)
Lemma createClusters_step_presented mapBounds w m :
  seedable mapBounds w m = true ->
  exists c h',
    createClusters_step mapBounds w m
    = mkWorld (with_clusters (engine w) (clusters_ (engine w) ++ [c])) h'
              (surface w) (S (next_cluster w))
    /\ presented (engine w) (surface w) h' c
    /\ (forall k, In k (c_markers_ c) -> isAdded (store w k) = false)
    /\ (forall k, In k (c_markers_ c) -> isAdded (h' k) = true)
    /\ (forall k, ~ In k (c_markers_ c) -> getMap (h' k) = getMap (store w k))
    /\ c_minClusterSize c = minClusterSize (engine w)
    /\ c_map_ c = map_ (engine w).
Proof.
  intro Hs.
  destruct (createClusters_step_seed mapBounds w m Hs)
    as (c & h' & Hw & Hms & _ & Hfl & _).
  exists c, h'. split; [exact Hw|].
  assert (Hm : claimed (fun k => isAdded (store w k)) [] m = false).
  { unfold seedable in Hs. unfold claimed. simpl. rewrite orb_false_r.
    destruct (isAdded (store w m)); [discriminate Hs | reflexivity]. }
  destruct (group_of_unclaimed (fun k => isAdded (store w k))
              (isClusterable (engine w)) (near_markers w) [] m Hm) as [_ Gun].
  rewrite <- Hms in Gun.
  assert (Hun : forall k, In k (c_markers_ c) -> isAdded (store w k) = false).
  { intros k Hk. specialize (Gun k Hk). unfold claimed in Gun. simpl in Gun.
    rewrite orb_false_r in Gun. exact Gun. }
  assert (Hflagged : forall k, In k (c_markers_ c) -> isAdded (h' k) = true).
  { intros k Hk. rewrite Hfl. apply existsb_eqb_In in Hk. rewrite Hk.
    apply orb_true_r. }
  cut (presented (engine w) (surface w) h' c
       /\ (forall k, ~ In k (c_markers_ c) -> getMap (h' k) = getMap (store w k))
       /\ c_minClusterSize c = minClusterSize (engine w)
       /\ c_map_ c = map_ (engine w)).
  { intros (P & F & F1 & F2). repeat split; assumption. }
  clear Hun Hflagged Gun Hm Hms Hfl.
  unfold seedable in Hs.
  apply andb_true_iff in Hs. destruct Hs as [Hs El].
  apply andb_true_iff in Hs. destruct Hs as [Hf Hin].
  apply negb_true_iff in Hf.
  unfold createClusters_step in Hw. rewrite Hf, Hin, El in Hw. cbn [negb] in Hw.
  cbv zeta in Hw.
  set (e := engine w) in *. set (v := surface w) in *.
  destruct (Cluster_addMarker e v (store w) (Cluster_new e (next_cluster w)) m)
    as [[h1 c1] r1] eqn:Hadd.
  match type of Hw with
  | context [fold_left ?f ?l ?a] => destruct (fold_left f l a) as [h2 c2] eqn:Hfold
  end.
  injection Hw as Hcs Hh.
  apply app_inv_head in Hcs. injection Hcs as ->. subst h2.
  assert (Hnew : ~ In m (c_markers_ (Cluster_new e (next_cluster w))))
    by (intros []).
  pose proof (addMarker_presented e v (store w) (Cluster_new e (next_cluster w)) m
                h1 c1 r1 Hnew (or_introl (conj eq_refl eq_refl)) Hadd) as Hp1.
  destruct (addMarker_new_member e v (store w) (Cluster_new e (next_cluster w)) m Hnew)
    as (h0 & c0 & Hadd0 & Hms1 & _ & Hmap1 & Hmin1 & _ & _ & _ & Hfl1 & _).
  rewrite Hadd in Hadd0. injection Hadd0 as <- <- _. simpl in Hms1, Hmap1, Hmin1.
  destruct (absorb_fields e v _ _ _ _ _ Hfold) as [Fmin Fmap].
  assert (Hflag1 : forall k, In k (c_markers_ c1) -> isAdded (h1 k) = true).
  { intros k Hk. rewrite Hms1 in Hk. destruct Hk as [<-|[]].
    rewrite Hfl1, Nat.eqb_refl. reflexivity. }
  destruct (absorb_presented e v _ h1 c1 h' c Hp1 Hflag1 Hfold) as [Hp Hframe].
  split; [exact Hp|]. split; [|split; congruence].
  intros k Hk. rewrite (Hframe k Hk).
  destruct (absorb_fold e v
              (fun j => isAdded (h1 j) && negb (existsb (Nat.eqb j) (c_markers_ c1)))
              (RBush.search
                 (boundsToArray
                    (getExtendedBounds e v
                       (mkLatLngBounds (getPosition (store w m)) (getPosition (store w m)))))
                 (tree_ e)) h1 c1) as (h'' & c'' & Hf' & Hms'' & _).
  { intro j. destruct (existsb (Nat.eqb j) (c_markers_ c1)) eqn:Ej.
    - apply existsb_eqb_In in Ej. rewrite (Hflag1 j Ej). reflexivity.
    - rewrite andb_true_r, orb_false_r. reflexivity. }
  assert (Hpr : (h'', c'') = (h', c)) by (rewrite <- Hf'; exact Hfold).
  injection Hpr as -> ->.
  assert (Hkm : k <> m).
  { intro E. apply Hk. rewrite Hms'', Hms1, E. left. reflexivity. }
  apply (addMarker_maps_kept e v (store w) (Cluster_new e (next_cluster w)) m Hnew
           _ _ _ Hadd k Hkm).
  left. intros [].
Qed.

Lemma createClusters_step_keeps_flagged mapBounds w m k :
  isAdded (store w k) = true ->
  getMap (store (createClusters_step mapBounds w m) k) = getMap (store w k).
Proof.
  intro Hk. destruct (seedable mapBounds w m) eqn:Hs;
    [|rewrite createClusters_step_skip by exact Hs; reflexivity].
  destruct (createClusters_step_presented mapBounds w m Hs)
    as (c & h' & Hw & _ & Hun & _ & Hframe & _).
  rewrite Hw. simpl. apply Hframe. intro F. rewrite (Hun k F) in Hk. discriminate.
Qed.

Lemma pass_keeps_flagged mapBounds : forall ms w k,
  isAdded (store w k) = true ->
  getMap (store (fold_left (createClusters_step mapBounds) ms w) k) = getMap (store w k).
Proof.
  induction ms as [|m ms IH]; intros w k Hk; simpl; [reflexivity|].
  destruct (createClusters_step_effect mapBounds w m) as (_ & F & _).
  rewrite IH by (apply F; exact Hk).
  apply createClusters_step_keeps_flagged. exact Hk.
Qed.

Lemma pass_presented mapBounds : forall ms w,
  let w' := fold_left (createClusters_step mapBounds) ms w in
  exists new,
    clusters_ (engine w') = clusters_ (engine w) ++ new
    /\ forall c, In c new ->
         presented (engine w) (surface w) (store w') c
         /\ c_minClusterSize c = minClusterSize (engine w)
         /\ c_map_ c = map_ (engine w).
Proof.
  induction ms as [|m ms IH]; intro w; simpl.
  - exists []. rewrite app_nil_r. split; [reflexivity | intros c []].
  - destruct (seedable mapBounds w m) eqn:Hs.
    + destruct (createClusters_step_presented mapBounds w m Hs)
        as (c & h' & Hw & Hp & _ & Hfl & _ & Hmin & Hmap).
      rewrite Hw.
      set (w1 := mkWorld (with_clusters (engine w) (clusters_ (engine w) ++ [c])) h'
                         (surface w) (S (next_cluster w))).
      destruct (IH w1) as (new & Hcl & Hall).
      exists (c :: new). split.
      * rewrite Hcl. simpl. rewrite <- app_assoc. reflexivity.
      * intros k [<-|Hk].
        -- split; [|split; assumption].
           apply presented_by with (e := engine w) (v := surface w) (h := h');
             [reflexivity | reflexivity | | exact Hp].
           intros j Hj. apply (pass_keeps_flagged mapBounds ms w1 j). apply Hfl. exact Hj.
        -- destruct (Hall k Hk) as (P & F1 & F2). split; [|split; assumption].
           apply presented_by
             with (e := engine w1) (v := surface w1)
                  (h := store (fold_left (createClusters_step mapBounds) ms w1));
             [reflexivity | reflexivity | reflexivity | exact P].
    + rewrite createClusters_step_skip by exact Hs. apply IH.
Qed.

(** X13.  Each cluster a pass creates ends the pass showing as its size and
    the zoom require: when the zoom exceeds a configured [maxZoom], or the
    cluster has fewer than [minimumClusterSize] members, its members are on
    the map and its icon is hidden; otherwise all its members are off the
    map and its icon is shown at its centre. *)
Theorem pass_presents_new_clusters (w w' : World) :
  createClusters_ w = Returns w' ->
  exists new,
    clusters_ (engine w') = clusters_ (engine w) ++ new
    /\ forall c, In c new ->
         if above_maxZoom (maxZoom (engine w)) (getZoom (surface w))
            || (Z.of_nat (length (c_markers_ c)) <? minClusterSize (engine w))%Z
         then
           (forall k, In k (c_markers_ c) -> getMap (store w' k) = Some (map_ (engine w)))
           /\ visible_ (clusterIcon_ c) = false
         else
           (forall k, In k (c_markers_ c) -> getMap (store w' k) = None)
           /\ visible_ (clusterIcon_ c) = true
           /\ center (clusterIcon_ c) = center_ c.
Proof.
  unfold createClusters_. destruct (ready_ (engine w)); simpl.
  - destruct (getBounds (surface w)) as [mb|]; [|discriminate].
    intro H. injection H as <-.
    match goal with
    | |- context [fold_left (createClusters_step ?b) ?ms ?x] =>
        destruct (pass_presented b ms x) as (new & Hcl & Hall)
    end.
    exists new. split; [exact Hcl|].
    intros c Hc. destruct (Hall c Hc) as (P & F1 & F2).
    unfold presented in P. rewrite F1, F2 in P. exact P.
  - intro H. injection H as <-. exists []. rewrite app_nil_r.
    split; [reflexivity | intros c []].
Qed.

Lemma pass_presents_new_clusters_witness :
  exists w' new,
    createClusters_ tracked_world = Returns w'
    /\ clusters_ (engine w') = clusters_ (engine tracked_world) ++ new
    /\ length new = 2%nat.
Proof.
  assert (E : exists w', createClusters_ tracked_world = Returns w').
  { eexists. unfold createClusters_. simpl. reflexivity. }
  destruct E as [w' E].
  destruct (pass_presents_new_clusters tracked_world w' E) as (new & Hcl & _).
  exists w', new. split; [exact E|]. split; [exact Hcl|].
  assert (L : option_map (fun x => length (clusters_ (engine x)))
                (match createClusters_ tracked_world with
                 | Returns x => Some x | Throws _ => None end) = Some 2%nat)
    by (vm_compute; reflexivity).
  rewrite E in L. simpl in L. injection L as L. rewrite Hcl in L. exact L.
Defined.

(** X14.  A pass leaves every marker that was already flagged as it was:
    flag up, same position, attached to the same map or to none. *)
Theorem pass_leaves_clustered_markers (w w' : World) (k : marker) :
  createClusters_ w = Returns w' ->
  isAdded (store w k) = true ->
  isAdded (store w' k) = true
  /\ getMap (store w' k) = getMap (store w k)
  /\ getPosition (store w' k) = getPosition (store w k).
Proof.
  intros Hrun Hk.
  destruct (createClusters_effect w w' Hrun) as ((Hpos & _) & Hfl).
  split; [apply Hfl; exact Hk|]. split; [|apply Hpos].
  unfold createClusters_ in Hrun. destruct (ready_ (engine w)); simpl in Hrun.
  - destruct (getBounds (surface w)) as [mb|]; [|discriminate].
    injection Hrun as <-. apply pass_keeps_flagged. exact Hk.
  - injection Hrun as <-. reflexivity.
Qed.

Lemma pass_leaves_clustered_markers_witness :
  exists w',
    createClusters_ (with_store tracked_world (set_isAdded Example.markers0 0%nat true))
    = Returns w'
    /\ getMap (store w' 0%nat) = None.
Proof.
  eexists. split.
  - unfold createClusters_. simpl. reflexivity.
  - apply (pass_leaves_clustered_markers
             (with_store tracked_world (set_isAdded Example.markers0 0%nat true))).
    + unfold createClusters_. simpl. reflexivity.
    + reflexivity.
Defined.

(** ** The members of a cluster *)

Lemma remove_first_not_In m : forall ms, ~ In m ms -> remove_first m ms = ms.
Proof.
  induction ms as [|k ms IH]; intro H; simpl; [reflexivity|].
  destruct (Nat.eqb_spec k m) as [E|_].
  - exfalso. apply H. left. exact E.
  - rewrite IH; [reflexivity|]. intro F. apply H. right. exact F.
Qed.

Lemma remove_first_keeps_NoDup m : forall ms, NoDup ms -> NoDup (remove_first m ms).
Proof.
  induction ms as [|k ms IH]; intro H; simpl; [constructor|].
  inversion H as [|? ? Hk Hnd]; subst.
  destruct (Nat.eqb k m); [exact Hnd|].
  constructor; [|apply IH; exact Hnd].
  intro F. apply Hk. eapply remove_first_In. exact F.
Qed.

(** X15.  A cluster's member list stays free of duplicates under
    [addMarker] and [removeMarker].  [removeMarker] on a member takes it out
    of the list and lowers its flag, and nothing else: the centre, the
    bounds, the icon and every marker's map are left as they were, so a
    marker the cluster had hidden stays hidden; on a marker that is not a
    member it changes nothing and returns [false]. *)
Theorem Cluster_members_stay_distinct e v h c m :
  NoDup (c_markers_ c) ->
  NoDup (c_markers_ (snd (fst (Cluster_addMarker e v h c m))))
  /\ (In m (c_markers_ c) ->
      exists h' c',
        Cluster_removeMarker h c m = (h', c', true)
        /\ NoDup (c_markers_ c') /\ ~ In m (c_markers_ c')
        /\ (forall k, k <> m -> (In k (c_markers_ c') <-> In k (c_markers_ c)))
        /\ isAdded (h' m) = false
        /\ (forall k, getMap (h' k) = getMap (h k))
        /\ center_ c' = center_ c /\ bounds_ c' = bounds_ c
        /\ clusterIcon_ c' = clusterIcon_ c)
  /\ (~ In m (c_markers_ c) -> Cluster_removeMarker h c m = (h, c, false)).
Proof.
  intro Hnd. split; [|split].
  - destruct (in_dec Nat.eq_dec m (c_markers_ c)) as [Hin|Hnew].
    + rewrite (addMarker_member e v h c m Hin). exact Hnd.
    + destruct (addMarker_new_member e v h c m Hnew) as (h' & c' & Hadd & Hms & _).
      rewrite Hadd. simpl. rewrite Hms.
      apply NoDup_app; [exact Hnd | repeat constructor; intros [] |].
      intros a Ha [<-|[]]. exact (Hnew Ha).
  - intro Hin. unfold Cluster_removeMarker, Cluster_isMarkerAlreadyAdded.
    rewrite (proj2 (existsb_eqb_In m (c_markers_ c)) Hin).
    eexists. eexists. split; [reflexivity|]. simpl. repeat split.
    + apply remove_first_keeps_NoDup. exact Hnd.
    + apply remove_first_NoDup. exact Hnd.
    + apply remove_first_In.
    + intro Hk. apply remove_first_other; assumption.
    + rewrite isAdded_set_isAdded, Nat.eqb_refl. reflexivity.
    + intro k. apply getMap_set_isAdded.
  - intro Hnew. unfold Cluster_removeMarker, Cluster_isMarkerAlreadyAdded.
    rewrite (proj2 (existsb_eqb_not_In m (c_markers_ c)) Hnew). reflexivity.
Qed.

Lemma Cluster_members_stay_distinct_witness :
  Cluster_removeMarker Example.markers0
    (with_members (Cluster_new (Example.clusterer 2 None false) 0) [0; 1]%nat) 5%nat
  = (Example.markers0,
     with_members (Cluster_new (Example.clusterer 2 None false) 0) [0; 1]%nat, false).
Proof.
  destruct (Cluster_members_stay_distinct
              (Example.clusterer 2 None false) (Example.view 5) Example.markers0
              (with_members (Cluster_new (Example.clusterer 2 None false) 0) [0; 1]%nat)
              5%nat) as (_ & _ & H).
  - simpl. constructor; [intros [E|[]]; discriminate|].
    constructor; [intros [] | constructor].
  - apply H. simpl. intros [E|[E|[]]]; discriminate.
Defined.

(** ** Bounds *)

Lemma contains_spec b p :
  LatLngBounds_contains b p = true <->
  lat (getSouthWest b) <= lat p /\ lat p <= lat (getNorthEast b)
  /\ lng (getSouthWest b) <= lng p /\ lng p <= lng (getNorthEast b).
Proof.
  unfold LatLngBounds_contains. rewrite !andb_true_iff, !Qle_bool_iff. tauto.
Qed.

Lemma extend_keeps b p q :
  LatLngBounds_contains b q = true ->
  LatLngBounds_contains (LatLngBounds_extend b p) q = true.
Proof.
  rewrite !contains_spec. simpl. intros (H1 & H2 & H3 & H4).
  repeat split.
  - eapply Qle_trans; [apply Q.le_min_l | exact H1].
  - eapply Qle_trans; [exact H2 | apply Q.le_max_l].
  - eapply Qle_trans; [apply Q.le_min_l | exact H3].
  - eapply Qle_trans; [exact H4 | apply Q.le_max_l].
Qed.

Lemma getExtendedBounds_keeps e v b q :
  LatLngBounds_contains b q = true ->
  LatLngBounds_contains (getExtendedBounds e v b) q = true.
Proof.
  intro H. unfold getExtendedBounds. cbv zeta. apply extend_keeps, extend_keeps, H.
Qed.

(** X16.  Expanding bounds by the grid size never loses a point, whatever
    the projection does: the expanded bounds contain every point of the
    bounds they were made from.  So the rectangle searched around a marker
    contains the marker's own record, and a marker that has its record in
    the index is among the markers its own search returns. *)
Theorem expanded_bounds_contain_the_original :
  (forall e v b q,
     LatLngBounds_contains b q = true ->
     LatLngBounds_contains (getExtendedBounds e v b) q = true)
  /\ (forall e v h m,
        RBush.inside
          (boundsToArray
             (getExtendedBounds e v
                (mkLatLngBounds (getPosition (h m)) (getPosition (h m)))))
          (getMarkerNode h m) = true)
  /\ (forall w m,
        In (getMarkerNode (store w) m) (tree_ (engine w)) ->
        In m (near_markers w m)).
Proof.
  assert (Own : forall e v h m,
     RBush.inside
       (boundsToArray
          (getExtendedBounds e v
             (mkLatLngBounds (getPosition (h m)) (getPosition (h m)))))
       (getMarkerNode h m) = true).
  { intros e v h m.
    assert (H : LatLngBounds_contains
                  (getExtendedBounds e v
                     (mkLatLngBounds (getPosition (h m)) (getPosition (h m))))
                  (getPosition (h m)) = true).
    { apply getExtendedBounds_keeps. apply contains_spec. simpl.
      repeat split; apply Qle_refl. }
    apply contains_spec in H. destruct H as (H1 & H2 & H3 & H4).
    unfold RBush.inside, boundsToArray, getMarkerNode. simpl.
    rewrite !andb_true_iff, !Qle_bool_iff. repeat split.
    - eapply Qle_trans; [apply Q.le_min_r | exact H1].
    - eapply Qle_trans; [exact H2 | apply Q.le_max_l].
    - eapply Qle_trans; [apply Q.le_min_r | exact H3].
    - eapply Qle_trans; [exact H4 | apply Q.le_max_l]. }
  split; [exact getExtendedBounds_keeps|]. split; [exact Own|].
  intros w m Hin. unfold near_markers.
  apply in_map_iff. exists (getMarkerNode (store w) m). split; [reflexivity|].
  apply filter_In. split; [exact Hin | apply Own].
Qed.

Lemma expanded_bounds_contain_the_original_witness :
  In 1%nat (near_markers tracked_world 1%nat).
Proof.
  apply (proj2 (proj2 expanded_bounds_contain_the_original) tracked_world 1%nat).
  simpl. right. left. reflexivity.
Defined.

(** ** The centre of the clusters of a pass *)

Lemma centred_by e e' h h' c :
  averageCenter e' = averageCenter e ->
  (forall k, getPosition (h' k) = getPosition (h k)) ->
  centred e h c -> centred e' h' c.
Proof.
  intros Ea Hp (Havg & s & rest & Hms & H0 & H1). unfold centred. rewrite Ea.
  split; [exact Havg|]. exists s, rest. split; [exact Hms|]. split; [exact H0|].
  intro F. rewrite Hp. apply H1. exact F.
Qed.

Lemma addMarker_centred e v h c m h' c' r :
  centred e h c ->
  Cluster_addMarker e v h c m = (h', c', r) ->
  centred e h' c' /\ (forall k, getPosition (h' k) = getPosition (h k)).
Proof.
  intros Hc Hadd.
  destruct (in_dec Nat.eq_dec m (c_markers_ c)) as [Hin|Hnew].
  - rewrite (addMarker_member e v h c m Hin) in Hadd. injection Hadd as <- <- _.
    split; [exact Hc | reflexivity].
  - destruct Hc as (Havg & s & rest & Hms & H0 & H1).
    destruct (addMarker_new_member e v h c m Hnew)
      as (h0 & c0 & Hadd0 & Hms' & _ & _ & _ & Havg' & Hcen & _ & _ & Hpos).
    rewrite Hadd in Hadd0. injection Hadd0 as <- <- _.
    split; [|exact Hpos].
    split; [congruence|]. exists s, (rest ++ [m]).
    split; [rewrite Hms', Hms; reflexivity|]. split.
    + rewrite Hcen. unfold Cluster_recenter.
      destruct (center_ c) as [p|] eqn:Ec; [|contradiction].
      destruct (c_averageCenter c); simpl; [discriminate | rewrite Ec; discriminate].
    + intro F. specialize (H1 F). rewrite Hcen, Hpos. unfold Cluster_recenter.
      destruct (center_ c) as [p|] eqn:Ec; [|discriminate].
      rewrite Havg, F, Ec. exact H1.
Qed.

Lemma first_add_centred e v h id m h' c' r :
  Cluster_addMarker e v h (Cluster_new e id) m = (h', c', r) ->
  centred e h' c' /\ (forall k, getPosition (h' k) = getPosition (h k)).
Proof.
  intro Hadd.
  destruct (addMarker_new_member e v h (Cluster_new e id) m (fun F : False => F))
    as (h0 & c0 & Hadd0 & Hms' & _ & _ & _ & Havg' & Hcen & _ & _ & Hpos).
  rewrite Hadd in Hadd0. injection Hadd0 as <- <- _.
  split; [|exact Hpos].
  split; [exact Havg'|]. exists m, []. split; [exact Hms'|]. split.
  - rewrite Hcen. simpl. discriminate.
  - intros _. rewrite Hcen, Hpos. reflexivity.
Qed.

Lemma absorb_centred e v : forall nodes h c h' c',
  centred e h c ->
  fold_left (absorb e v) nodes (h, c) = (h', c') ->
  centred e h' c' /\ (forall k, getPosition (h' k) = getPosition (h k)).
Proof.
  induction nodes as [|n nodes IH]; intros h c h' c' Hc Hf.
  - simpl in Hf. injection Hf as <- <-. split; [exact Hc | reflexivity].
  - cbn [fold_left] in Hf. unfold absorb at 2 in Hf.
    destruct (isAdded (h (RBush.n_marker n))); [apply (IH _ _ _ _ Hc Hf)|].
    destruct (negb (isClusterable e (RBush.n_marker n))); [apply (IH _ _ _ _ Hc Hf)|].
    destruct (Cluster_addMarker e v h c (RBush.n_marker n)) as [[h1 c1] r1] eqn:Hadd.
    destruct (addMarker_centred e v h c _ h1 c1 r1 Hc Hadd) as [Hc1 Hp1].
    destruct (IH _ _ _ _ Hc1 Hf) as [Hc' Hp'].
    split; [exact Hc'|]. intro k. rewrite Hp', Hp1. reflexivity.
Qed.

Lemma createClusters_step_centred mapBounds w m :
  seedable mapBounds w m = true ->
  exists c h',
    createClusters_step mapBounds w m
    = mkWorld (with_clusters (engine w) (clusters_ (engine w) ++ [c])) h'
              (surface w) (S (next_cluster w))
    /\ centred (engine w) h' c
    /\ (forall k, getPosition (h' k) = getPosition (store w k)).
Proof.
  intro Hs. unfold seedable in Hs.
  apply andb_true_iff in Hs. destruct Hs as [Hs El].
  apply andb_true_iff in Hs. destruct Hs as [Hf Hin].
  apply negb_true_iff in Hf.
  unfold createClusters_step. rewrite Hf, Hin, El. cbn [negb]. cbv zeta.
  set (e := engine w). set (v := surface w).
  destruct (Cluster_addMarker e v (store w) (Cluster_new e (next_cluster w)) m)
    as [[h1 c1] r1] eqn:Hadd.
  destruct (first_add_centred e v (store w) (next_cluster w) m h1 c1 r1 Hadd)
    as [Hc1 Hp1].
  match goal with
  | |- context [fold_left ?f ?l ?a] => destruct (fold_left f l a) as [h2 c2] eqn:Hfold
  end.
  destruct (absorb_centred e v _ h1 c1 h2 c2 Hc1 Hfold) as [Hc2 Hp2].
  exists c2, h2. split; [reflexivity|]. split; [exact Hc2|].
  intro k. rewrite Hp2, Hp1. reflexivity.
Qed.

Lemma pass_centred mapBounds : forall ms w,
  let w' := fold_left (createClusters_step mapBounds) ms w in
  exists new,
    clusters_ (engine w') = clusters_ (engine w) ++ new
    /\ forall c, In c new -> centred (engine w) (store w) c.
Proof.
  induction ms as [|m ms IH]; intro w; simpl.
  - exists []. rewrite app_nil_r. split; [reflexivity | intros c []].
  - destruct (seedable mapBounds w m) eqn:Hs.
    + destruct (createClusters_step_centred mapBounds w m Hs)
        as (c & h' & Hw & Hc & Hpos).
      rewrite Hw.
      set (w1 := mkWorld (with_clusters (engine w) (clusters_ (engine w) ++ [c])) h'
                         (surface w) (S (next_cluster w))).
      destruct (IH w1) as (new & Hcl & Hall).
      exists (c :: new). split.
      * rewrite Hcl. simpl. rewrite <- app_assoc. reflexivity.
      * intros k [<-|Hk].
        -- apply centred_by with (e := engine w) (h := h');
             [reflexivity | | exact Hc].
           intro j. symmetry. apply Hpos.
        -- apply centred_by with (e := engine w1) (h := store w1);
             [reflexivity | | apply Hall; exact Hk].
           intro j. symmetry. apply Hpos.
    + rewrite createClusters_step_skip by exact Hs. apply IH.
Qed.

(** X18.  Every cluster a pass creates has a first member, its seed, and a
    centre; without [averageCenter] the centre is the seed's position. *)
Theorem pass_centres_new_clusters (w w' : World) :
  createClusters_ w = Returns w' ->
  exists new,
    clusters_ (engine w') = clusters_ (engine w) ++ new
    /\ forall c, In c new ->
         exists seed rest,
           c_markers_ c = seed :: rest
           /\ center_ c <> None
           /\ (averageCenter (engine w) = false ->
               center_ c = Some (getPosition (store w seed))).
Proof.
  unfold createClusters_. destruct (ready_ (engine w)); simpl.
  - destruct (getBounds (surface w)) as [mb|]; [|discriminate].
    intro H. injection H as <-.
    match goal with
    | |- context [fold_left (createClusters_step ?b) ?ms ?x] =>
        destruct (pass_centred b ms x) as (new & Hcl & Hall)
    end.
    exists new. split; [exact Hcl|].
    intros c Hc. destruct (Hall c Hc) as (_ & s & rest & Hms & H0 & H1).
    exists s, rest. split; [exact Hms|]. split; [exact H0 | exact H1].
  - intro H. injection H as <-. exists []. rewrite app_nil_r.
    split; [reflexivity | intros c []].
Qed.

Lemma pass_centres_new_clusters_witness :
  exists w' new,
    createClusters_ tracked_world = Returns w'
    /\ clusters_ (engine w') = clusters_ (engine tracked_world) ++ new
    /\ forall c, In c new ->
         exists seed rest,
           c_markers_ c = seed :: rest
           /\ center_ c = Some (getPosition (store tracked_world seed)).
Proof.
  assert (E : exists w', createClusters_ tracked_world = Returns w').
  { eexists. unfold createClusters_. simpl. reflexivity. }
  destruct E as [w' E].
  destruct (pass_centres_new_clusters tracked_world w' E) as (new & Hcl & Hall).
  exists w', new. split; [exact E|]. split; [exact Hcl|].
  intros c Hc. destruct (Hall c Hc) as (seed & rest & Hms & _ & Hcen).
  exists seed, rest. split; [exact Hms | apply Hcen; reflexivity].
Defined.

(** ** Removing several markers *)

Lemma removeMarker__effect w m :
  let w' := fst (removeMarker_ w m) in
  snd (removeMarker_ w m) = existsb (Nat.eqb m) (markers_ (engine w))
  /\ (forall k, In k (markers_ (engine w')) -> In k (markers_ (engine w)))
  /\ (forall n, In n (tree_ (engine w')) -> In n (tree_ (engine w)))
  /\ (In m (markers_ (engine w)) ->
      forall n, In n (tree_ (engine w')) -> RBush.n_marker n <> m)
  /\ (~ In m (markers_ (engine w)) -> w' = w)
  /\ (NoDup (markers_ (engine w)) ->
      NoDup (markers_ (engine w')) /\ ~ In m (markers_ (engine w'))).
Proof.
  unfold removeMarker_.
  destruct (existsb (Nat.eqb m) (markers_ (engine w))) eqn:E; simpl.
  - apply existsb_eqb_In in E. repeat split.
    + apply remove_first_In.
    + intros n Hn. rewrite remove_nodes_of_filter in Hn. apply filter_In in Hn. apply Hn.
    + intros _ n Hn. rewrite remove_nodes_of_filter in Hn. apply filter_In in Hn.
      destruct Hn as [_ Hn]. apply negb_true_iff, Nat.eqb_neq in Hn. exact Hn.
    + intro F. contradiction.
    + apply remove_first_keeps_NoDup. assumption.
    + apply remove_first_NoDup. assumption.
  - apply existsb_eqb_not_In in E. repeat split; auto; try contradiction.
Qed.

Lemma removeMarkers_loop_effect : forall (ms : list marker) (w : World) (b : bool),
  index_tracked w ->
  let res :=
    fold_left
      (fun (acc : World * bool) (m : marker) =>
         let '(w', removed) := acc in
         let '(w'', r) := removeMarker_ w' m in
         (w'', removed || r))
      ms (w, b) in
  snd res = b || existsb (fun m => existsb (Nat.eqb m) (markers_ (engine w))) ms
  /\ (forall k, In k (markers_ (engine (fst res))) -> In k (markers_ (engine w)))
  /\ (forall n, In n (tree_ (engine (fst res))) ->
                In n (tree_ (engine w)) /\ ~ In (RBush.n_marker n) ms)
  /\ (NoDup (markers_ (engine w)) ->
      forall m, In m ms -> ~ In m (markers_ (engine (fst res)))).
Proof.
  induction ms as [|m ms IH]; intros w b Hidx; simpl.
  - rewrite orb_false_r. repeat split; auto.
  - pose proof (removeMarker__effect w m) as He. simpl in He.
    pose proof (removeMarker__index w m Hidx) as Hidx1.
    destruct (removeMarker_ w m) as [w1 r] eqn:E. simpl in He, Hidx1.
    destruct He as (Er & Hsub & Htree & Hgone & Hsame & Hnd).
    destruct (IH w1 (b || r) Hidx1) as (I1 & I2 & I3 & I4).
    split; [|split; [|split]].
    + rewrite I1, Er, <- orb_assoc. f_equal.
      destruct (existsb (Nat.eqb m) (markers_ (engine w))) eqn:Em; [reflexivity|].
      simpl. apply existsb_eqb_not_In in Em. rewrite (Hsame Em). reflexivity.
    + intros k Hk. apply Hsub, I2, Hk.
    + intros n Hn. destruct (I3 n Hn) as [Hn1 Hrest].
      split; [apply Htree; exact Hn1|].
      intros [F|F]; [|exact (Hrest F)].
      destruct (in_dec Nat.eq_dec m (markers_ (engine w))) as [Hin|Hout].
      * apply (Hgone Hin n Hn1). symmetry. exact F.
      * rewrite (Hsame Hout) in Hn1. apply Hout. rewrite F. apply Hidx. exact Hn1.
    + intros Hnodup k [<-|Hk].
      * destruct (Hnd Hnodup) as [_ Hm]. intro F. apply Hm, I2, F.
      * destruct (Hnd Hnodup) as [Hnd1 _]. apply (I4 Hnd1 k Hk).
Qed.

(** What follows the loop of [removeMarkers] (lines 291-297) keeps the
    tracked list and the index, and decides the value returned. *)
Lemma removeMarkers_after_loop (w1 : World) (removed nodraw : bool) :
  let o := if negb nodraw && removed
           then let* w2 := redraw (resetViewport w1 false) in Returns (w2, true)
           else Returns (w1, false) in
  markers_ (engine (final fst o)) = markers_ (engine w1)
  /\ tree_ (engine (final fst o)) = tree_ (engine w1)
  /\ (forall w'' r, o = Returns (w'', r) -> r = negb nodraw && removed).
Proof.
  cbv zeta. destruct (negb nodraw && removed) eqn:Hgo.
  - pose proof (createClusters_final_setting (resetViewport w1 false)) as HS.
    apply same_setting_fields in HS. destruct HS as (Em & Et & _).
    unfold redraw.
    assert (Ew : final fst (let* w2 := createClusters_ (resetViewport w1 false)
                            in Returns (w2, true))
                 = final (fun x => x) (createClusters_ (resetViewport w1 false))).
    { destruct (createClusters_ (resetViewport w1 false)); reflexivity. }
    rewrite Ew, Em, Et. simpl.
    split; [reflexivity|]. split; [reflexivity|].
    intros w'' r Hrun.
    destruct (createClusters_ (resetViewport w1 false)); simpl in Hrun; [|discriminate].
    injection Hrun as _ <-. reflexivity.
  - simpl. split; [reflexivity|]. split; [reflexivity|].
    intros w'' r Hrun. injection Hrun as _ <-. reflexivity.
Qed.

(** X19.  [removeMarkers], given an array of the caller's own (not the one
    [getMarkers()] hands out) on an engine whose index holds tracked markers
    only, leaves no index record of any marker it was given; it removes from
    the tracked list nothing but occurrences of those markers, and when no
    marker was tracked twice none of them is tracked afterwards.  It returns
    [true] exactly when the redraw was not deferred and at least one of the
    markers was tracked. *)
Theorem removeMarkers_effect (w : World) (ms : list marker) (nodraw : bool) :
  index_tracked w ->
  let w' := perform w (RemoveMarkers (OwnArray ms) nodraw) in
  (forall n, In n (tree_ (engine w')) -> ~ In (RBush.n_marker n) ms)
  /\ (forall k, In k (markers_ (engine w')) -> In k (markers_ (engine w)))
  /\ (forall k, In k (markers_ (engine w)) -> ~ In k ms -> In k (markers_ (engine w')))
  /\ (NoDup (markers_ (engine w)) ->
      forall m, In m ms -> ~ In m (markers_ (engine w')))
  /\ (forall w'' r,
        removeMarkers w (OwnArray ms) nodraw = Returns (w'', r) ->
        r = negb nodraw
            && existsb (fun m => existsb (Nat.eqb m) (markers_ (engine w))) ms).
Proof.
  intro Hidx. simpl. unfold removeMarkers, removeMarkers_loop.
  pose proof (removeMarkers_loop_effect ms w false Hidx) as H. simpl in H.
  assert (Hkeep : forall (l : list marker) (x : World) (b : bool) (k : marker),
             In k (markers_ (engine x)) -> ~ In k l ->
             In k (markers_ (engine (fst
               (fold_left
                  (fun (acc : World * bool) (m : marker) =>
                     let '(w', removed) := acc in
                     let '(w'', r) := removeMarker_ w' m in
                     (w'', removed || r)) l (x, b)))))).
  { induction l as [|m l IH]; intros x b k Hk Hn; simpl; [exact Hk|].
    destruct (removeMarker_ x m) as [x1 r] eqn:E. apply IH.
    - assert (Ex : x1 = fst (removeMarker_ x m)) by (rewrite E; reflexivity).
      rewrite Ex. unfold removeMarker_.
      destruct (negb (existsb (Nat.eqb m) (markers_ (engine x)))); simpl; [exact Hk|].
      apply remove_first_other; [exact Hk|]. intro F. apply Hn. left. symmetry. exact F.
    - intro F. apply Hn. right. exact F. }
  specialize (Hkeep ms w false).
  destruct (fold_left _ ms (w, false)) as [w1 removed]. simpl in H, Hkeep.
  destruct H as (Hr & Hsub & Htree & Hgone).
  destruct (removeMarkers_after_loop w1 removed nodraw) as (Em & Et & Hret).
  cbv zeta in Em, Et, Hret. rewrite Em, Et.
  split; [intros n Hn; apply (Htree n Hn)|].
  split; [exact Hsub|]. split; [exact Hkeep|]. split; [exact Hgone|].
  intros w'' r Hrun. rewrite (Hret w'' r Hrun), Hr. reflexivity.
Qed.

Lemma removeMarkers_effect_witness :
  ~ In 1%nat
      (markers_ (engine (perform tracked_world (RemoveMarkers (OwnArray [1; 5]%nat) false)))).
Proof.
  destruct (removeMarkers_effect tracked_world [1; 5]%nat false) as (_ & _ & _ & H & _).
  - intros n Hn. simpl in Hn.
    destruct Hn as [<-|[<-|[<-|[]]]]; simpl; auto.
  - apply H.
    + simpl. repeat constructor; simpl; intuition discriminate.
    + left. reflexivity.
Defined.

(** ** Removing the markers of the engine's own array *)

Lemma remove_first_length m : forall ms,
  In m ms -> S (length (remove_first m ms)) = length ms.
Proof.
  induction ms as [|k ms IH]; intro H; simpl; [destruct H|].
  destruct (Nat.eqb_spec k m) as [E|E]; [reflexivity|].
  destruct H as [H|H]; [contradiction|]. simpl. rewrite (IH H). reflexivity.
Qed.

Lemma remove_first_middle m : forall p rest,
  ~ In m p -> remove_first m (p ++ m :: rest) = p ++ rest.
Proof.
  induction p as [|k p IH]; intros rest H; simpl.
  - rewrite Nat.eqb_refl. reflexivity.
  - destruct (Nat.eqb_spec k m) as [E|E].
    + exfalso. apply H. left. exact E.
    + rewrite IH; [reflexivity|]. intro F. apply H. right. exact F.
Qed.

Lemma nth_error_middle (m : marker) : forall p rest,
  nth_error (p ++ m :: rest) (length p) = Some m.
Proof. induction p as [|k p IH]; intro rest; simpl; [reflexivity | apply IH]. Qed.

Lemma nth_error_past (p : list marker) : forall i,
  (length p <= i)%nat -> nth_error p i = None.
Proof. intros i H. apply nth_error_None. exact H. Qed.

Lemma filter_twice {A : Type} (f g : A -> bool) : forall l,
  filter g (filter f l) = filter (fun x => f x && g x) l.
Proof.
  induction l as [|x l IH]; simpl; [reflexivity|].
  destruct (f x); simpl; [|exact IH].
  destruct (g x); rewrite IH; reflexivity.
Qed.

(** The loop over the engine's own array ends by itself: allowed more
    turns, it makes none of them. *)
Lemma removeMarkers_engine_array_ends : forall (fuel i : nat) (acc : World * bool) (more : nat),
  (length (markers_ (engine (fst acc))) - i <= fuel)%nat ->
  removeMarkers_engine_array (fuel + more) i acc
  = removeMarkers_engine_array fuel i acc.
Proof.
  induction fuel as [|fuel IH]; intros i acc more Hlen.
  - assert (Hnone : nth_error (markers_ (engine (fst acc))) i = None)
      by (apply nth_error_past; lia).
    destruct more; simpl; [reflexivity|]. rewrite Hnone. reflexivity.
  - simpl. destruct (nth_error (markers_ (engine (fst acc))) i) as [m|] eqn:En;
      [|reflexivity].
    apply IH. destruct acc as [w0 b]. simpl in *.
    apply nth_error_In in En.
    destruct (removeMarker__tracked w0 m En) as (w1 & E1 & Hms & _).
    rewrite E1. simpl. rewrite Hms.
    pose proof (remove_first_length m _ En). lia.
Qed.

(** The loop, from the place [length p] on, with [rest] still ahead. *)
Lemma removeMarkers_engine_array_effect : forall (fuel : nat) (rest p : list marker)
  (w : World) (b : bool),
  markers_ (engine w) = p ++ rest ->
  NoDup (p ++ rest) ->
  (length rest <= fuel)%nat ->
  let res := removeMarkers_engine_array fuel (length p) (w, b) in
  markers_ (engine (fst res)) = p ++ odd_places rest
  /\ tree_ (engine (fst res))
     = filter (fun n => negb (existsb (Nat.eqb (RBush.n_marker n)) (even_places rest)))
         (tree_ (engine w))
  /\ snd res = match rest with [] => b | _ => true end.
Proof.
  induction fuel as [|fuel IH]; intros rest p w b Hms Hnd Hlen.
  - destruct rest as [|r0 rest]; [|simpl in Hlen; lia].
    simpl. rewrite Hms. split; [reflexivity|]. split; [|reflexivity].
    symmetry. apply filter_keeps_all. intros n _. reflexivity.
  - destruct rest as [|r0 rest].
    + simpl. rewrite Hms, app_nil_r.
      rewrite nth_error_past by lia. simpl. rewrite Hms, app_nil_r.
      split; [reflexivity|]. split; [|reflexivity].
      symmetry. apply filter_keeps_all. intros n _. reflexivity.
    + cbn [removeMarkers_engine_array fst]. rewrite Hms, nth_error_middle.
      assert (Hin : In r0 (markers_ (engine w)))
        by (rewrite Hms; apply in_or_app; right; left; reflexivity).
      destruct (removeMarker__tracked w r0 Hin) as (w1 & E1 & Hms1 & Htr1 & _).
      rewrite E1.
      assert (Hr0 : ~ In r0 p).
      { intro F. apply NoDup_remove_2 in Hnd. apply Hnd, in_or_app. left. exact F. }
      rewrite Hms, (remove_first_middle r0 p rest Hr0) in Hms1.
      apply NoDup_remove_1 in Hnd.
      destruct rest as [|r1 rest].
      * rewrite app_nil_r in Hms1.
        assert (Hstop : removeMarkers_engine_array fuel (S (length p)) (w1, b || true)
                        = (w1, b || true)).
        { destruct fuel; [reflexivity|]. cbn [removeMarkers_engine_array fst].
          rewrite Hms1, nth_error_past by lia. reflexivity. }
        rewrite Hstop. simpl. rewrite Hms1, Htr1, app_nil_r, orb_true_r.
        split; [reflexivity|]. split; [|reflexivity].
        apply filter_ext. intro n. rewrite orb_false_r. reflexivity.
      * assert (Hms2 : markers_ (engine w1) = (p ++ [r1]) ++ rest)
          by (rewrite Hms1, <- app_assoc; reflexivity).
        assert (Hnd2 : NoDup ((p ++ [r1]) ++ rest))
          by (rewrite <- app_assoc; exact Hnd).
        assert (Hlen2 : (length rest <= fuel)%nat) by (simpl in Hlen; lia).
        assert (Hp : S (length p) = length (p ++ [r1]))
          by (rewrite length_app; simpl; lia).
        rewrite Hp.
        destruct (IH rest (p ++ [r1]) w1 (b || true) Hms2 Hnd2 Hlen2) as (I1 & I2 & I3).
        split; [rewrite I1, <- app_assoc; reflexivity|].
        split.
        -- rewrite I2, Htr1, filter_twice. apply filter_ext. intro n.
           simpl. rewrite negb_orb. reflexivity.
        -- rewrite I3, orb_true_r. destruct rest; reflexivity.
Qed.

(** X21.  [removeMarkers] handed the engine's own array, as in
    [removeMarkers(getMarkers())], reads it while [removeMarker_] shortens
    it, and so visits every other marker only.  When no marker is tracked
    twice, the markers that stood at the odd places (counting from 0) are
    still tracked afterwards, and the index has lost the records of the
    markers at the even places and no other; the call returns [true]
    exactly when the redraw was not deferred and a marker was tracked; and
    the loop ends by itself within as many turns as markers were tracked. *)
Theorem removeMarkers_of_engine_array (w : World) (nodraw : bool) :
  NoDup (markers_ (engine w)) ->
  let ms := markers_ (engine w) in
  let w' := perform w (RemoveMarkers EngineArray nodraw) in
  markers_ (engine w') = odd_places ms
  /\ tree_ (engine w')
     = filter (fun n => negb (existsb (Nat.eqb (RBush.n_marker n)) (even_places ms)))
         (tree_ (engine w))
  /\ (forall w'' r,
        removeMarkers w EngineArray nodraw = Returns (w'', r) ->
        r = negb nodraw && negb (Nat.eqb (length ms) 0))
  /\ (forall more,
        removeMarkers_engine_array (length ms + more) 0 (w, false)
        = removeMarkers_engine_array (length ms) 0 (w, false)).
Proof.
  intro Hnd. cbv zeta.
  pose proof (removeMarkers_engine_array_effect
                (length (markers_ (engine w))) (markers_ (engine w)) [] w false
                eq_refl Hnd (le_n _)) as H.
  cbv zeta in H. change (length (@nil marker)) with 0%nat in H.
  simpl perform. unfold removeMarkers, removeMarkers_loop.
  destruct (removeMarkers_engine_array (length (markers_ (engine w))) 0 (w, false))
    as [w1 removed] eqn:Eloop.
  simpl in H. destruct H as (Hms & Htr & Hr).
  destruct (removeMarkers_after_loop w1 removed nodraw) as (Em & Et & Hret).
  cbv zeta in Em, Et, Hret. rewrite Em, Et.
  split; [exact Hms|]. split; [exact Htr|]. split.
  - intros w'' r Hrun. rewrite (Hret w'' r Hrun), Hr.
    destruct (markers_ (engine w)); reflexivity.
  - intro more. rewrite <- Eloop.
    apply removeMarkers_engine_array_ends. simpl. lia.
Qed.

Lemma removeMarkers_of_engine_array_witness :
  markers_ (engine (perform tracked_world (RemoveMarkers EngineArray false))) = [1]%nat.
Proof.
  destruct (removeMarkers_of_engine_array tracked_world false) as (H & _).
  - simpl. repeat constructor; simpl; intuition discriminate.
  - rewrite H. reflexivity.
Defined.

(** ** Adding a marker in view *)

(** X20.  In the states in which flags and clusters agree, adding a marker
    that no cluster holds, with the engine ready, the map laid out, the
    marker inside the expanded viewport and eligible, ends with the marker
    flagged and in a cluster that [getMarkerCluster] finds. *)
Theorem addMarker_in_view_is_clustered (w : World) (m : marker) (mb : LatLngBounds) :
  reachable admissible w ->
  ~ In m (members w) ->
  ready_ (engine w) = true ->
  getBounds (surface w) = Some mb ->
  LatLngBounds_contains (getExtendedBounds (engine w) (surface w) mb)
    (getPosition (store w m)) = true ->
  isClusterable (engine w) m = true ->
  exists w' c,
    addMarker w m false = Returns w'
    /\ isAdded (store w' m) = true
    /\ getMarkerCluster w' m = Some c
    /\ In m (c_markers_ c).
Proof.
  intros Hreach Hm Hr Hb Hin El.
  assert (Hreach' : reachable admissible (perform w (AddMarker m false)))
    by (apply reachable_call; [exact Hreach | exact Hm]).
  apply reachable_consistent in Hreach'. simpl in Hreach'.
  unfold addMarker in *. cbn [negb] in *. unfold redraw in *.
  set (w2 := with_engine (pushMarkerTo_ w m)
               (with_tree (engine (pushMarkerTo_ w m))
                  (RBush.insert (getMarkerNode (store (pushMarkerTo_ w m)) m)
                     (tree_ (engine (pushMarkerTo_ w m)))))) in *.
  assert (Hmb : mkLatLngBounds (getSouthWest mb) (getNorthEast mb) = mb)
    by (destruct mb; reflexivity).
  assert (Hrun : exists w', createClusters_ w2 = Returns w').
  { unfold createClusters_.
    change (ready_ (engine w2)) with (ready_ (engine w)).
    change (surface w2) with (surface w). rewrite Hr, Hb. simpl. eexists. reflexivity. }
  destruct Hrun as [w' Hrun]. rewrite Hrun in Hreach'. simpl in Hreach'.
  destruct (createClusters_leaves_nothing w2 w' Hrun Hr) as (mb' & Hb' & HS & HU).
  change (surface w2) with (surface w) in Hb'. rewrite Hb in Hb'.
  injection Hb' as <-. rewrite Hmb in HU.
  destruct (same_setting_fields w2 w' HS) as (Em & _ & _ & _ & Ei).
  assert (Htracked : In m (markers_ (engine w'))).
  { rewrite Em. simpl. apply in_or_app. right. left. reflexivity. }
  specialize (HU m Htracked). unfold seedable in HU.
  destruct HS as (Hpos & _). rewrite Hpos, Ei in HU.
  change (getPosition (store w2 m)) with (getPosition (set_isAdded (store w) m false m)) in HU.
  rewrite getPosition_set_isAdded in HU.
  change (getExtendedBounds (engine w2) (surface w2) mb)
    with (getExtendedBounds (engine w) (surface w) mb) in HU.
  change (isClusterable (engine w2) m) with (isClusterable (engine w) m) in HU.
  rewrite Hin, El in HU. rewrite !andb_true_r in HU. apply negb_false_iff in HU.
  destruct Hreach' as (I1 & _ & I3).
  pose proof (holding_one m (clusters_ (engine w')) I1 (I3 m Htracked HU)) as Hone.
  exists w'.
  destruct (filter (fun k => Cluster_isMarkerAlreadyAdded k m) (clusters_ (engine w')))
    as [|c [|c' rest]] eqn:Hfilter; simpl in Hone; try discriminate.
  exists c. split; [exact Hrun|]. split; [exact HU|].
  assert (Hc : In c (filter (fun k => Cluster_isMarkerAlreadyAdded k m)
                       (clusters_ (engine w'))))
    by (rewrite Hfilter; left; reflexivity).
  apply filter_In in Hc. destruct Hc as [_ Hc].
  split; [|apply existsb_eqb_In; exact Hc].
  unfold getMarkerCluster. rewrite HU. simpl.
  rewrite find_is_first_kept, Hfilter. reflexivity.
Qed.

Lemma addMarker_in_view_is_clustered_witness :
  exists w' c,
    addMarker (perform (Example.world 2 None false 5) OnAdd) 3%nat false = Returns w'
    /\ isAdded (store w' 3%nat) = true
    /\ getMarkerCluster w' 3%nat = Some c
    /\ In 3%nat (c_markers_ c).
Proof.
  apply (addMarker_in_view_is_clustered
           (perform (Example.world 2 None false 5) OnAdd) 3%nat
           (mkLatLngBounds (mkLatLng (-50) (-50)) (mkLatLng 50 50))).
  - apply reachable_call; [apply reachable_initial; repeat split; reflexivity | exact I].
  - simpl. intros [].
  - reflexivity.
  - reflexivity.
  - vm_compute. reflexivity.
  - reflexivity.
Defined.
